(** * ti-ddb: bulk helpers over the DynamoDB document client

    A shallow embedding of [src/batchHelper.ts] -- [configure],
    [batchGetAll], [batchPutAll] and [batchScanAll] -- together with the
    properties the written specification states about them.

    - The document client is an external collaborator.  It is a state
      [Backend] with one transition per command kind; a transition
      either rejects (left) or resolves with an output (right).
    - [await], [wait], the optional log callback, [console.log] and
      [process.stdout.write] are effects: every computation reports the
      chronological list of [Event]s it emitted.
    - An [async] body is a function from the backend state to a [Run]:
      final backend state, emitted events, and an [Outcome].
    - The retry loops have no bound on the number of rounds, so the loops
      take a round budget; a call whose budget runs out is [Unfinished].
    - Waits and backoff settings are JavaScript numbers; they are modelled
      as [Z], which is exact for the integral settings considered here.
      The settings are module variables that a call reads as it goes; they
      are the parameter [cfg] of a call, so that no other task changes
      them while the call is suspended.
    - [Live] is the same code without three things taken for granted:
      there the settings are read anew after every [await], the log
      callback is code of the caller that may throw, and the [.catch]
      handler of a write may throw while it builds its line.
    - [Logger.debug] is bound to a function with an empty body, so its
      calls are not events. *)

From Stdlib Require Import ZArith Lia.
From stdpp Require Import base option list gmap fin_maps strings pretty.

Local Open Scope Z_scope.
Local Open Scope nat_scope.

(** ** Module-level settings *)

(** [batchGetLimit]: the most keys one request may carry. *)
Definition batchGetLimit : nat := 100.

(** [batchWriteLimit]: the most items one request may carry. *)
Definition batchWriteLimit : nat := 25.

(** The three mutable module variables. *)
Record Settings := mkSettings {
  backoffInitial : Z;
  backoffMax : Z;
  backoffFactor : Z
}.

(** Their values when the module is loaded. *)
Definition defaultSettings : Settings :=
  {| backoffInitial := 1000; backoffMax := 30000; backoffFactor := 2 |}.

(** The argument of [configure], as [configure] reads it: for each field
    the number it holds, or [None] when the field is absent or holds
    anything else, which [typeof ... === "number"] does not tell apart. *)
Record Options := mkOptions {
  optBackoffInitial : option Z;
  optBackoffMax : option Z;
  optBackoffFactor : option Z
}.

(** [configure(options)]: a field that holds a number overwrites the
    module variable, any other field leaves it alone.  No relation
    between the three values is checked. *)
Definition configure (options : Options) (s : Settings) : Settings :=
  {| backoffInitial := default (backoffInitial s) (optBackoffInitial options);
     backoffMax := default (backoffMax s) (optBackoffMax options);
     backoffFactor := default (backoffFactor s) (optBackoffFactor options) |}.

(** [Object.keys] of an object used as a map. *)
Definition objectKeys {V : Type} (m : gmap string V) : list string :=
  (map_to_list m).*1.

(** Characters used by the log lines. *)
Definition LF : string := String (Ascii.ascii_of_nat 10) EmptyString.
Definition CR : string := String (Ascii.ascii_of_nat 13) EmptyString.

(** [`${x}`] for a possibly undefined string or array length. *)
Definition showString (o : option string) : string := default "undefined"%string o.
Definition showLength {A : Type} (o : option (list A)) : string :=
  match o with
  | Some l => pretty (length l)
  | None => "undefined"%string
  end.

(** How an [async] call ends: it returns, it throws, or its round budget
    ran out first. *)
Inductive Outcome (E A : Type) :=
  | Returned (a : A)
  | Threw (e : E)
  | Unfinished.
Arguments Returned {E A} a.
Arguments Threw {E A} e.
Arguments Unfinished {E A}.

(** How a loop with a round budget stopped: its condition became false,
    or the budget ran out with the condition still true. *)
Inductive LoopExit (S : Type) :=
  | Exited (s : S)
  | Running (s : S).
Arguments Exited {S} s.
Arguments Running {S} s.

Definition loopState {S} (x : LoopExit S) : S :=
  match x with Exited s | Running s => s end.

(** Keys, stored records, items to put, scan cursors and pass-through
    request options are plain JavaScript values; [Backend] is the state of
    the store behind the client and [Reason] what a call may be rejected
    with. *)
Class Schema := {
  Key : Type;
  Rec : Type;
  Item : Type;
  Cursor : Type;
  GetOptions : Type;
  TableOptions : Type;
  ScanOptions : Type;
  Backend : Type;
  Reason : Type
}.

Section BatchHelper.

Context `{Schema}.

(** *** Requests and responses *)

Record KeysAndAttributes := mkKeysAndAttributes {
  Keys : option (list Key);
  tableOptions : TableOptions
}.

Record BatchGetCommandInput := mkBatchGetCommandInput {
  getRequestItems : option (gmap string KeysAndAttributes);
  getOptions : GetOptions
}.

Record BatchGetCommandOutput := mkBatchGetCommandOutput {
  Responses : option (gmap string (list Rec));
  UnprocessedKeys : option (gmap string KeysAndAttributes)
}.

Inductive WriteRequest :=
  | PutRequest (item : Item)
  | DeleteRequest (key : Key).

Record BatchWriteCommandInput := mkBatchWriteCommandInput {
  writeRequestItems : option (gmap string (list WriteRequest))
}.

Record BatchWriteCommandOutput := mkBatchWriteCommandOutput {
  UnprocessedItems : option (gmap string (list WriteRequest))
}.

Record ScanCommandInput := mkScanCommandInput {
  TableName : option string;
  ExclusiveStartKey : option Cursor;
  scanOptions : ScanOptions
}.

Record ScanCommandOutput := mkScanCommandOutput {
  Items : option (list Rec);
  LastEvaluatedKey : option Cursor
}.

(** *** The client: [dynamodb.send(command)], one transition per command *)

Record DynamoDBDocumentClient := mkClient {
  sendBatchGet :
    Backend -> BatchGetCommandInput ->
    Backend * (Reason + BatchGetCommandOutput);
  sendBatchWrite :
    Backend -> BatchWriteCommandInput ->
    Backend * (Reason + BatchWriteCommandOutput);
  sendScan :
    Backend -> ScanCommandInput -> Backend * (Reason + ScanCommandOutput)
}.

(** [JSON.stringify] on a write request and [`${e}`] on a rejection. *)
Class Stringify := {
  JSON_stringify : WriteRequest -> string;
  reasonString : Reason -> string
}.

Context `{Stringify}.

(** The first argument of the three bulk operations. *)
Context (dynamodb : DynamoDBDocumentClient).

(** *** Effects *)

Inductive JsError :=
  | Error (message : string)   (* [throw new Error(message)] *)
  | TypeError                  (* a property or spread of [undefined] *)
  | Rejected (reason : Reason) (* the promise of [dynamodb.send] rejected *).

Inductive Event :=
  | EvBatchGet (request : BatchGetCommandInput)
      (response : Reason + BatchGetCommandOutput)
  | EvBatchWrite (request : BatchWriteCommandInput)
      (response : Reason + BatchWriteCommandOutput)
  | EvScan (request : ScanCommandInput) (response : Reason + ScanCommandOutput)
  | EvWait (millis : Z)
  | EvLogCallback (log : string)
  | EvConsoleLog (line : string)
  | EvStdout (text : string).

Record Run (A : Type) := mkRun {
  final : Backend;
  emitted : list Event;
  outcome : Outcome JsError A
}.
Arguments mkRun {A} final emitted outcome.
Arguments final {A} r.
Arguments emitted {A} r.
Arguments outcome {A} r.

Definition Async (A : Type) : Type := Backend -> Run A.

Definition ret {A} (a : A) : Async A := fun b => mkRun b [] (Returned a).
Definition throw {A} (e : JsError) : Async A := fun b => mkRun b [] (Threw e).
Definition unfinished {A} : Async A := fun b => mkRun b [] Unfinished.
Definition emit (e : Event) : Async unit := fun b => mkRun b [e] (Returned tt).

Definition bind {A B} (c : Async A) (k : A -> Async B) : Async B :=
  fun b =>
    let r := c b in
    match outcome r with
    | Returned a =>
        let r' := k a (final r) in
        mkRun (final r') (emitted r ++ emitted r') (outcome r')
    | Threw e => mkRun (final r) (emitted r) (Threw e)
    | Unfinished => mkRun (final r) (emitted r) Unfinished
    end.

Notation "'let*' x ':=' c 'in' k" := (bind c (fun x => k))
  (at level 10, x name, c at level 100, k at level 200).
Notation "c ';;' k" := (bind c (fun _ => k))
  (at level 100, k at level 200, right associativity).

(** [await dynamodb.send(new BatchGetCommand(request))] *)
Definition awaitBatchGet (request : BatchGetCommandInput)
  : Async BatchGetCommandOutput :=
  fun b =>
    let '(b', response) := sendBatchGet dynamodb b request in
    mkRun b' [EvBatchGet request response]
      match response with
      | inl reason => Threw (Rejected reason)
      | inr output => Returned output
      end.

(** [await dynamodb.send(new ScanCommand(input))] *)
Definition awaitScan (request : ScanCommandInput) : Async ScanCommandOutput :=
  fun b =>
    let '(b', response) := sendScan dynamodb b request in
    mkRun b' [EvScan request response]
      match response with
      | inl reason => Threw (Rejected reason)
      | inr output => Returned output
      end.

(** [await wait(millis)] *)
Definition wait (millis : Z) : Async unit := emit (EvWait millis).

(** ** batchGetAll *)

Definition getSingleTableMessage : string :=
  "Only batchGet from a single table at a time is supported in this method.".

(** The loop variables: [unprocessedKeys], [results], [backoff]. *)
Record GetLoop := mkGetLoop {
  unprocessedKeys : list Key;
  results : list Rec;
  backoff : Z
}.

(** [response.Responses![requestItemsTable]] followed by the spread of the
    value into [results]: an absent map or an absent entry is a
    [TypeError]. *)
Definition responseObjects (table : string) (response : BatchGetCommandOutput)
  : Async (list Rec) :=
  match Responses response with
  | None => throw TypeError
  | Some m =>
      match m !! table with
      | None => throw TypeError
      | Some objs => ret objs
      end
  end.

(** The condition [response.UnprocessedKeys &&
    response.UnprocessedKeys[table] &&
    response.UnprocessedKeys[table].Keys!.length], as the list whose
    non-emptiness it tests; an entry without [Keys] is a [TypeError]. *)
Definition residualKeys (table : string) (response : BatchGetCommandOutput)
  : Async (list Key) :=
  match UnprocessedKeys response with
  | None => ret []
  | Some m =>
      match m !! table with
      | None => ret []
      | Some ka =>
          match Keys ka with
          | None => throw TypeError
          | Some ks => ret ks
          end
      end
  end.

(** The request of one round: the caller's input with [RequestItems]
    replaced by the single table, whose [Keys] are the chunk. *)
Definition getRequest (batchGetInput : BatchGetCommandInput) (table : string)
    (entry : KeysAndAttributes) (chunk : list Key) : BatchGetCommandInput :=
  {| getRequestItems :=
       Some {[ table := {| Keys := Some chunk;
                            tableOptions := tableOptions entry |} ]};
     getOptions := getOptions batchGetInput |}.

(** One turn of the [while (unprocessedKeys.length)] body. *)
Definition getRound (cfg : Settings) (batchGetInput : BatchGetCommandInput)
    (table : string) (entry : KeysAndAttributes) (st : GetLoop)
  : Async GetLoop :=
  let n := Nat.min (length (unprocessedKeys st)) batchGetLimit in
  let chunk := take n (unprocessedKeys st) in  (* splice(0, n) returns ... *)
  let rest := drop n (unprocessedKeys st) in   (* ... and leaves behind *)
  let request := getRequest batchGetInput table entry chunk in
  let* response := awaitBatchGet request in
  let* objs := responseObjects table response in
  let results' := results st ++ objs in
  let* residual := residualKeys table response in
  match residual with
  | _ :: _ =>
      wait (backoff st);;
      ret {| unprocessedKeys := residual ++ rest;  (* unshift(...) *)
             results := results';
             backoff := Z.min (backoff st * backoffFactor cfg) (backoffMax cfg) |}
  | [] =>
      ret {| unprocessedKeys := rest;
             results := results';
             backoff := backoffInitial cfg |}
  end.

(** [while (unprocessedKeys.length) { ... }], at most [rounds] turns. *)
Fixpoint getLoop (rounds : nat) (cfg : Settings)
    (batchGetInput : BatchGetCommandInput) (table : string)
    (entry : KeysAndAttributes) (st : GetLoop) : Async (LoopExit GetLoop) :=
  match unprocessedKeys st with
  | [] => ret (Exited st)
  | _ :: _ =>
      match rounds with
      | O => ret (Running st)
      | S rounds' =>
          let* st' := getRound cfg batchGetInput table entry st in
          getLoop rounds' cfg batchGetInput table entry st'
      end
  end.

Definition batchGetAll (rounds : nat) (cfg : Settings)
    (batchGetInput : BatchGetCommandInput) : Async (list Rec) :=
  match getRequestItems batchGetInput with
  | None => ret []
  | Some requestItems =>
      let requestItemsTables := objectKeys requestItems in
      if decide (length requestItemsTables ≠ 1)
      then throw (Error getSingleTableMessage)
      else
        match head requestItemsTables with
        | None => throw TypeError
        | Some requestItemsTable =>
            match requestItems !! requestItemsTable with
            | None => throw TypeError
            | Some entry =>
                match Keys entry with
                | None => throw TypeError
                | Some keys =>
                    let* exit :=
                      getLoop rounds cfg batchGetInput requestItemsTable entry
                        {| unprocessedKeys := keys;
                           results := [];
                           backoff := backoffInitial cfg |} in
                    match exit with
                    | Exited st => ret (results st)
                    | Running _ => unfinished
                    end
                end
            end
        end
  end.

(** ** batchPutAll *)

Definition putSingleTableMessage : string :=
  "Only batchWrite to a single table at a time is supported in this method.".

(** The loop variables: [unprocessedItems], [backoff]. *)
Record PutLoop := mkPutLoop {
  unprocessedItems : list WriteRequest;
  putBackoff : Z
}.

(** [logCallback] is an observer: when supplied ([true]) each invocation
    is the event [EvLogCallback] of its argument, and it does not throw. *)
Definition callLog (logCallback : bool) (log : string) : Async unit :=
  if logCallback then emit (EvLogCallback log) else ret tt.

(** The line printed by the [.catch] handler of a round. *)
Definition notWritingLine (failedItems : list WriteRequest) (e : Reason)
  : string :=
  let failedItemStrings :=
    String.concat LF
      (map (fun it => String.substring 0 20 (JSON_stringify it)) failedItems) in
  ("Not writing " +:+ failedItemStrings +:+ LF +:+ " > failed with "
     +:+ reasonString e)%string.

(** [await dynamodb.send(new BatchWriteCommand(request)).catch(...).then(...)]:
    a rejection is printed and turned into [undefined]. *)
Definition awaitBatchWriteCatch (table : string)
    (request : BatchWriteCommandInput) : Async (option BatchWriteCommandOutput) :=
  fun b =>
    let '(b', response) := sendBatchWrite dynamodb b request in
    match response with
    | inl e =>
        let failedItems :=
          match writeRequestItems request with
          | Some m => default [] (m !! table)
          | None => []
          end in
        mkRun b' [EvBatchWrite request response;
                  EvConsoleLog (notWritingLine failedItems e)]
          (Returned None)
    | inr output =>
        mkRun b' [EvBatchWrite request response] (Returned (Some output))
    end.

(** The condition [response && response.UnprocessedItems &&
    response.UnprocessedItems[table] &&
    response.UnprocessedItems[table].length], as the list whose
    non-emptiness it tests. *)
Definition residualItems (table : string)
    (response : option BatchWriteCommandOutput) : list WriteRequest :=
  match response with
  | None => []
  | Some output =>
      match UnprocessedItems output with
      | None => []
      | Some m => default [] (m !! table)
      end
  end.

(** The request of one round; [...input] contributes nothing else, since
    [RequestItems] is the only field of [input]. *)
Definition putRequest (table : string) (chunk : list WriteRequest)
  : BatchWriteCommandInput :=
  {| writeRequestItems := Some {[ table := chunk ]} |}.

(** One turn of the [while (unprocessedItems.length)] body. *)
Definition putRound (cfg : Settings) (table : string) (logCallback : bool)
    (st : PutLoop) : Async PutLoop :=
  let n := Nat.min (length (unprocessedItems st)) batchWriteLimit in
  let chunk := take n (unprocessedItems st) in
  let rest := drop n (unprocessedItems st) in
  let request := putRequest table chunk in
  callLog logCallback (pretty (length rest));;
  let* response := awaitBatchWriteCatch table request in
  let residual := residualItems table response in
  match residual with
  | _ :: _ =>
      wait (putBackoff st);;
      ret {| unprocessedItems := residual ++ rest;
             putBackoff :=
               Z.min (putBackoff st * backoffFactor cfg) (backoffMax cfg) |}
  | [] =>
      ret {| unprocessedItems := rest;
             putBackoff := backoffInitial cfg |}
  end.

(** [while (unprocessedItems.length) { ... }], at most [rounds] turns. *)
Fixpoint putLoop (rounds : nat) (cfg : Settings) (table : string)
    (logCallback : bool) (st : PutLoop) : Async (LoopExit PutLoop) :=
  match unprocessedItems st with
  | [] => ret (Exited st)
  | _ :: _ =>
      match rounds with
      | O => ret (Running st)
      | S rounds' =>
          let* st' := putRound cfg table logCallback st in
          putLoop rounds' cfg table logCallback st'
      end
  end.

(** The body of [batchPutAll] from the single-table check on, as a
    function of the [input] object it checks. *)
Definition batchWriteInput (rounds : nat) (cfg : Settings)
    (input : BatchWriteCommandInput) (logCallback : bool) : Async unit :=
  match writeRequestItems input with
  | None => throw TypeError
  | Some requestItems =>
      let requestItemsTables := objectKeys requestItems in
      if decide (length requestItemsTables ≠ 1)
      then throw (Error putSingleTableMessage)
      else
        match head requestItemsTables with
        | None => throw TypeError
        | Some requestItemsTable =>
            match requestItems !! requestItemsTable with
            | None => throw TypeError
            | Some writes =>
                let* exit :=
                  putLoop rounds cfg requestItemsTable logCallback
                    {| unprocessedItems := writes;
                       putBackoff := backoffInitial cfg |} in
                match exit with
                | Exited _ => ret tt
                | Running _ => unfinished
                end
            end
        end
  end.

Definition batchPutAll (rounds : nat) (cfg : Settings) (table : string)
    (items : list Item) (logCallback : bool) : Async unit :=
  callLog logCallback "starting batch write";;
  let input :=
    {| writeRequestItems := Some {[ table := map PutRequest items ]} |} in
  batchWriteInput rounds cfg input logCallback.

(** ** batchScanAll *)

(** The variables of the [do ... while] loop: [input] (reassigned every
    turn), [results], [lastEvalKey]. *)
Record ScanLoop := mkScanLoop {
  scanInput : ScanCommandInput;
  scanResults : list Rec;
  lastEvalKey : option Cursor
}.

(** [{ ...input, ...(lastEvalKey && { ExclusiveStartKey: lastEvalKey }) }]:
    a cursor is an object, hence truthy whenever it is defined. *)
Definition withCursor (input : ScanCommandInput) (cursor : option Cursor)
  : ScanCommandInput :=
  match cursor with
  | Some c =>
      {| TableName := TableName input;
         ExclusiveStartKey := Some c;
         scanOptions := scanOptions input |}
  | None => input
  end.

(** One turn of the [do { ... }] body. *)
Definition scanRound (st : ScanLoop) : Async ScanLoop :=
  let input := withCursor (scanInput st) (lastEvalKey st) in
  let* result := awaitScan input in
  let results' := scanResults st ++ default [] (Items result) in
  emit (EvStdout ("-" +:+ showLength (Items result) +:+ CR));;
  ret {| scanInput := input;
         scanResults := results';
         lastEvalKey := LastEvaluatedKey result |}.

(** [do { ... } while (lastEvalKey !== undefined)], at most [rounds] turns. *)
Fixpoint scanLoop (rounds : nat) (st : ScanLoop) : Async (LoopExit ScanLoop) :=
  match rounds with
  | O => ret (Running st)
  | S rounds' =>
      let* st' := scanRound st in
      match lastEvalKey st' with
      | Some _ => scanLoop rounds' st'
      | None => ret (Exited st')
      end
  end.

Definition batchScanAll (rounds : nat) (input : ScanCommandInput)
  : Async (list Rec) :=
  emit (EvConsoleLog ("getting all items for " +:+ showString (TableName input)));;
  let* exit :=
    scanLoop rounds
      {| scanInput := input; scanResults := []; lastEvalKey := None |} in
  match exit with
  | Exited st =>
      emit (EvConsoleLog ("total items: " +:+ pretty (length (scanResults st))));;
      ret (scanResults st)
  | Running _ => unfinished
  end.

(** ** Observers of a trace

    What the specification says about a call is said about what the call
    does to the backend and to the clock; these functions read it off the
    emitted events. *)

(** The list tested by the residual condition of a get round. *)
Definition unprocessedOf (table : string) (output : BatchGetCommandOutput)
  : list Key :=
  match UnprocessedKeys output with
  | None => []
  | Some m =>
      match m !! table with
      | None => []
      | Some ka => default [] (Keys ka)
      end
  end.

(** The records a get response carries for the table. *)
Definition recordsOf (table : string) (output : BatchGetCommandOutput)
  : list Rec :=
  match Responses output with
  | None => []
  | Some m => default [] (m !! table)
  end.

(** The keys a get request asks for. *)
Definition keysOf (table : string) (request : BatchGetCommandInput)
  : list Key :=
  match getRequestItems request with
  | None => []
  | Some m =>
      match m !! table with
      | None => []
      | Some ka => default [] (Keys ka)
      end
  end.

(** The write requests a write request carries. *)
Definition writesOf (table : string) (request : BatchWriteCommandInput)
  : list WriteRequest :=
  match writeRequestItems request with
  | None => []
  | Some m => default [] (m !! table)
  end.

Definition isSend (e : Event) : bool :=
  match e with
  | EvBatchGet _ _ | EvBatchWrite _ _ | EvScan _ _ => true
  | _ => false
  end.

Definition isRejected (e : Event) : bool :=
  match e with
  | EvBatchGet _ (inl _) | EvBatchWrite _ (inl _) | EvScan _ (inl _) => true
  | _ => false
  end.

Definition isLogCallback (e : Event) : bool :=
  match e with EvLogCallback _ => true | _ => false end.

(** The number of backend calls of a trace. *)
Definition backendCalls (tr : list Event) : nat := length (filter isSend tr).

(** The chunk submitted by an event. *)
Definition sentKeys (table : string) (e : Event) : list Key :=
  match e with EvBatchGet request _ => keysOf table request | _ => [] end.
Definition sentWrites (table : string) (e : Event) : list WriteRequest :=
  match e with EvBatchWrite request _ => writesOf table request | _ => [] end.

(** The residual reported in answer to an event; a rejected call reports
    none. *)
Definition residualKeysOf (table : string) (e : Event) : list Key :=
  match e with
  | EvBatchGet _ (inr output) => unprocessedOf table output
  | _ => []
  end.
Definition residualWritesOf (table : string) (e : Event) : list WriteRequest :=
  match e with
  | EvBatchWrite _ (inr output) => residualItems table (Some output)
  | _ => []
  end.

(** The records returned in answer to an event. *)
Definition returnedRecords (table : string) (e : Event) : list Rec :=
  match e with
  | EvBatchGet _ (inr output) => recordsOf table output
  | _ => []
  end.
Definition scannedRecords (e : Event) : list Rec :=
  match e with
  | EvScan _ (inr output) => default [] (Items output)
  | _ => []
  end.

(** Whether an event is a submission round, and if so whether it reported
    a non-empty residual. *)
Definition reportsResidual (table : string) (e : Event) : option bool :=
  match e with
  | EvBatchGet _ _ =>
      Some (match residualKeysOf table e with [] => false | _ => true end)
  | EvBatchWrite _ _ =>
      Some (match residualWritesOf table e with [] => false | _ => true end)
  | _ => None
  end.

Definition waitsOf (tr : list Event) : list Z :=
  omap (fun e => match e with EvWait w => Some w | _ => None end) tr.

(** The waits of the written specification for the settings
    [initial = 1000], [max = 30000], [factor = 2]: the wait that follows
    the round which extends a run of [streak] earlier consecutive rounds
    with residual. *)
Definition scheduledWait (streak : nat) : Z :=
  nth streak [1000; 2000; 4000; 8000; 16000]%Z 30000%Z.

(** A trace follows the schedule when every round with residual is
    followed, before the next round, by exactly one wait, of the scheduled
    length for the current streak, when a round without residual is
    followed by no wait and ends the streak, and when no other wait
    occurs.  [due] is the wait owed by the last round, if any. *)
Fixpoint followsSchedule (table : string) (streak : nat) (due : option Z)
    (tr : list Event) : bool :=
  match tr with
  | [] => bool_decide (due = None)
  | EvWait w :: tr' =>
      bool_decide (due = Some w) && followsSchedule table streak None tr'
  | e :: tr' =>
      match reportsResidual table e with
      | None => followsSchedule table streak due tr'
      | Some residual =>
          bool_decide (due = None) &&
          if residual
          then followsSchedule table (S streak) (Some (scheduledWait streak)) tr'
          else followsSchedule table 0 None tr'
      end
  end.

(** The backoff invariant of the written specification. *)
Definition backoffInRange (cfg : Settings) (x : Z) : Prop :=
  (backoffInitial cfg <= x <= backoffMax cfg)%Z.

(** Settings under which the invariant can hold at all. *)
Definition saneSettings (cfg : Settings) : Prop :=
  (0 <= backoffInitial cfg <= backoffMax cfg)%Z /\ (1 <= backoffFactor cfg)%Z.

(** Every callback invocation is followed by a backend call before the
    next invocation, and every backend call is preceded by one:
    [armed] tells that an invocation awaits its call. *)
Fixpoint callbackPerCall (armed : bool) (tr : list Event) : bool :=
  match tr with
  | [] => negb armed
  | EvLogCallback _ :: tr' => negb armed && callbackPerCall true tr'
  | EvBatchWrite _ _ :: tr' => armed && callbackPerCall false tr'
  | _ :: tr' => callbackPerCall armed tr'
  end.

(** [ceil(n / limit)] *)
Definition chunksNeeded (n limit : nat) : nat := (n + (limit - 1)) / limit.

(** ** The shapes of one round

    Each round body has a small number of paths.  The relations below list
    them with the run each path produces; [getRound_cases], [putRound_cases]
    and [scanRound_cases] show that the round bodies take no other path. *)

(** A get response the round body reads without a [TypeError]: it has
    records for the table, and its unprocessed entry for the table, if
    any, has keys. *)
Definition wellFormedGet (table : string) (output : BatchGetCommandOutput)
  : Prop :=
  is_Some (Responses output ≫= (.!! table)) /\
  forall m ka, UnprocessedKeys output = Some m -> m !! table = Some ka ->
               is_Some (Keys ka).

Definition getChunk (st : GetLoop) : list Key :=
  take (Nat.min (length (unprocessedKeys st)) batchGetLimit) (unprocessedKeys st).
Definition getRest (st : GetLoop) : list Key :=
  drop (Nat.min (length (unprocessedKeys st)) batchGetLimit) (unprocessedKeys st).

Inductive GetRoundPath (cfg : Settings) (batchGetInput : BatchGetCommandInput)
    (table : string) (entry : KeysAndAttributes) (st : GetLoop) (b : Backend)
  : Run GetLoop -> Prop :=
  | GetRejected b' reason :
      sendBatchGet dynamodb b (getRequest batchGetInput table entry (getChunk st))
        = (b', inl reason) ->
      GetRoundPath cfg batchGetInput table entry st b
        (mkRun b'
           [EvBatchGet (getRequest batchGetInput table entry (getChunk st))
              (inl reason)]
           (Threw (Rejected reason)))
  | GetMalformed b' output :
      sendBatchGet dynamodb b (getRequest batchGetInput table entry (getChunk st))
        = (b', inr output) ->
      ~ wellFormedGet table output ->
      GetRoundPath cfg batchGetInput table entry st b
        (mkRun b'
           [EvBatchGet (getRequest batchGetInput table entry (getChunk st))
              (inr output)]
           (Threw TypeError))
  | GetClean b' output :
      sendBatchGet dynamodb b (getRequest batchGetInput table entry (getChunk st))
        = (b', inr output) ->
      wellFormedGet table output ->
      unprocessedOf table output = [] ->
      GetRoundPath cfg batchGetInput table entry st b
        (mkRun b'
           [EvBatchGet (getRequest batchGetInput table entry (getChunk st))
              (inr output)]
           (Returned {| unprocessedKeys := getRest st;
                        results := results st ++ recordsOf table output;
                        backoff := backoffInitial cfg |}))
  | GetResidual b' output :
      sendBatchGet dynamodb b (getRequest batchGetInput table entry (getChunk st))
        = (b', inr output) ->
      wellFormedGet table output ->
      unprocessedOf table output <> [] ->
      GetRoundPath cfg batchGetInput table entry st b
        (mkRun b'
           [EvBatchGet (getRequest batchGetInput table entry (getChunk st))
              (inr output);
            EvWait (backoff st)]
           (Returned {| unprocessedKeys := unprocessedOf table output ++ getRest st;
                        results := results st ++ recordsOf table output;
                        backoff := Z.min (backoff st * backoffFactor cfg)
                                         (backoffMax cfg) |})).

Definition putChunk (st : PutLoop) : list WriteRequest :=
  take (Nat.min (length (unprocessedItems st)) batchWriteLimit)
    (unprocessedItems st).
Definition putRest (st : PutLoop) : list WriteRequest :=
  drop (Nat.min (length (unprocessedItems st)) batchWriteLimit)
    (unprocessedItems st).

(** The events of the progress callback in a round. *)
Definition progressEvents (logCallback : bool) (st : PutLoop) : list Event :=
  if logCallback then [EvLogCallback (pretty (length (putRest st)))] else [].

Inductive PutRoundPath (cfg : Settings) (table : string) (logCallback : bool)
    (st : PutLoop) (b : Backend) : Run PutLoop -> Prop :=
  | PutRejected b' reason :
      sendBatchWrite dynamodb b (putRequest table (putChunk st)) = (b', inl reason) ->
      PutRoundPath cfg table logCallback st b
        (mkRun b'
           (progressEvents logCallback st ++
            [EvBatchWrite (putRequest table (putChunk st)) (inl reason);
             EvConsoleLog (notWritingLine (putChunk st) reason)])
           (Returned {| unprocessedItems := putRest st;
                        putBackoff := backoffInitial cfg |}))
  | PutClean b' output :
      sendBatchWrite dynamodb b (putRequest table (putChunk st)) = (b', inr output) ->
      residualItems table (Some output) = [] ->
      PutRoundPath cfg table logCallback st b
        (mkRun b'
           (progressEvents logCallback st ++
            [EvBatchWrite (putRequest table (putChunk st)) (inr output)])
           (Returned {| unprocessedItems := putRest st;
                        putBackoff := backoffInitial cfg |}))
  | PutResidual b' output :
      sendBatchWrite dynamodb b (putRequest table (putChunk st)) = (b', inr output) ->
      residualItems table (Some output) <> [] ->
      PutRoundPath cfg table logCallback st b
        (mkRun b'
           (progressEvents logCallback st ++
            [EvBatchWrite (putRequest table (putChunk st)) (inr output);
             EvWait (putBackoff st)])
           (Returned {| unprocessedItems :=
                          residualItems table (Some output) ++ putRest st;
                        putBackoff :=
                          Z.min (putBackoff st * backoffFactor cfg)
                                (backoffMax cfg) |})).

(** The request of a scan round, and the state it leaves when answered. *)
Definition scanRequest (st : ScanLoop) : ScanCommandInput :=
  withCursor (scanInput st) (lastEvalKey st).
Definition scanNext (st : ScanLoop) (output : ScanCommandOutput) : ScanLoop :=
  {| scanInput := scanRequest st;
     scanResults := scanResults st ++ default [] (Items output);
     lastEvalKey := LastEvaluatedKey output |}.

Inductive ScanRoundPath (st : ScanLoop) (b : Backend) : Run ScanLoop -> Prop :=
  | ScanRejected b' reason :
      sendScan dynamodb b (scanRequest st) = (b', inl reason) ->
      ScanRoundPath st b
        (mkRun b' [EvScan (scanRequest st) (inl reason)]
           (Threw (Rejected reason)))
  | ScanAnswered b' output :
      sendScan dynamodb b (scanRequest st) = (b', inr output) ->
      ScanRoundPath st b
        (mkRun b'
           [EvScan (scanRequest st) (inr output);
            EvStdout ("-" +:+ showLength (Items output) +:+ CR)]
           (Returned (scanNext st output))).

(** ** The shapes of a loop run

    A loop run is a sequence of rounds, closed by the loop condition
    turning false ([Exited]), by the round budget running out ([Running]),
    or by a round that throws.  [getLoop_run], [putLoop_run] and
    [scanLoop_run] show that the loops run in no other way. *)

Inductive GetLoopRun (cfg : Settings) (batchGetInput : BatchGetCommandInput)
    (table : string) (entry : KeysAndAttributes)
  : GetLoop -> Backend -> Run (LoopExit GetLoop) -> Prop :=
  | GetExited st b :
      unprocessedKeys st = [] ->
      GetLoopRun cfg batchGetInput table entry st b
        (mkRun b [] (Returned (Exited st)))
  | GetPaused st b :
      unprocessedKeys st <> [] ->
      GetLoopRun cfg batchGetInput table entry st b
        (mkRun b [] (Returned (Running st)))
  | GetAborted st b b' evs e :
      unprocessedKeys st <> [] ->
      GetRoundPath cfg batchGetInput table entry st b (mkRun b' evs (Threw e)) ->
      GetLoopRun cfg batchGetInput table entry st b (mkRun b' evs (Threw e))
  | GetContinued st b b' evs st' r :
      unprocessedKeys st <> [] ->
      GetRoundPath cfg batchGetInput table entry st b
        (mkRun b' evs (Returned st')) ->
      GetLoopRun cfg batchGetInput table entry st' b' r ->
      GetLoopRun cfg batchGetInput table entry st b
        (mkRun (final r) (evs ++ emitted r) (outcome r)).

Inductive PutLoopRun (cfg : Settings) (table : string) (logCallback : bool)
  : PutLoop -> Backend -> Run (LoopExit PutLoop) -> Prop :=
  | PutExited st b :
      unprocessedItems st = [] ->
      PutLoopRun cfg table logCallback st b (mkRun b [] (Returned (Exited st)))
  | PutPaused st b :
      unprocessedItems st <> [] ->
      PutLoopRun cfg table logCallback st b (mkRun b [] (Returned (Running st)))
  | PutContinued st b b' evs st' r :
      unprocessedItems st <> [] ->
      PutRoundPath cfg table logCallback st b (mkRun b' evs (Returned st')) ->
      PutLoopRun cfg table logCallback st' b' r ->
      PutLoopRun cfg table logCallback st b
        (mkRun (final r) (evs ++ emitted r) (outcome r)).

Inductive ScanLoopRun : ScanLoop -> Backend -> Run (LoopExit ScanLoop) -> Prop :=
  | ScanPaused st b :
      ScanLoopRun st b (mkRun b [] (Returned (Running st)))
  | ScanAborted st b b' evs e :
      ScanRoundPath st b (mkRun b' evs (Threw e)) ->
      ScanLoopRun st b (mkRun b' evs (Threw e))
  | ScanExited st b b' evs st' :
      ScanRoundPath st b (mkRun b' evs (Returned st')) ->
      lastEvalKey st' = None ->
      ScanLoopRun st b (mkRun b' evs (Returned (Exited st')))
  | ScanContinued st b b' evs st' r :
      ScanRoundPath st b (mkRun b' evs (Returned st')) ->
      lastEvalKey st' <> None ->
      ScanLoopRun st' b' r ->
      ScanLoopRun st b (mkRun (final r) (evs ++ emitted r) (outcome r)).

(** Everything submitted, reported back as residual, and returned over a
    whole trace, round after round. *)
Definition submittedKeys (table : string) (tr : list Event) : list Key :=
  flat_map (sentKeys table) tr.
Definition reportedKeys (table : string) (tr : list Event) : list Key :=
  flat_map (residualKeysOf table) tr.
Definition submittedWrites (table : string) (tr : list Event)
  : list WriteRequest :=
  flat_map (sentWrites table) tr.
Definition reportedWrites (table : string) (tr : list Event)
  : list WriteRequest :=
  flat_map (residualWritesOf table) tr.
Definition returnedBy (table : string) (tr : list Event) : list Rec :=
  flat_map (returnedRecords table) tr.
Definition scannedBy (tr : list Event) : list Rec :=
  flat_map scannedRecords tr.

(** The sizes of the chunks a trace submitted, call by call. *)
Definition getChunkSizes (table : string) (tr : list Event) : list nat :=
  omap (fun e => match e with
                 | EvBatchGet request _ => Some (length (keysOf table request))
                 | _ => None
                 end) tr.
Definition putChunkSizes (table : string) (tr : list Event) : list nat :=
  omap (fun e => match e with
                 | EvBatchWrite request _ =>
                     Some (length (writesOf table request))
                 | _ => None
                 end) tr.

(** ** Calls on one table *)

(** A get request on a single table. *)
Definition singleTableGet (table : string) (entry : KeysAndAttributes)
    (opts : GetOptions) : BatchGetCommandInput :=
  {| getRequestItems := Some {[ table := entry ]}; getOptions := opts |}.

(** The loop variables when the loops are entered. *)
Definition getStart (cfg : Settings) (keys : list Key) : GetLoop :=
  {| unprocessedKeys := keys; results := []; backoff := backoffInitial cfg |}.
Definition putStart (cfg : Settings) (items : list Item) : PutLoop :=
  {| unprocessedItems := map PutRequest items;
     putBackoff := backoffInitial cfg |}.

(** What [batchGetAll] and [batchPutAll] make of the way their loop ended. *)
Definition getAnswer (r : Run (LoopExit GetLoop)) : Run (list Rec) :=
  mkRun (final r) (emitted r)
    match outcome r with
    | Returned (Exited st) => Returned (results st)
    | Returned (Running _) => Unfinished
    | Threw e => Threw e
    | Unfinished => Unfinished
    end.
Definition putAnswer (logCallback : bool) (r : Run (LoopExit PutLoop))
  : Run unit :=
  mkRun (final r)
    ((if logCallback then [EvLogCallback "starting batch write"] else [])
       ++ emitted r)
    match outcome r with
    | Returned (Exited _) => Returned tt
    | Returned (Running _) => Unfinished
    | Threw e => Threw e
    | Unfinished => Unfinished
    end.

(** The rounds of a trace that ran to their end: a call that threw was
    cut short in its last round, right after the backend call. *)
Definition completedRounds {A} (r : Run A) : list Event :=
  match outcome r with
  | Threw _ => removelast (emitted r)
  | _ => emitted r
  end.

(** The cursors answered scans came back with, call by call. *)
Definition cursorsOf (tr : list Event) : list (option Cursor) :=
  omap (fun e => match e with
                 | EvScan _ (inr output) => Some (LastEvaluatedKey output)
                 | _ => None
                 end) tr.

(** A trace walks the pages of a scan when its first call carries
    [request] and each later call carries the request of the call before
    with the cursor that call came back with, when no call follows an
    answer without cursor or a rejected call. *)
Fixpoint scanWalk (request : ScanCommandInput) (tr : list Event) : Prop :=
  match tr with
  | [] => True
  | EvScan sent response :: tr' =>
      sent = request /\
      match response with
      | inr output =>
          match LastEvaluatedKey output with
          | Some c => scanWalk (withCursor request (Some c)) tr'
          | None => Forall (fun e => isSend e = false) tr'
          end
      | inl _ => Forall (fun e => isSend e = false) tr'
      end
  | _ :: tr' => scanWalk request tr'
  end.

(** ** Backends of particular behaviour *)

(** A backend that answers every get in full, with no residual. *)
Definition answersInFull (table : string) : Prop :=
  forall b request, exists b' output,
    sendBatchGet dynamodb b request = (b', inr output) /\
    wellFormedGet table output /\ unprocessedOf table output = [].

(** A backend that rejects every write. *)
Definition rejectsEveryWrite : Prop :=
  forall b request, exists b' reason,
    sendBatchWrite dynamodb b request = (b', inl reason).

(** ** The shipped build of batchScanAll

    [dist/batchHelper.js] is what a package user imports.  It is the
    source file compiled, except in [batchScanAll], whose progress line is
    [console.log("got items", result.Items?.length)] where the source has
    [process.stdout.write(`-${result.Items?.length}\r`)]. *)

(** One turn of the [do { ... }] body of the shipped build. *)
Definition dist_scanRound (st : ScanLoop) : Async ScanLoop :=
  let input := withCursor (scanInput st) (lastEvalKey st) in
  let* result := awaitScan input in
  let results' := scanResults st ++ default [] (Items result) in
  emit (EvConsoleLog ("got items " +:+ showLength (Items result)));;
  ret {| scanInput := input;
         scanResults := results';
         lastEvalKey := LastEvaluatedKey result |}.

Fixpoint dist_scanLoop (rounds : nat) (st : ScanLoop)
  : Async (LoopExit ScanLoop) :=
  match rounds with
  | O => ret (Running st)
  | S rounds' =>
      let* st' := dist_scanRound st in
      match lastEvalKey st' with
      | Some _ => dist_scanLoop rounds' st'
      | None => ret (Exited st')
      end
  end.

Definition dist_batchScanAll (rounds : nat) (input : ScanCommandInput)
  : Async (list Rec) :=
  emit (EvConsoleLog ("getting all items for " +:+ showString (TableName input)));;
  let* exit :=
    dist_scanLoop rounds
      {| scanInput := input; scanResults := []; lastEvalKey := None |} in
  match exit with
  | Exited st =>
      emit (EvConsoleLog ("total items: " +:+ pretty (length (scanResults st))));;
      ret (scanResults st)
  | Running _ => unfinished
  end.

(** ** Further observers of a trace *)

Definition isWait (e : Event) : bool :=
  match e with EvWait _ => true | _ => false end.

Definition isStdout (e : Event) : bool :=
  match e with EvStdout _ => true | _ => false end.

Definition isLogLine (e : Event) : bool :=
  match e with EvConsoleLog _ | EvStdout _ => true | _ => false end.

(** A trace without its waits, without its callback invocations, and
    without its log lines. *)
Definition eraseWaits (tr : list Event) : list Event :=
  filter (fun e => negb (isWait e)) tr.
Definition eraseCallbacks (tr : list Event) : list Event :=
  filter (fun e => negb (isLogCallback e)) tr.
Definition eraseLogLines (tr : list Event) : list Event :=
  filter (fun e => negb (isLogLine e)) tr.

(** The requests a trace sent, call by call. *)
Definition getRequestsOf (tr : list Event) : list BatchGetCommandInput :=
  omap (fun e => match e with EvBatchGet request _ => Some request | _ => None end)
    tr.
Definition putRequestsOf (tr : list Event) : list BatchWriteCommandInput :=
  omap (fun e => match e with EvBatchWrite request _ => Some request | _ => None end)
    tr.
Definition scanRequestsOf (tr : list Event) : list ScanCommandInput :=
  omap (fun e => match e with EvScan request _ => Some request | _ => None end) tr.

(** The number of rounds of a trace that reported a residual. *)
Definition residualRounds (table : string) (tr : list Event) : nat :=
  length (filter (fun e => bool_decide (reportsResidual table e = Some true)) tr).

(** Every round that reports a residual is followed at once by a wait,
    and a wait occurs nowhere else: [due] tells that the event before
    was such a round, which is owed its wait. *)
Fixpoint waitsInPlace (table : string) (due : bool) (tr : list Event) : bool :=
  match tr with
  | [] => negb due
  | EvWait _ :: tr' => due && waitsInPlace table false tr'
  | e :: tr' =>
      negb due &&
      waitsInPlace table
        (match reportsResidual table e with
         | Some residual => residual
         | None => false
         end) tr'
  end.

(** Two [configure] arguments combined field by field: the number of
    [later] where it has one, and what [earlier] has where it has none. *)
Definition mergeOptions (later earlier : Options) : Options :=
  {| optBackoffInitial :=
       match optBackoffInitial later with
       | Some x => Some x
       | None => optBackoffInitial earlier
       end;
     optBackoffMax :=
       match optBackoffMax later with
       | Some x => Some x
       | None => optBackoffMax earlier
       end;
     optBackoffFactor :=
       match optBackoffFactor later with
       | Some x => Some x
       | None => optBackoffFactor earlier
       end |}.

(** ** Further backends of particular behaviour *)

(** A backend that processes nothing: every answer to a get returns the
    keys it was asked for as unprocessed. *)
Definition alwaysThrottles (table : string) : Prop :=
  forall b request, exists b' output,
    sendBatchGet dynamodb b request = (b', inr output) /\
    wellFormedGet table output /\
    unprocessedOf table output = keysOf table request.

(** A backend that throttles for a while: [credit] bounds the answers
    with residual still to come, and a residual is never longer than the
    chunk it answers. *)
Definition throttlesFairly (table : string) (credit : Backend -> nat) : Prop :=
  forall b request, exists b' output,
    sendBatchGet dynamodb b request = (b', inr output) /\
    wellFormedGet table output /\
    ((unprocessedOf table output = [] /\ credit b' <= credit b) \/
     (length (unprocessedOf table output) <= length (keysOf table request) /\
      credit b' < credit b)).

(** A backend that writes everything it is given. *)
Definition acceptsEveryWrite (table : string) : Prop :=
  forall b request, exists b' output,
    sendBatchWrite dynamodb b request = (b', inr output) /\
    residualItems table (Some output) = [].

(** A backend whose every scan answer carries a cursor. *)
Definition alwaysMorePages : Prop :=
  forall b request, exists b' output c,
    sendScan dynamodb b request = (b', inr output) /\
    LastEvaluatedKey output = Some c.

(** A backend that writes nothing: every answer to a write returns the
    requests it was given as unprocessed. *)
Definition neverWrites (table : string) : Prop :=
  forall b request, exists b' output,
    sendBatchWrite dynamodb b request = (b', inr output) /\
    residualItems table (Some output) = writesOf table request.

End BatchHelper.

Arguments mkRun {_ A} final emitted outcome.
Arguments final {_ A} r.
Arguments emitted {_ A} r.
Arguments outcome {_ A} r.

(** ** The calls among caller code and other tasks

    The model above takes three things for granted.  The module variables
    stay as they are for the length of a call; [logCallback] returns; and
    the [.catch] handler of a write gets its line printed.  None of the
    three is in the hands of the code.  The loops read the module
    variables anew after every [await], and another task may have called
    [configure] in between; [logCallback] is a function of the caller,
    invoked without a [try]; and the handler calls [JSON.stringify] on
    the caller's items and converts the rejection to a string, either of
    which may throw.  [Live] models the same code without taking them for
    granted; [Live.tame] names the surroundings under which it is the
    model above. *)

Module Live.
Section Live.

Context `{Schema}.
Context (dynamodb : DynamoDBDocumentClient).

Notation "'let*' x ':=' c 'in' k" := (bind c (fun x => k))
  (at level 10, x name, c at level 100, k at level 200).
Notation "c ';;' k" := (bind c (fun _ => k))
  (at level 100, k at level 200, right associativity).

(** [logCallback], when supplied.  An invocation is given the log text;
    it may call [configure], and it returns or throws.  What it does may
    depend on the world at that moment, for which the backend state
    stands. *)
Definition Callback : Type :=
  Backend -> string -> Settings -> Settings * option JsError.

(** [JSON.stringify(it)] and [`${e}`] return a string or throw; a result
    of [JSON.stringify] that is no string makes [.slice] throw, which is
    the same to the handler.  [meanwhile b] is what the [configure] calls
    of other tasks make of the module variables while the call is
    suspended, the backend being in state [b] when it resumes. *)
Record Surroundings := mkSurroundings {
  JSON_stringify : WriteRequest -> JsError + string;
  reasonString : Reason -> JsError + string;
  meanwhile : Backend -> Settings -> Settings
}.

Context (env : Surroundings).

(** The module variables as the call finds them when it resumes from an
    [await]. *)
Definition resume (cfg : Settings) : Async Settings :=
  fun b => mkRun b [] (Returned (meanwhile env b cfg)).

(** [logCallback?.(log)] and [if (logCallback) logCallback(log)] *)
Definition callLog (logCallback : option Callback) (log : string)
    (cfg : Settings) : Async Settings :=
  match logCallback with
  | None => ret cfg
  | Some callback =>
      fun b =>
        mkRun b [EvLogCallback log]
          match (callback b log cfg).2 with
          | Some e => Threw e
          | None => Returned (callback b log cfg).1
          end
  end.

(** [failedItems.map((it) => JSON.stringify(it).slice(0, 20))]: the items
    are converted in order, and the first conversion that throws ends the
    [map]. *)
Fixpoint failedItemPreviews (failedItems : list WriteRequest)
  : JsError + list string :=
  match failedItems with
  | [] => inr []
  | it :: failedItems' =>
      match JSON_stringify env it with
      | inl e => inl e
      | inr s =>
          match failedItemPreviews failedItems' with
          | inl e => inl e
          | inr previews => inr (String.substring 0 20 s :: previews)
          end
      end
  end.

(** The line the [.catch] handler of a round builds, if building it does
    not throw. *)
Definition notWritingLine (failedItems : list WriteRequest) (e : Reason)
  : JsError + string :=
  match failedItemPreviews failedItems with
  | inl thrown => inl thrown
  | inr previews =>
      match reasonString env e with
      | inl thrown => inl thrown
      | inr text =>
          inr ("Not writing " +:+ String.concat LF previews +:+ LF
                 +:+ " > failed with " +:+ text)%string
      end
  end.

(** [await dynamodb.send(new BatchWriteCommand(request)).catch(...).then(...)]:
    a rejection is printed and turned into [undefined]; what the handler
    throws rejects the awaited promise. *)
Definition awaitBatchWriteCatch (table : string)
    (request : BatchWriteCommandInput) : Async (option BatchWriteCommandOutput) :=
  fun b =>
    let '(b', response) := sendBatchWrite dynamodb b request in
    match response with
    | inl e =>
        let failedItems :=
          match writeRequestItems request with
          | Some m => default [] (m !! table)
          | None => []
          end in
        match notWritingLine failedItems e with
        | inr line =>
            mkRun b' [EvBatchWrite request response; EvConsoleLog line]
              (Returned None)
        | inl thrown => mkRun b' [EvBatchWrite request response] (Threw thrown)
        end
    | inr output =>
        mkRun b' [EvBatchWrite request response] (Returned (Some output))
    end.

(** One turn of the [while (unprocessedItems.length)] body; it is given
    the module variables as they are when the turn begins and returns
    them as they are when it ends. *)
Definition putRound (table : string) (logCallback : option Callback)
    (cfg : Settings) (st : PutLoop) : Async (Settings * PutLoop) :=
  let n := Nat.min (length (unprocessedItems st)) batchWriteLimit in
  let chunk := take n (unprocessedItems st) in
  let rest := drop n (unprocessedItems st) in
  let request := putRequest table chunk in
  let* cfg := callLog logCallback (pretty (length rest)) cfg in
  let* response := awaitBatchWriteCatch table request in
  let* cfg := resume cfg in
  let residual := residualItems table response in
  match residual with
  | _ :: _ =>
      wait (putBackoff st);;
      let* cfg := resume cfg in
      ret (cfg,
           {| unprocessedItems := residual ++ rest;
              putBackoff :=
                Z.min (putBackoff st * backoffFactor cfg) (backoffMax cfg) |})
  | [] =>
      ret (cfg,
           {| unprocessedItems := rest;
              putBackoff := backoffInitial cfg |})
  end.

Fixpoint putLoop (rounds : nat) (table : string)
    (logCallback : option Callback) (cfg : Settings) (st : PutLoop)
  : Async (LoopExit (Settings * PutLoop)) :=
  match unprocessedItems st with
  | [] => ret (Exited (cfg, st))
  | _ :: _ =>
      match rounds with
      | O => ret (Running (cfg, st))
      | S rounds' =>
          let* next := putRound table logCallback cfg st in
          putLoop rounds' table logCallback next.1 next.2
      end
  end.

Definition batchWriteInput (rounds : nat) (cfg : Settings)
    (input : BatchWriteCommandInput) (logCallback : option Callback)
  : Async unit :=
  match writeRequestItems input with
  | None => throw TypeError
  | Some requestItems =>
      let requestItemsTables := objectKeys requestItems in
      if decide (length requestItemsTables ≠ 1)
      then throw (Error putSingleTableMessage)
      else
        match head requestItemsTables with
        | None => throw TypeError
        | Some requestItemsTable =>
            match requestItems !! requestItemsTable with
            | None => throw TypeError
            | Some writes =>
                let* exit :=
                  putLoop rounds requestItemsTable logCallback cfg
                    {| unprocessedItems := writes;
                       putBackoff := backoffInitial cfg |} in
                match exit with
                | Exited _ => ret tt
                | Running _ => unfinished
                end
            end
        end
  end.

(** [cfg]: the module variables when the call is made. *)
Definition batchPutAll (rounds : nat) (cfg : Settings) (table : string)
    (items : list Item) (logCallback : option Callback) : Async unit :=
  let* cfg := callLog logCallback "starting batch write" cfg in
  let input :=
    {| writeRequestItems := Some {[ table := map PutRequest items ]} |} in
  batchWriteInput rounds cfg input logCallback.

(** One turn of the [while (unprocessedKeys.length)] body. *)
Definition getRound (batchGetInput : BatchGetCommandInput) (table : string)
    (entry : KeysAndAttributes) (cfg : Settings) (st : GetLoop)
  : Async (Settings * GetLoop) :=
  let n := Nat.min (length (unprocessedKeys st)) batchGetLimit in
  let chunk := take n (unprocessedKeys st) in
  let rest := drop n (unprocessedKeys st) in
  let request := getRequest batchGetInput table entry chunk in
  let* response := awaitBatchGet dynamodb request in
  let* cfg := resume cfg in
  let* objs := responseObjects table response in
  let results' := results st ++ objs in
  let* residual := residualKeys table response in
  match residual with
  | _ :: _ =>
      wait (backoff st);;
      let* cfg := resume cfg in
      ret (cfg,
           {| unprocessedKeys := residual ++ rest;
              results := results';
              backoff := Z.min (backoff st * backoffFactor cfg) (backoffMax cfg) |})
  | [] =>
      ret (cfg,
           {| unprocessedKeys := rest;
              results := results';
              backoff := backoffInitial cfg |})
  end.

Fixpoint getLoop (rounds : nat) (batchGetInput : BatchGetCommandInput)
    (table : string) (entry : KeysAndAttributes) (cfg : Settings)
    (st : GetLoop) : Async (LoopExit (Settings * GetLoop)) :=
  match unprocessedKeys st with
  | [] => ret (Exited (cfg, st))
  | _ :: _ =>
      match rounds with
      | O => ret (Running (cfg, st))
      | S rounds' =>
          let* next := getRound batchGetInput table entry cfg st in
          getLoop rounds' batchGetInput table entry next.1 next.2
      end
  end.

Definition batchGetAll (rounds : nat) (cfg : Settings)
    (batchGetInput : BatchGetCommandInput) : Async (list Rec) :=
  match getRequestItems batchGetInput with
  | None => ret []
  | Some requestItems =>
      let requestItemsTables := objectKeys requestItems in
      if decide (length requestItemsTables ≠ 1)
      then throw (Error getSingleTableMessage)
      else
        match head requestItemsTables with
        | None => throw TypeError
        | Some requestItemsTable =>
            match requestItems !! requestItemsTable with
            | None => throw TypeError
            | Some entry =>
                match Keys entry with
                | None => throw TypeError
                | Some keys =>
                    let* exit :=
                      getLoop rounds batchGetInput requestItemsTable entry cfg
                        {| unprocessedKeys := keys;
                           results := [];
                           backoff := backoffInitial cfg |} in
                    match exit with
                    | Exited next => ret (results next.2)
                    | Running _ => unfinished
                    end
                end
            end
        end
  end.

(** *** The shapes of one round and of a loop run *)

(** What an invocation of the callback leaves of the module variables
    and what it throws, if anything; a callback that was not supplied
    does neither. *)
Definition configuredBy (logCallback : option Callback) (log : string)
    (cfg : Settings) (b : Backend) : Settings :=
  match logCallback with
  | Some callback => (callback b log cfg).1
  | None => cfg
  end.
Definition thrownBy (logCallback : option Callback) (log : string)
    (cfg : Settings) (b : Backend) : option JsError :=
  match logCallback with
  | Some callback => (callback b log cfg).2
  | None => None
  end.

(** The events of the progress callback in a round. *)
Definition progressEvents (logCallback : option Callback) (st : PutLoop)
  : list Event :=
  match logCallback with
  | Some _ => [EvLogCallback (pretty (length (putRest st)))]
  | None => []
  end.

(** The module variables when a put round resumes from its backend call
    in state [b'], having begun in state [b]. *)
Definition afterSend (logCallback : option Callback) (cfg : Settings)
    (st : PutLoop) (b b' : Backend) : Settings :=
  meanwhile env b'
    (configuredBy logCallback (pretty (length (putRest st))) cfg b).

Inductive PutRoundPath (table : string) (logCallback : option Callback)
    (cfg : Settings) (st : PutLoop) (b : Backend)
  : Run (Settings * PutLoop) -> Prop :=
  | PutCallbackThrew e :
      thrownBy logCallback (pretty (length (putRest st))) cfg b = Some e ->
      PutRoundPath table logCallback cfg st b
        (mkRun b (progressEvents logCallback st) (Threw e))
  | PutHandlerThrew b' reason e :
      thrownBy logCallback (pretty (length (putRest st))) cfg b = None ->
      sendBatchWrite dynamodb b (putRequest table (putChunk st))
        = (b', inl reason) ->
      notWritingLine (putChunk st) reason = inl e ->
      PutRoundPath table logCallback cfg st b
        (mkRun b'
           (progressEvents logCallback st ++
            [EvBatchWrite (putRequest table (putChunk st)) (inl reason)])
           (Threw e))
  | PutRejected b' reason line :
      thrownBy logCallback (pretty (length (putRest st))) cfg b = None ->
      sendBatchWrite dynamodb b (putRequest table (putChunk st))
        = (b', inl reason) ->
      notWritingLine (putChunk st) reason = inr line ->
      PutRoundPath table logCallback cfg st b
        (mkRun b'
           (progressEvents logCallback st ++
            [EvBatchWrite (putRequest table (putChunk st)) (inl reason);
             EvConsoleLog line])
           (Returned
              (afterSend logCallback cfg st b b',
               {| unprocessedItems := putRest st;
                  putBackoff :=
                    backoffInitial (afterSend logCallback cfg st b b') |})))
  | PutClean b' output :
      thrownBy logCallback (pretty (length (putRest st))) cfg b = None ->
      sendBatchWrite dynamodb b (putRequest table (putChunk st))
        = (b', inr output) ->
      residualItems table (Some output) = [] ->
      PutRoundPath table logCallback cfg st b
        (mkRun b'
           (progressEvents logCallback st ++
            [EvBatchWrite (putRequest table (putChunk st)) (inr output)])
           (Returned
              (afterSend logCallback cfg st b b',
               {| unprocessedItems := putRest st;
                  putBackoff :=
                    backoffInitial (afterSend logCallback cfg st b b') |})))
  | PutResidual b' output :
      thrownBy logCallback (pretty (length (putRest st))) cfg b = None ->
      sendBatchWrite dynamodb b (putRequest table (putChunk st))
        = (b', inr output) ->
      residualItems table (Some output) <> [] ->
      PutRoundPath table logCallback cfg st b
        (mkRun b'
           (progressEvents logCallback st ++
            [EvBatchWrite (putRequest table (putChunk st)) (inr output);
             EvWait (putBackoff st)])
           (Returned
              (meanwhile env b' (afterSend logCallback cfg st b b'),
               {| unprocessedItems :=
                    residualItems table (Some output) ++ putRest st;
                  putBackoff :=
                    Z.min
                      (putBackoff st *
                       backoffFactor
                         (meanwhile env b' (afterSend logCallback cfg st b b')))
                      (backoffMax
                         (meanwhile env b'
                            (afterSend logCallback cfg st b b'))) |}))).

Inductive GetRoundPath (batchGetInput : BatchGetCommandInput) (table : string)
    (entry : KeysAndAttributes) (cfg : Settings) (st : GetLoop) (b : Backend)
  : Run (Settings * GetLoop) -> Prop :=
  | GetRejected b' reason :
      sendBatchGet dynamodb b (getRequest batchGetInput table entry (getChunk st))
        = (b', inl reason) ->
      GetRoundPath batchGetInput table entry cfg st b
        (mkRun b'
           [EvBatchGet (getRequest batchGetInput table entry (getChunk st))
              (inl reason)]
           (Threw (Rejected reason)))
  | GetMalformed b' output :
      sendBatchGet dynamodb b (getRequest batchGetInput table entry (getChunk st))
        = (b', inr output) ->
      ~ wellFormedGet table output ->
      GetRoundPath batchGetInput table entry cfg st b
        (mkRun b'
           [EvBatchGet (getRequest batchGetInput table entry (getChunk st))
              (inr output)]
           (Threw TypeError))
  | GetClean b' output :
      sendBatchGet dynamodb b (getRequest batchGetInput table entry (getChunk st))
        = (b', inr output) ->
      wellFormedGet table output ->
      unprocessedOf table output = [] ->
      GetRoundPath batchGetInput table entry cfg st b
        (mkRun b'
           [EvBatchGet (getRequest batchGetInput table entry (getChunk st))
              (inr output)]
           (Returned
              (meanwhile env b' cfg,
               {| unprocessedKeys := getRest st;
                  results := results st ++ recordsOf table output;
                  backoff := backoffInitial (meanwhile env b' cfg) |})))
  | GetResidual b' output :
      sendBatchGet dynamodb b (getRequest batchGetInput table entry (getChunk st))
        = (b', inr output) ->
      wellFormedGet table output ->
      unprocessedOf table output <> [] ->
      GetRoundPath batchGetInput table entry cfg st b
        (mkRun b'
           [EvBatchGet (getRequest batchGetInput table entry (getChunk st))
              (inr output);
            EvWait (backoff st)]
           (Returned
              (meanwhile env b' (meanwhile env b' cfg),
               {| unprocessedKeys := unprocessedOf table output ++ getRest st;
                  results := results st ++ recordsOf table output;
                  backoff :=
                    Z.min
                      (backoff st *
                       backoffFactor (meanwhile env b' (meanwhile env b' cfg)))
                      (backoffMax (meanwhile env b' (meanwhile env b' cfg))) |}))).

Inductive PutLoopRun (table : string) (logCallback : option Callback)
  : Settings -> PutLoop -> Backend ->
    Run (LoopExit (Settings * PutLoop)) -> Prop :=
  | PutExited cfg st b :
      unprocessedItems st = [] ->
      PutLoopRun table logCallback cfg st b
        (mkRun b [] (Returned (Exited (cfg, st))))
  | PutPaused cfg st b :
      unprocessedItems st <> [] ->
      PutLoopRun table logCallback cfg st b
        (mkRun b [] (Returned (Running (cfg, st))))
  | PutAborted cfg st b b' evs e :
      unprocessedItems st <> [] ->
      PutRoundPath table logCallback cfg st b (mkRun b' evs (Threw e)) ->
      PutLoopRun table logCallback cfg st b (mkRun b' evs (Threw e))
  | PutContinued cfg st b b' evs cfg' st' r :
      unprocessedItems st <> [] ->
      PutRoundPath table logCallback cfg st b
        (mkRun b' evs (Returned (cfg', st'))) ->
      PutLoopRun table logCallback cfg' st' b' r ->
      PutLoopRun table logCallback cfg st b
        (mkRun (final r) (evs ++ emitted r) (outcome r)).

Inductive GetLoopRun (batchGetInput : BatchGetCommandInput) (table : string)
    (entry : KeysAndAttributes)
  : Settings -> GetLoop -> Backend ->
    Run (LoopExit (Settings * GetLoop)) -> Prop :=
  | GetExited cfg st b :
      unprocessedKeys st = [] ->
      GetLoopRun batchGetInput table entry cfg st b
        (mkRun b [] (Returned (Exited (cfg, st))))
  | GetPaused cfg st b :
      unprocessedKeys st <> [] ->
      GetLoopRun batchGetInput table entry cfg st b
        (mkRun b [] (Returned (Running (cfg, st))))
  | GetAborted cfg st b b' evs e :
      unprocessedKeys st <> [] ->
      GetRoundPath batchGetInput table entry cfg st b (mkRun b' evs (Threw e)) ->
      GetLoopRun batchGetInput table entry cfg st b (mkRun b' evs (Threw e))
  | GetContinued cfg st b b' evs cfg' st' r :
      unprocessedKeys st <> [] ->
      GetRoundPath batchGetInput table entry cfg st b
        (mkRun b' evs (Returned (cfg', st'))) ->
      GetLoopRun batchGetInput table entry cfg' st' b' r ->
      GetLoopRun batchGetInput table entry cfg st b
        (mkRun (final r) (evs ++ emitted r) (outcome r)).

(** *** Surroundings of particular behaviour *)

(** The handler of a rejected write gets its line printed: neither
    [JSON.stringify] nor the conversion of the rejection throws. *)
Definition printable : Prop :=
  (forall w, exists s, JSON_stringify env w = inr s) /\
  (forall e, exists s, reasonString env e = inr s).

(** The callback, if supplied, returns from every invocation. *)
Definition returns (logCallback : option Callback) : Prop :=
  forall b log cfg, thrownBy logCallback log cfg b = None.

(** Nobody calls [configure] while the call runs: not another task, and
    not the callback. *)
Definition undisturbed (logCallback : option Callback) : Prop :=
  (forall b cfg, meanwhile env b cfg = cfg) /\
  (forall b log cfg, configuredBy logCallback log cfg b = cfg).

End Live.
End Live.

Arguments Live.mkSurroundings {_} _ _ _.

(** Surroundings under which [Live] is the model with fixed settings:
    the handler's conversions are those of [Stringify], the callback
    returns, and nobody calls [configure]. *)
Definition tame `{Schema} `{!Stringify} (env : Live.Surroundings)
    (logCallback : option Live.Callback) : Prop :=
  (forall w, Live.JSON_stringify env w = inr (JSON_stringify w)) /\
  (forall e, Live.reasonString env e = inr (reasonString e)) /\
  Live.returns logCallback /\
  Live.undisturbed env logCallback.

(** The loop exit and the run of the model with fixed settings, as the
    live model reports them. *)
Definition underSettings {S} (cfg : Settings) (x : LoopExit S)
  : LoopExit (Settings * S) :=
  match x with
  | Exited s => Exited (cfg, s)
  | Running s => Running (cfg, s)
  end.
Definition runUnderSettings `{Schema} {S} (cfg : Settings)
    (r : Run (LoopExit S)) : Run (LoopExit (Settings * S)) :=
  mkRun (final r) (emitted r)
    match outcome r with
    | Returned x => Returned (underSettings cfg x)
    | Threw e => Threw e
    | Unfinished => Unfinished
    end.

(** Whether the callback was supplied. *)
Definition supplied `{Schema} (logCallback : option Live.Callback) : bool :=
  match logCallback with Some _ => true | None => false end.

(** ** Scenarios

    Concrete clients on which the statements below are exercised.  Keys,
    records, items and cursors are numbers, pass-through options are
    trivial, the backend state counts the calls received so far, and a
    rejection carries a message. *)

Module Scenario.

#[export] Instance numbers : Schema := {|
  Key := nat; Rec := nat; Item := nat; Cursor := nat;
  GetOptions := unit; TableOptions := unit; ScanOptions := unit;
  Backend := nat; Reason := string
|}.

#[export] Instance printer : Stringify := {|
  JSON_stringify w :=
    match w with
    | PutRequest item => "{PutRequest:{Item:" +:+ pretty (item : nat) +:+ "}}"
    | DeleteRequest key => "{DeleteRequest:{Key:" +:+ pretty (key : nat) +:+ "}}"
    end;
  reasonString e := e
|}.

Definition entryOf (keys : list nat) : KeysAndAttributes :=
  {| Keys := Some keys; tableOptions := tt |}.

Definition getInput (tables : list (string * list nat)) : BatchGetCommandInput :=
  {| getRequestItems := Some (list_to_map (prod_map id entryOf <$> tables));
     getOptions := tt |}.

(** A store that holds every key as its own record.  It answers call
    number [i] leaving the last key of the chunk unprocessed when the
    [i]-th entry of [pattern] is [true], and in full otherwise. *)
Definition throttlingGet (pattern : list bool) (calls : nat)
    (request : BatchGetCommandInput) : nat * (string + BatchGetCommandOutput) :=
  let keys := keysOf "t" request in
  if nth calls pattern false
  then
    (S calls,
     inr {| Responses := Some {[ "t"%string := removelast keys ]};
            UnprocessedKeys :=
              Some {[ "t"%string := entryOf (drop (length keys - 1) keys) ]} |})
  else
    (S calls,
     inr {| Responses := Some {[ "t"%string := keys ]};
            UnprocessedKeys := None |}).

(** A store that answers [healthy] calls and rejects from then on. *)
Definition failingGet (healthy : nat) (calls : nat)
    (request : BatchGetCommandInput) : nat * (string + BatchGetCommandOutput) :=
  if decide (calls < healthy)
  then throttlingGet [] calls request
  else (S calls, inl "ProvisionedThroughputExceededException"%string).

(** A store that answers call number [i] returning the whole chunk as
    unprocessed when the [i]-th entry of [pattern] is [true]. *)
Definition throttlingWrite (pattern : list bool) (calls : nat)
    (request : BatchWriteCommandInput)
  : nat * (string + BatchWriteCommandOutput) :=
  (S calls,
   inr {| UnprocessedItems :=
            if nth calls pattern false
            then Some {[ "t"%string := writesOf "t" request ]}
            else None |}).

(** A store that rejects every write. *)
Definition rejectingWrite (calls : nat) (request : BatchWriteCommandInput)
  : nat * (string + BatchWriteCommandOutput) :=
  (S calls, inl "RequestTimeout"%string).

(** A table of 25 records scanned in pages of 10, 10 and 5: the first two
    answers carry the cursors 1 and 2, the third carries none. *)
Definition pagedScan (calls : nat) (request : ScanCommandInput)
  : nat * (string + ScanCommandOutput) :=
  let start := default 0 (ExclusiveStartKey request) in
  (S calls,
   inr {| Items := Some (seq (10 * start) (if decide (start < 2) then 10 else 5));
          LastEvaluatedKey :=
            if decide (start < 2) then Some (S start) else None |}).

(** A scan that rejects every call after its first [healthy] ones. *)
Definition failingScan (healthy : nat) (calls : nat) (request : ScanCommandInput)
  : nat * (string + ScanCommandOutput) :=
  if decide (calls < healthy) then pagedScan calls request
  else (S calls, inl "InternalServerError"%string).

(** A client that throttles its get and write calls after [pattern]. *)
Definition throttling (pattern : list bool) : DynamoDBDocumentClient :=
  {| sendBatchGet := throttlingGet pattern;
     sendBatchWrite := throttlingWrite pattern;
     sendScan := pagedScan |}.

(** A client that rejects writes at once, and gets and scans after
    [healthy] calls. *)
Definition failing (healthy : nat) : DynamoDBDocumentClient :=
  {| sendBatchGet := failingGet healthy;
     sendBatchWrite := rejectingWrite;
     sendScan := failingScan healthy |}.

Definition scanTable : ScanCommandInput :=
  {| TableName := Some "t"%string; ExclusiveStartKey := None; scanOptions := tt |}.

(** A store that processes nothing: every key asked for comes back
    unprocessed. *)
Definition stuckGet (calls : nat) (request : BatchGetCommandInput)
  : nat * (string + BatchGetCommandOutput) :=
  (S calls,
   inr {| Responses := Some {[ "t"%string := [] ]};
          UnprocessedKeys :=
            Some {[ "t"%string := entryOf (keysOf "t" request) ]} |}).

(** A store whose answers to a get carry no [Responses] at all. *)
Definition bareGet (calls : nat) (request : BatchGetCommandInput)
  : nat * (string + BatchGetCommandOutput) :=
  (S calls, inr {| Responses := None; UnprocessedKeys := None |}).

(** A scan whose every page holds one record and a cursor. *)
Definition endlessScan (calls : nat) (request : ScanCommandInput)
  : nat * (string + ScanCommandOutput) :=
  (S calls, inr {| Items := Some [calls]; LastEvaluatedKey := Some (S calls) |}).

(** A store that writes nothing: every request comes back unprocessed. *)
Definition stuckWrite (calls : nat) (request : BatchWriteCommandInput)
  : nat * (string + BatchWriteCommandOutput) :=
  (S calls,
   inr {| UnprocessedItems := Some {[ "t"%string := writesOf "t" request ]} |}).

(** A table entry without [Keys]. *)
Definition noKeys : KeysAndAttributes := {| Keys := None; tableOptions := tt |}.

(** A client that never gets anywhere. *)
Definition stuck : DynamoDBDocumentClient :=
  {| sendBatchGet := stuckGet;
     sendBatchWrite := stuckWrite;
     sendScan := endlessScan |}.

(** A client whose get answers are malformed. *)
Definition bare : DynamoDBDocumentClient :=
  {| sendBatchGet := bareGet;
     sendBatchWrite := throttlingWrite [];
     sendScan := pagedScan |}.

(** Surroundings in which nothing throws and nobody calls [configure]. *)
Definition calm : Live.Surroundings :=
  {| Live.JSON_stringify w := inr (JSON_stringify w);
     Live.reasonString e := inr (reasonString e);
     Live.meanwhile _ cfg := cfg |}.

(** Item 0 stands for an object that holds a [BigInt], on which
    [JSON.stringify] throws a [TypeError]. *)
Definition bigint : Live.Surroundings :=
  {| Live.JSON_stringify w :=
       match w with
       | PutRequest 0 => inl TypeError
       | _ => inr (JSON_stringify w)
       end;
     Live.reasonString e := inr (reasonString e);
     Live.meanwhile _ cfg := cfg |}.

(** Another task calls [configure({ backoffInitial: 5000 })] while the
    first backend call is awaited. *)
Definition reconfiguring : Live.Surroundings :=
  {| Live.JSON_stringify w := inr (JSON_stringify w);
     Live.reasonString e := inr (reasonString e);
     Live.meanwhile b cfg :=
       if decide (b = 1)
       then configure {| optBackoffInitial := Some 5000%Z;
                         optBackoffMax := None;
                         optBackoffFactor := None |} cfg
       else cfg |}.

(** A callback that returns, one that throws as soon as it is invoked,
    and one that throws when it is told that the queue is empty. *)
Definition watching : Live.Callback := fun _ _ cfg => (cfg, None).
Definition refusing : Live.Callback :=
  fun _ _ cfg => (cfg, Some (Error "not now")).
Definition tiring : Live.Callback :=
  fun _ log cfg =>
    (cfg, if decide (log = "0"%string) then Some (Error "enough") else None).

End Scenario.

(** * Properties *)

Section Properties.

Context `{Schema} `{!Stringify}.
Context (dynamodb : DynamoDBDocumentClient).


Lemma getRound_cases cfg batchGetInput table entry st b :
  GetRoundPath dynamodb cfg batchGetInput table entry st b
    (getRound dynamodb cfg batchGetInput table entry st b).
Proof.
  unfold getRound, bind, awaitBatchGet.
  fold (getChunk st). fold (getRest st).
  destruct (sendBatchGet dynamodb b _) as [b' [reason|output]] eqn:Hsend; simpl.
  - by apply GetRejected.
  - unfold responseObjects, residualKeys, recordsOf.
    pose proof (GetMalformed dynamodb cfg batchGetInput table entry st b b'
                  output Hsend) as Hbad.
    pose proof (GetClean dynamodb cfg batchGetInput table entry st b b'
                  output Hsend) as Hclean.
    pose proof (GetResidual dynamodb cfg batchGetInput table entry st b b'
                  output Hsend) as Hres.
    unfold wellFormedGet, unprocessedOf, recordsOf in Hbad, Hclean, Hres.
    destruct (Responses output) as [m|]; simpl in *;
      [|apply Hbad; by intros [[? [=]] _]].
    destruct (m !! table) as [objs|]; simpl;
      [|apply Hbad; by intros [[? [=]] _]].
    destruct (UnprocessedKeys output) as [u|]; simpl; [|by apply Hclean].
    destruct (u !! table) as [ka|] eqn:Hka; simpl;
      [|apply Hclean; [split; [by eauto|]|done]; by intros ? ? [= <-] ?; simplify_eq].
    destruct (Keys ka) as [[|k ks]|] eqn:Hks; simpl.
    + apply Hclean; [|done]. split; [by eauto|].
      intros ? ? [= <-] ?; simplify_eq. by rewrite Hks.
    + apply Hres; [|done]. split; [by eauto|].
      intros ? ? [= <-] ?; simplify_eq. by rewrite Hks.
    + apply Hbad. intros [_ Hwf].
      destruct (Hwf u ka eq_refl Hka) as [? ?]. congruence.
Qed.

Lemma putRound_cases cfg table logCallback st b :
  PutRoundPath dynamodb cfg table logCallback st b (putRound dynamodb cfg table logCallback st b).
Proof.
  unfold putRound, bind, callLog, awaitBatchWriteCatch.
  fold (putChunk st). fold (putRest st).
  assert (Hcb : forall r : Run unit,
    r = (if logCallback
         then emit (EvLogCallback (pretty (length (putRest st))))
         else ret tt) b ->
    final r = b /\ emitted r = progressEvents logCallback st /\
    outcome r = Returned tt).
  { intros r ->. unfold progressEvents. by destruct logCallback. }
  destruct (Hcb _ eq_refl) as (-> & -> & ->); simpl.
  destruct (sendBatchWrite dynamodb b _) as [b' [reason|output]] eqn:Hsend;
    cbn [final emitted outcome].
  - simpl. rewrite lookup_singleton_eq; simpl. by apply PutRejected.
  - pose proof (PutClean dynamodb cfg table logCallback st b b' output Hsend) as Hclean.
    pose proof (PutResidual dynamodb cfg table logCallback st b b' output Hsend) as Hres.
    destruct (residualItems table (Some output)) as [|w ws]; simpl.
    + by apply Hclean.
    + by apply Hres.
Qed.

Lemma scanRound_cases st b : ScanRoundPath dynamodb st b (scanRound dynamodb st b).
Proof.
  unfold scanRound, bind, awaitScan. fold (scanRequest st).
  destruct (sendScan dynamodb b _) as [b' [reason|output]] eqn:Hsend; simpl.
  - by apply ScanRejected.
  - by apply ScanAnswered.
Qed.


(** ** Loops as sequences of rounds *)

Lemma getLoop_run rounds cfg batchGetInput table entry st b :
  GetLoopRun dynamodb cfg batchGetInput table entry st b
    (getLoop dynamodb rounds cfg batchGetInput table entry st b).
Proof.
  revert st b. induction rounds as [|rounds IH]; intros st b.
  - simpl. destruct (unprocessedKeys st) eqn:Hq.
    + by apply GetExited.
    + apply GetPaused. by rewrite Hq.
  - simpl. destruct (unprocessedKeys st) eqn:Hq; [by apply GetExited|].
    assert (Hne : unprocessedKeys st <> []) by by rewrite Hq.
    pose proof (getRound_cases cfg batchGetInput table entry st b) as Hpath.
    unfold bind.
    destruct (getRound dynamodb cfg batchGetInput table entry st b)
      as [b' evs [st'|e|]]; simpl.
    + by apply (GetContinued dynamodb _ _ _ _ st b b' evs st').
    + by apply GetAborted.
    + inversion Hpath.
Qed.

Lemma putLoop_run rounds cfg table logCallback st b :
  PutLoopRun dynamodb cfg table logCallback st b (putLoop dynamodb rounds cfg table logCallback st b).
Proof.
  revert st b. induction rounds as [|rounds IH]; intros st b.
  - simpl. destruct (unprocessedItems st) eqn:Hq.
    + by apply PutExited.
    + apply PutPaused. by rewrite Hq.
  - simpl. destruct (unprocessedItems st) eqn:Hq; [by apply PutExited|].
    assert (Hne : unprocessedItems st <> []) by by rewrite Hq.
    pose proof (putRound_cases cfg table logCallback st b) as Hpath.
    unfold bind.
    destruct (putRound dynamodb cfg table logCallback st b) as [b' evs [st'|e|]]; simpl.
    + by apply (PutContinued dynamodb _ _ _ st b b' evs st').
    + inversion Hpath.
    + inversion Hpath.
Qed.

Lemma scanLoop_run rounds st b : ScanLoopRun dynamodb st b (scanLoop dynamodb rounds st b).
Proof.
  revert st b. induction rounds as [|rounds IH]; intros st b.
  - apply ScanPaused.
  - simpl. pose proof (scanRound_cases st b) as Hpath. unfold bind.
    destruct (scanRound dynamodb st b) as [b' evs [st'|e|]]; simpl.
    + destruct (lastEvalKey st') as [c|] eqn:Hc; simpl.
      * apply (ScanContinued dynamodb st b b' evs st'); [done| |done]. by rewrite Hc.
      * rewrite app_nil_r. by apply ScanExited.
    + by apply ScanAborted.
    + inversion Hpath.
Qed.


(** ** The single-table check *)

Lemma objectKeys_length {V} (m : gmap string V) : length (objectKeys m) = size m.
Proof. unfold objectKeys. by rewrite length_fmap, length_map_to_list. Qed.

Lemma getLoop_throws cfg batchGetInput table entry st b r e :
  GetLoopRun dynamodb cfg batchGetInput table entry st b r ->
  outcome r = Threw e ->
  e = TypeError \/ exists reason, e = Rejected reason.
Proof.
  induction 1 as [st b Hq|st b Hq|st b b' evs e' Hne Hpath
                  |st b b' evs st' r Hne Hpath Hrun IH];
    simpl; intros Heq; [done|done| |by apply IH].
  inversion Heq; subst. inversion Hpath; subst; eauto.
Qed.

Lemma putLoop_returns cfg table logCallback st b r :
  PutLoopRun dynamodb cfg table logCallback st b r -> exists x, outcome r = Returned x.
Proof. induction 1; simpl; eauto. Qed.

Lemma batchWriteInput_multi rounds cfg items logCallback b :
  size items <> 1 ->
  batchWriteInput dynamodb rounds cfg {| writeRequestItems := Some items |} logCallback b
    = mkRun b [] (Threw (Error putSingleTableMessage)).
Proof.
  intros Hsize. unfold batchWriteInput; simpl.
  rewrite objectKeys_length. by rewrite decide_True.
Qed.

Lemma batchGetAll_multi rounds cfg items opts b :
  size items <> 1 ->
  batchGetAll dynamodb rounds cfg {| getRequestItems := Some items; getOptions := opts |} b
    = mkRun b [] (Threw (Error getSingleTableMessage)).
Proof.
  intros Hsize. unfold batchGetAll; simpl.
  rewrite objectKeys_length. by rewrite decide_True.
Qed.

Lemma batchGetAll_no_Error_through_loop rounds cfg items opts b :
  size items = 1 ->
  outcome (batchGetAll dynamodb rounds cfg
             {| getRequestItems := Some items; getOptions := opts |} b)
    <> Threw (Error getSingleTableMessage).
Proof.
  intros Hsize. unfold batchGetAll; simpl.
  rewrite objectKeys_length, decide_False by lia.
  destruct (head (objectKeys items)) as [t|]; [|done].
  destruct (items !! t) as [entry|]; [|done].
  destruct (Keys entry) as [keys|]; [|done].
  unfold bind.
  match goal with |- context [getLoop dynamodb ?n ?c ?i ?t ?e ?s ?b] =>
    pose proof (getLoop_run n c i t e s b) as Hrun;
    destruct (getLoop dynamodb n c i t e s b) as [b' evs [[st|st]|e'|]] eqn:Hloop
  end; simpl; try done.
  intros Heq; inversion Heq; subst.
  destruct (getLoop_throws _ _ _ _ _ _ _ _ Hrun eq_refl) as [?|[? ?]]; done.
Qed.

Lemma batchGetAll_single rounds cfg table entry keys opts b :
  Keys entry = Some keys ->
  batchGetAll dynamodb rounds cfg (singleTableGet table entry opts) b
  = getAnswer (getLoop dynamodb rounds cfg (singleTableGet table entry opts)
                 table entry (getStart cfg keys) b).
Proof.
  intros Hkeys. unfold batchGetAll, singleTableGet; simpl.
  assert (Hk : objectKeys ({[table := entry]} : gmap string KeysAndAttributes)
               = [table]).
  { unfold objectKeys. by rewrite map_to_list_singleton. }
  rewrite Hk; simpl. rewrite lookup_singleton_eq, Hkeys.
  unfold bind, getAnswer. fold (getStart cfg keys).
  destruct (getLoop _ _ _ _ _ _ _ _) as [b' evs [[st|st]|e|]]; simpl;
    by rewrite ?app_nil_r.
Qed.

Lemma batchGetAll_no_keys rounds cfg table entry opts b :
  Keys entry = None ->
  batchGetAll dynamodb rounds cfg (singleTableGet table entry opts) b
  = mkRun b [] (Threw TypeError).
Proof.
  intros Hkeys. unfold batchGetAll, singleTableGet; simpl.
  assert (Hk : objectKeys ({[table := entry]} : gmap string KeysAndAttributes)
               = [table]).
  { unfold objectKeys. by rewrite map_to_list_singleton. }
  rewrite Hk; simpl. by rewrite lookup_singleton_eq, Hkeys.
Qed.

Lemma batchPutAll_single rounds cfg table items logCallback b :
  batchPutAll dynamodb rounds cfg table items logCallback b
  = putAnswer logCallback
      (putLoop dynamodb rounds cfg table logCallback (putStart cfg items) b).
Proof.
  unfold batchPutAll, batchWriteInput, bind at 1; simpl.
  assert (Hk : objectKeys ({[table := map PutRequest items]}
                 : gmap string (list WriteRequest)) = [table]).
  { unfold objectKeys. by rewrite map_to_list_singleton. }
  rewrite Hk; simpl. rewrite lookup_singleton_eq.
  fold (putStart cfg items). unfold putAnswer.
  destruct logCallback; simpl; unfold bind; simpl;
    destruct (putLoop _ _ _ _ _ _ _) as [b' evs [[st|st]|e|]]; simpl;
    by rewrite ?app_nil_r.
Qed.

(** C10: when [RequestItems] is an object without any table name,
    [batchGetAll] throws the single-table error and calls the backend not
    once; the check rejects every map whose number of table names is not
    one and lets a map with exactly one table through; an absent
    [RequestItems] returns the empty list instead. *)
Theorem batchGetAll_exactly_one_table rounds cfg opts b :
  batchGetAll dynamodb rounds cfg {| getRequestItems := Some ∅; getOptions := opts |} b
    = mkRun b [] (Threw (Error getSingleTableMessage)) /\
  (forall items : gmap string KeysAndAttributes, size items <> 1 ->
     batchGetAll dynamodb rounds cfg
       {| getRequestItems := Some items; getOptions := opts |} b
     = mkRun b [] (Threw (Error getSingleTableMessage))) /\
  (forall items : gmap string KeysAndAttributes, size items = 1 ->
     outcome (batchGetAll dynamodb rounds cfg
                {| getRequestItems := Some items; getOptions := opts |} b)
     <> Threw (Error getSingleTableMessage)) /\
  batchGetAll dynamodb rounds cfg {| getRequestItems := None; getOptions := opts |} b
    = mkRun b [] (Returned []).
Proof.
  split; [|split; [|split]].
  - apply batchGetAll_multi. by rewrite map_size_empty.
  - intros items Hsize. by apply batchGetAll_multi.
  - intros items Hsize. by apply batchGetAll_no_Error_through_loop.
  - reflexivity.
Qed.



(** ** The backoff policy *)

Lemma scheduledWait_next k :
  Z.min (scheduledWait k * 2) 30000 = scheduledWait (S k).
Proof.
  unfold scheduledWait.
  do 5 (destruct k as [|k]; [reflexivity|]). simpl. by destruct k.
Qed.

Lemma getLoop_throw_emits cfg batchGetInput table entry st b r e :
  GetLoopRun dynamodb cfg batchGetInput table entry st b r ->
  outcome r = Threw e -> emitted r <> [].
Proof.
  induction 1 as [st b Hq|st b Hq|st b b' evs e' Hne Hpath
                  |st b b' evs st' r Hne Hpath Hrun IH];
    simpl; intros Heq; try done.
  - inversion Hpath; subst; done.
  - specialize (IH Heq). by destruct evs, (emitted r).
Qed.

Lemma completedRounds_app {A} (r : Run A) b' (evs : list Event) :
  (forall e, outcome r = Threw e -> emitted r <> []) ->
  completedRounds (mkRun b' (evs ++ emitted r) (outcome r) : Run A)
  = evs ++ completedRounds r.
Proof.
  unfold completedRounds; simpl. intros Hne.
  destruct (outcome r) as [a|e|]; try done.
  rewrite removelast_app; eauto.
Qed.

Lemma getLoop_followsSchedule batchGetInput table entry st b r :
  GetLoopRun dynamodb defaultSettings batchGetInput table entry st b r ->
  forall k, backoff st = scheduledWait k ->
  followsSchedule table k None (completedRounds r) = true.
Proof.
  induction 1 as [st b Hq|st b Hq|st b b' evs e' Hne Hpath
                  |st b b' evs st' r Hne Hpath Hrun IH];
    intros k Hk.
  - done.
  - done.
  - inversion Hpath; subst; done.
  - rewrite completedRounds_app
      by (intros e; by apply (getLoop_throw_emits _ _ _ _ _ _ _ _ Hrun)).
    inversion Hpath as [| |b1 output Hsend Hwf Hres|b1 output Hsend Hwf Hres]; subst.
    + simpl. rewrite Hres. by apply IH.
    + simpl. destruct (unprocessedOf table output) eqn:Hu; [done|].
      rewrite Hk, bool_decide_true by done. simpl.
      apply IH. simpl. rewrite Hk. apply scheduledWait_next.
Qed.

Lemma putLoop_followsSchedule table logCallback st b r :
  PutLoopRun dynamodb defaultSettings table logCallback st b r ->
  forall k, putBackoff st = scheduledWait k ->
  followsSchedule table k None (emitted r) = true.
Proof.
  induction 1 as [st b Hq|st b Hq|st b b' evs st' r Hne Hpath Hrun IH];
    intros k Hk; [done|done|].
  assert (Hskip : forall tr,
    followsSchedule table k None (progressEvents logCallback st ++ tr)
    = followsSchedule table k None tr).
  { intros tr. unfold progressEvents. by destruct logCallback. }
  inversion Hpath as [b1 reason Hsend|b1 output Hsend Hres|b1 output Hsend Hres];
    subst; cbn [emitted]; rewrite <- app_assoc, Hskip.
  - simpl. by apply IH.
  - cbn [app followsSchedule reportsResidual residualWritesOf].
    rewrite Hres. simpl. by apply IH.
  - cbn [app followsSchedule reportsResidual residualWritesOf].
    destruct (residualItems table (Some output)) eqn:Hu; [done|].
    rewrite Hk, !bool_decide_true by done. simpl.
    apply IH. simpl. rewrite Hk. apply scheduledWait_next.
Qed.

(** C1: with the settings [initial = 1000], [max = 30000], [factor = 2],
    the waits of a get call and of a put call follow the schedule: a round
    that reports a non-empty residual is followed by one wait, of 1000,
    2000, 4000, 8000, 16000 ms for the first five consecutive such rounds
    and of 30000 ms for the sixth and every later one; a round that
    reports none is followed by no wait and the next wait is 1000 again. *)
Theorem backoff_wait_sequence rounds table entry opts items logCallback b :
  followsSchedule table 0 None
    (completedRounds
       (batchGetAll dynamodb rounds defaultSettings
          (singleTableGet table entry opts) b)) = true /\
  followsSchedule table 0 None
    (emitted (batchPutAll dynamodb rounds defaultSettings table items
                logCallback b)) = true.
Proof.
  split.
  - destruct (Keys entry) as [keys|] eqn:Hkeys.
    + rewrite (batchGetAll_single _ _ _ _ keys) by done.
      pose proof (getLoop_followsSchedule _ _ _ _ _ _
        (getLoop_run rounds defaultSettings (singleTableGet table entry opts)
           table entry (getStart defaultSettings keys) b) 0 eq_refl) as Hloop.
      unfold completedRounds, getAnswer in *; simpl.
      by destruct (outcome (getLoop _ _ _ _ _ _ _ _)) as [[?|?]|?|].
    + by rewrite batchGetAll_no_keys.
  - rewrite batchPutAll_single.
    pose proof (putLoop_followsSchedule _ _ _ _ _
      (putLoop_run rounds defaultSettings table logCallback
         (putStart defaultSettings items) b) 0 eq_refl) as Hloop.
    unfold putAnswer; simpl. by destruct logCallback.
Qed.


Lemma backoff_next_in_range cfg x :
  saneSettings cfg -> backoffInRange cfg x ->
  backoffInRange cfg (Z.min (x * backoffFactor cfg) (backoffMax cfg)) /\
  backoffInRange cfg (backoffInitial cfg).
Proof. unfold saneSettings, backoffInRange. intros [? ?] [? ?]. split; nia. Qed.



(** ** Chunk accounting *)

Lemma keysOf_getRequest batchGetInput table entry chunk :
  keysOf table (getRequest batchGetInput table entry chunk) = chunk.
Proof. unfold keysOf, getRequest; simpl. by rewrite lookup_singleton_eq. Qed.

Lemma writesOf_putRequest table chunk :
  writesOf table (putRequest table chunk) = chunk.
Proof. unfold writesOf, putRequest; simpl. by rewrite lookup_singleton_eq. Qed.

Lemma getChunk_getRest st : getChunk st ++ getRest st = unprocessedKeys st.
Proof. apply take_drop. Qed.

Lemma putChunk_putRest st : putChunk st ++ putRest st = unprocessedItems st.
Proof. apply take_drop. Qed.

Lemma getChunk_length st :
  length (getChunk st) = Nat.min (length (unprocessedKeys st)) batchGetLimit.
Proof. unfold getChunk. rewrite length_take. lia. Qed.

Lemma putChunk_length st :
  length (putChunk st) = Nat.min (length (unprocessedItems st)) batchWriteLimit.
Proof. unfold putChunk. rewrite length_take. lia. Qed.

Lemma progress_submits_nothing table logCallback st :
  submittedWrites table (progressEvents logCallback st) = [] /\
  reportedWrites table (progressEvents logCallback st) = [] /\
  filter isSend (progressEvents logCallback st) = [].
Proof. unfold progressEvents. by destruct logCallback. Qed.

(** Over any number of turns, what was submitted and what is still queued
    is what the loop started from and what came back as residual. *)
Lemma getLoop_accounting cfg batchGetInput table entry st b r :
  GetLoopRun dynamodb cfg batchGetInput table entry st b r ->
  forall x, outcome r = Returned x ->
  submittedKeys table (emitted r) ++ unprocessedKeys (loopState x)
  ≡ₚ unprocessedKeys st ++ reportedKeys table (emitted r).
Proof.
  induction 1 as [st b Hq|st b Hq|st b b' evs e' Hne Hpath
                  |st b b' evs st' r Hne Hpath Hrun IH];
    simpl; intros x Hx.
  - injection Hx as <-. simpl. by rewrite app_nil_r.
  - injection Hx as <-. simpl. by rewrite app_nil_r.
  - done.
  - specialize (IH x Hx). unfold submittedKeys, reportedKeys in *.
    rewrite !flat_map_app, <- (getChunk_getRest st).
    inversion Hpath as [| |b1 output Hsend Hwf Hres|b1 output Hsend Hwf Hres]; subst;
      simpl in *; rewrite keysOf_getRequest, !app_nil_r, <- !app_assoc.
    + rewrite Hres. simpl. by rewrite IH.
    + rewrite IH, <- !app_assoc. f_equiv.
      by rewrite !app_assoc, (Permutation_app_comm (unprocessedOf table output)).
Qed.

Lemma putLoop_accounting cfg table logCallback st b r :
  PutLoopRun dynamodb cfg table logCallback st b r ->
  exists x, outcome r = Returned x /\
  submittedWrites table (emitted r) ++ unprocessedItems (loopState x)
  ≡ₚ unprocessedItems st ++ reportedWrites table (emitted r).
Proof.
  induction 1 as [st b Hq|st b Hq|st b b' evs st' r Hne Hpath Hrun IH]; simpl.
  - eexists; split; [done|]. simpl. by rewrite app_nil_r.
  - eexists; split; [done|]. simpl. by rewrite app_nil_r.
  - destruct IH as (x & Hx & IH). exists x; split; [done|].
    destruct (progress_submits_nothing table logCallback st) as (Hs & Hr & _).
    unfold submittedWrites, reportedWrites in *.
    rewrite !flat_map_app, <- (putChunk_putRest st).
    inversion Hpath as [b1 reason Hsend|b1 output Hsend Hres|b1 output Hsend Hres];
      subst; simpl in *;
      rewrite !flat_map_app, Hs, Hr; simpl;
      rewrite writesOf_putRequest, ?app_nil_r, <- !app_assoc.
    + by rewrite IH.
    + rewrite Hres. simpl. by rewrite IH.
    + rewrite IH, <- !app_assoc. f_equiv.
      by rewrite !app_assoc,
        (Permutation_app_comm (residualItems table (Some output))).
Qed.

Lemma getLoop_exited cfg batchGetInput table entry st b r x :
  GetLoopRun dynamodb cfg batchGetInput table entry st b r ->
  outcome r = Returned (Exited x) -> unprocessedKeys x = [].
Proof.
  induction 1; simpl; intros Hx; try done.
  - by injection Hx as <-.
  - by apply IHGetLoopRun.
Qed.

Lemma putLoop_exited cfg table logCallback st b r x :
  PutLoopRun dynamodb cfg table logCallback st b r ->
  outcome r = Returned (Exited x) -> unprocessedItems x = [].
Proof.
  induction 1; simpl; intros Hx; try done.
  - by injection Hx as <-.
  - by apply IHPutLoopRun.
Qed.

Lemma getLoop_answered cfg batchGetInput table entry st b r x :
  GetLoopRun dynamodb cfg batchGetInput table entry st b r ->
  outcome r = Returned x ->
  Forall (fun e => isRejected e = false) (emitted r).
Proof.
  induction 1 as [st b Hq|st b Hq|st b b' evs e' Hne Hpath
                  |st b b' evs st' r Hne Hpath Hrun IH];
    simpl; intros Hx; try done.
  apply Forall_app; split; [|by apply IH].
  inversion Hpath; subst; by repeat constructor.
Qed.

Lemma getRound_prepends cfg batchGetInput table entry st b st' :
  outcome (getRound dynamodb cfg batchGetInput table entry st b) = Returned st' ->
  unprocessedKeys st'
  = reportedKeys table
      (emitted (getRound dynamodb cfg batchGetInput table entry st b))
    ++ getRest st.
Proof.
  destruct (getRound_cases cfg batchGetInput table entry st b)
    as [b' reason Hsend|b' output Hsend Hwf|b' output Hsend Hwf Hres
        |b' output Hsend Hwf Hres]; simpl; try done.
  - intros [= <-]. simpl. by rewrite Hres.
  - intros [= <-]. simpl. by rewrite app_nil_r.
Qed.

Lemma putRound_prepends cfg table logCallback st b st' :
  outcome (putRound dynamodb cfg table logCallback st b) = Returned st' ->
  unprocessedItems st'
  = reportedWrites table (emitted (putRound dynamodb cfg table logCallback st b))
    ++ putRest st.
Proof.
  destruct (progress_submits_nothing table logCallback st) as (_ & Hr & _).
  unfold reportedWrites in *.
  destruct (putRound_cases cfg table logCallback st b)
    as [b' reason Hsend|b' output Hsend Hres|b' output Hsend Hres];
    cbn [outcome emitted]; intros [= <-]; rewrite flat_map_app, Hr;
    cbn [flat_map residualWritesOf app unprocessedItems].
  - done.
  - by rewrite Hres.
  - by rewrite app_nil_r.
Qed.


Lemma getChunkSizes_sum table tr :
  list_sum (getChunkSizes table tr) = length (submittedKeys table tr).
Proof.
  unfold getChunkSizes, submittedKeys.
  induction tr as [|[] tr IH]; simpl; rewrite ?length_app; by rewrite <- ?IH.
Qed.

Lemma putChunkSizes_sum table tr :
  list_sum (putChunkSizes table tr) = length (submittedWrites table tr).
Proof.
  unfold putChunkSizes, submittedWrites.
  induction tr as [|[] tr IH]; simpl; rewrite ?length_app; by rewrite <- ?IH.
Qed.



(** ** Rounds and calls of a get call *)

Lemma chunksNeeded_le n limit c :
  0 < limit -> n <= limit * c -> chunksNeeded n limit <= c.
Proof.
  intros Hpos Hle. unfold chunksNeeded.
  enough ((n + (limit - 1)) / limit < S c) by lia.
  apply Nat.Div0.div_lt_upper_bound. lia.
Qed.

Lemma chunksNeeded_0 limit : 0 < limit -> chunksNeeded 0 limit = 0.
Proof. intros Hpos. unfold chunksNeeded. apply Nat.div_small. lia. Qed.

Lemma chunksNeeded_step n limit :
  0 < n -> 0 < limit ->
  chunksNeeded n limit = S (chunksNeeded (n - Nat.min n limit) limit).
Proof.
  intros Hn Hpos. unfold chunksNeeded.
  destruct (decide (n <= limit)) as [Hle|Hgt].
  - rewrite Nat.min_l, Nat.sub_diag by done. simpl.
    rewrite (Nat.div_small (limit - 1)) by lia.
    symmetry. apply (Nat.div_unique _ _ _ (n - 1)); lia.
  - rewrite Nat.min_r by lia.
    replace (n + (limit - 1)) with ((n - limit + (limit - 1)) + 1 * limit) by lia.
    rewrite Nat.div_add by lia. lia.
Qed.

Lemma list_sum_bound limit (l : list nat) :
  Forall (fun n => n <= limit) l -> list_sum l <= limit * length l.
Proof. induction 1; simpl; lia. Qed.

Lemma getLoop_results cfg batchGetInput table entry st b r x :
  GetLoopRun dynamodb cfg batchGetInput table entry st b r ->
  outcome r = Returned x ->
  results (loopState x) = results st ++ returnedBy table (emitted r).
Proof.
  induction 1 as [st b Hq|st b Hq|st b b' evs e' Hne Hpath
                  |st b b' evs st' r Hne Hpath Hrun IH];
    simpl; intros Hx.
  - injection Hx as <-. by rewrite app_nil_r.
  - injection Hx as <-. by rewrite app_nil_r.
  - done.
  - rewrite (IH Hx). unfold returnedBy. rewrite flat_map_app.
    inversion Hpath; subst; simpl; by rewrite app_nil_r, app_assoc.
Qed.

Lemma getLoop_chunks cfg batchGetInput table entry st b r :
  GetLoopRun dynamodb cfg batchGetInput table entry st b r ->
  Forall (fun n => n <= batchGetLimit) (getChunkSizes table (emitted r)) /\
  backendCalls (emitted r) = length (getChunkSizes table (emitted r)).
Proof.
  assert (Hchunk : forall st, length (getChunk st) <= batchGetLimit).
  { intros st0. rewrite getChunk_length. lia. }
  induction 1 as [st b Hq|st b Hq|st b b' evs e' Hne Hpath
                  |st b b' evs st' r Hne Hpath Hrun IH]; simpl.
  - by split.
  - by split.
  - inversion Hpath; subst; simpl; rewrite keysOf_getRequest;
      (split; [by apply Forall_singleton|done]).
  - destruct IH as [IHs IHc]. unfold backendCalls, getChunkSizes in *.
    rewrite filter_app, omap_app, !length_app, Forall_app, IHc.
    inversion Hpath; subst; simpl; rewrite keysOf_getRequest;
      (split; [split; [by apply Forall_singleton|done]|done]).
Qed.

Lemma getLoop_calls_exact cfg batchGetInput table entry st b r x :
  GetLoopRun dynamodb cfg batchGetInput table entry st b r ->
  outcome r = Returned (Exited x) ->
  reportedKeys table (emitted r) = [] ->
  backendCalls (emitted r)
  = chunksNeeded (length (unprocessedKeys st)) batchGetLimit.
Proof.
  induction 1 as [st b Hq|st b Hq|st b b' evs e' Hne Hpath
                  |st b b' evs st' r Hne Hpath Hrun IH];
    cbn [outcome emitted]; intros Hx Hno; try done.
  - by rewrite Hq.
  - unfold reportedKeys, backendCalls in *.
    rewrite flat_map_app in Hno. apply app_eq_nil in Hno as [Hno1 Hno2].
    rewrite filter_app, length_app, (IH Hx Hno2).
    rewrite (chunksNeeded_step (length (unprocessedKeys st)))
      by (unfold batchGetLimit; destruct (unprocessedKeys st); simpl; [done|lia]).
    inversion Hpath as [| |b1 output Hsend Hwf Hres|b1 output Hsend Hwf Hres];
      subst; simpl in *.
    + unfold getRest. by rewrite length_drop.
    + rewrite app_nil_r in Hno1. done.
Qed.

Lemma getLoop_terminates cfg batchGetInput table entry :
  answersInFull dynamodb table ->
  forall rounds st b,
    chunksNeeded (length (unprocessedKeys st)) batchGetLimit <= rounds ->
    exists x, outcome (getLoop dynamodb rounds cfg batchGetInput table entry st b)
              = Returned (Exited x).
Proof.
  intros Hfull rounds.
  induction rounds as [|rounds IH]; intros st b Hle.
  - simpl. destruct (unprocessedKeys st) as [|k ks] eqn:Hq; [by eexists|].
    rewrite chunksNeeded_step in Hle by (unfold batchGetLimit; simpl; lia). lia.
  - simpl. destruct (unprocessedKeys st) as [|k ks] eqn:Hq; [by eexists|].
    rewrite chunksNeeded_step in Hle by (unfold batchGetLimit; simpl; lia).
    destruct (Hfull b (getRequest batchGetInput table entry (getChunk st)))
      as (b1 & out1 & Hsend1 & Hwf1 & Hno1).
    unfold bind.
    destruct (getRound_cases cfg batchGetInput table entry st b)
      as [b' reason Hsend|b' output Hsend Hwf|b' output Hsend Hwf Hres
          |b' output Hsend Hwf Hres]; rewrite Hsend1 in Hsend; simplify_eq.
    + done.
    + cbn [outcome final]. apply IH. cbn [unprocessedKeys]. unfold getRest.
      rewrite length_drop, Hq. lia.
Qed.


Lemma getLoop_no_residual cfg batchGetInput table entry st b r :
  answersInFull dynamodb table ->
  GetLoopRun dynamodb cfg batchGetInput table entry st b r ->
  reportedKeys table (emitted r) = [].
Proof.
  intros Hfull.
  induction 1 as [st b Hq|st b Hq|st b b' evs e' Hne Hpath
                  |st b b' evs st' r Hne Hpath Hrun IH]; simpl; try done.
  - destruct (Hfull b (getRequest batchGetInput table entry (getChunk st)))
      as (b1 & out1 & Hsend1 & Hwf1 & Hno1).
    inversion Hpath as [b2 reason Hsend|b2 output Hsend Hwf| |]; subst;
      rewrite Hsend1 in Hsend; by simplify_eq.
  - destruct (Hfull b (getRequest batchGetInput table entry (getChunk st)))
      as (b1 & out1 & Hsend1 & Hwf1 & Hno1).
    unfold reportedKeys in *. rewrite flat_map_app, IH, app_nil_r.
    inversion Hpath as [| |b2 output Hsend Hwf Hres|b2 output Hsend Hwf Hres];
      subst; rewrite Hsend1 in Hsend; simplify_eq.
    simpl. by rewrite Hno1.
Qed.

Lemma getRound_first_event cfg batchGetInput table entry st b :
  exists response tail,
    emitted (getRound dynamodb cfg batchGetInput table entry st b)
    = EvBatchGet
        (getRequest batchGetInput table entry
           (take (Nat.min (length (unprocessedKeys st)) batchGetLimit)
              (unprocessedKeys st)))
        response :: tail /\
    Forall (fun e => isSend e = false) tail.
Proof.
  destruct (getRound_cases cfg batchGetInput table entry st b); simpl;
    do 2 eexists; (split; [reflexivity|]); by repeat constructor.
Qed.

(** C2: a [batchGetAll] call on a single table with [n] keys that
    returns has made at least [ceil(n / 100)] backend calls, and exactly
    that many when no round reported a residual; every call carried the
    first [min(pending, 100)] keys of the pending queue; the list returned
    is the concatenation, round after round, of the records the backend
    returned.  Against a backend that answers every call in full,
    [ceil(n / 100)] rounds are enough for the call to return. *)
Theorem batchGetAll_calls_and_results rounds cfg table entry opts keys b :
  Keys entry = Some keys ->
  let call :=
    batchGetAll dynamodb rounds cfg (singleTableGet table entry opts) b in
  (forall records, outcome call = Returned records ->
     chunksNeeded (length keys) batchGetLimit <= backendCalls (emitted call) /\
     (reportedKeys table (emitted call) = [] ->
        backendCalls (emitted call) = chunksNeeded (length keys) batchGetLimit) /\
     records = returnedBy table (emitted call)) /\
  (forall st, exists response tail,
     emitted (getRound dynamodb cfg (singleTableGet table entry opts)
                table entry st b)
     = EvBatchGet
         (getRequest (singleTableGet table entry opts) table entry
            (take (Nat.min (length (unprocessedKeys st)) batchGetLimit)
               (unprocessedKeys st)))
         response :: tail /\
     Forall (fun e => isSend e = false) tail) /\
  (answersInFull dynamodb table ->
   chunksNeeded (length keys) batchGetLimit <= rounds ->
   outcome call = Returned (returnedBy table (emitted call)) /\
   backendCalls (emitted call) = chunksNeeded (length keys) batchGetLimit).
Proof.
  intros Hkeys call. subst call.
  rewrite (batchGetAll_single _ _ _ _ keys) by done.
  pose proof (getLoop_run rounds cfg (singleTableGet table entry opts)
                table entry (getStart cfg keys) b) as Hrun.
  set (loop := getLoop dynamodb rounds cfg (singleTableGet table entry opts)
                 table entry (getStart cfg keys) b) in *.
  assert (Hdone : forall x, outcome loop = Returned (Exited x) ->
    chunksNeeded (length keys) batchGetLimit <= backendCalls (emitted loop) /\
    (reportedKeys table (emitted loop) = [] ->
       backendCalls (emitted loop) = chunksNeeded (length keys) batchGetLimit) /\
    results x = returnedBy table (emitted loop)).
  { intros x Hx. split; [|split].
    - destruct (getLoop_chunks _ _ _ _ _ _ _ Hrun) as [Hsizes ->].
      pose proof (getLoop_accounting _ _ _ _ _ _ _ Hrun _ Hx) as Hperm.
      apply Permutation_length in Hperm. rewrite !length_app in Hperm.
      cbn [loopState] in Hperm.
      rewrite (getLoop_exited _ _ _ _ _ _ _ _ Hrun Hx) in Hperm.
      rewrite <- getChunkSizes_sum in Hperm.
      apply list_sum_bound in Hsizes. simpl in Hperm.
      apply chunksNeeded_le; [unfold batchGetLimit|]; lia.
    - intros Hno. by apply (getLoop_calls_exact _ _ _ _ _ _ _ _ Hrun Hx).
    - apply (getLoop_results _ _ _ _ _ _ _ _ Hrun Hx). }
  split; [|split].
  - intros records. unfold getAnswer; simpl.
    destruct (outcome loop) as [[x|x]|e|] eqn:Hx; try done.
    intros [= <-]. by apply Hdone.
  - intros st. apply getRound_first_event.
  - intros Hfull Hrounds.
    destruct (getLoop_terminates cfg (singleTableGet table entry opts) table
                entry Hfull rounds (getStart cfg keys) b Hrounds) as [x Hx].
    fold loop in Hx. destruct (Hdone x Hx) as (_ & Hexact & Hres).
    unfold getAnswer; simpl. rewrite Hx, Hres. split; [done|].
    apply Hexact. by apply (getLoop_no_residual _ _ _ _ _ _ _ Hfull Hrun).
Qed.


(** ** Rejected writes *)

Lemma putRound_rejected cfg table logCallback st b b' reason :
  sendBatchWrite dynamodb b (putRequest table (putChunk st)) = (b', inl reason) ->
  putRound dynamodb cfg table logCallback st b
  = mkRun b'
      (progressEvents logCallback st ++
       [EvBatchWrite (putRequest table (putChunk st)) (inl reason);
        EvConsoleLog (notWritingLine (putChunk st) reason)])
      (Returned {| unprocessedItems := putRest st;
                   putBackoff := backoffInitial cfg |}).
Proof.
  intros Hsend.
  pose proof (putRound_cases cfg table logCallback st b) as Hpath.
  inversion Hpath as [b1 reason1 Hsend1 Heq|b1 output Hsend1 Hres Heq
                      |b1 output Hsend1 Hres Heq];
    rewrite Hsend in Hsend1; by simplify_eq.
Qed.

Lemma putLoop_unfold rounds cfg table logCallback st b :
  unprocessedItems st <> [] ->
  putLoop dynamodb (S rounds) cfg table logCallback st b
  = bind (putRound dynamodb cfg table logCallback st)
      (putLoop dynamodb rounds cfg table logCallback) b.
Proof. intros Hne. simpl. by destruct (unprocessedItems st). Qed.


(** ** The progress callback *)

Lemma putLoop_callbacks cfg table st b r :
  PutLoopRun dynamodb cfg table true st b r ->
  callbackPerCall false (emitted r) = true /\
  length (filter isLogCallback (emitted r)) = backendCalls (emitted r).
Proof.
  induction 1 as [st b Hq|st b Hq|st b b' evs st' r Hne Hpath Hrun IH];
    [done|done|].
  destruct IH as [IHa IHn]. unfold backendCalls in *. cbn [emitted].
  rewrite !filter_app, !length_app, IHn.
  inversion Hpath; subst; by cbn.
Qed.

Lemma putRound_events cfg table st b :
  exists response tail,
    emitted (putRound dynamodb cfg table true st b)
    = EvLogCallback
        (pretty (length (unprocessedItems st)
                 - Nat.min (length (unprocessedItems st)) batchWriteLimit))
      :: EvBatchWrite
           (putRequest table
              (take (Nat.min (length (unprocessedItems st)) batchWriteLimit)
                 (unprocessedItems st)))
           response
      :: tail /\
    Forall (fun e => isLogCallback e = false /\ isSend e = false) tail.
Proof.
  assert (Hlen : length (putRest st)
                 = length (unprocessedItems st)
                   - Nat.min (length (unprocessedItems st)) batchWriteLimit).
  { unfold putRest. by rewrite length_drop. }
  destruct (putRound_cases cfg table true st b); cbn [emitted progressEvents app];
    rewrite Hlen; do 2 eexists; (split; [reflexivity|]); by repeat constructor.
Qed.

(** C9: with a progress callback supplied, [batchPutAll] invokes it with
    the fixed text when it starts and then, in the loop, once per round:
    callback invocations and backend calls alternate, the invocation
    first, and there are as many of the one as of the other.  The
    invocation of a round comes right before the call of the round and
    receives, printed in decimal, the length the pending queue has at that
    moment, the chunk of the round already taken out. *)
Theorem progress_callback_once_per_round rounds cfg table items b :
  let loop := putLoop dynamodb rounds cfg table true (putStart cfg items) b in
  emitted (batchPutAll dynamodb rounds cfg table items true b)
  = EvLogCallback "starting batch write" :: emitted loop /\
  callbackPerCall false (emitted loop) = true /\
  length (filter isLogCallback (emitted loop)) = backendCalls (emitted loop) /\
  (forall st b0, exists response tail,
     emitted (putRound dynamodb cfg table true st b0)
     = EvLogCallback
         (pretty (length (unprocessedItems st)
                  - Nat.min (length (unprocessedItems st)) batchWriteLimit))
       :: EvBatchWrite
            (putRequest table
               (take (Nat.min (length (unprocessedItems st)) batchWriteLimit)
                  (unprocessedItems st)))
            response
       :: tail /\
     Forall (fun e => isLogCallback e = false /\ isSend e = false) tail).
Proof.
  intros loop.
  destruct (putLoop_callbacks _ _ _ _ _
              (putLoop_run rounds cfg table true (putStart cfg items) b))
    as [Halt Hcount].
  split; [by rewrite batchPutAll_single|].
  split; [done|]. split; [done|].
  intros st b0. apply putRound_events.
Qed.

(** ** Rejected gets and scans *)

(** Closes a goal with a hypothesis that puts a rejected call in a list of
    events that has none. *)
Ltac absent Hin :=
  repeat (apply elem_of_cons in Hin as [Hin|Hin]; [discriminate Hin|]);
  by apply elem_of_nil in Hin.

Lemma getLoop_rejection cfg batchGetInput table entry st b r :
  GetLoopRun dynamodb cfg batchGetInput table entry st b r ->
  forall request reason,
    EvBatchGet request (inl reason) ∈ emitted r ->
    outcome r = Threw (Rejected reason) /\
    last (emitted r) = Some (EvBatchGet request (inl reason)).
Proof.
  induction 1 as [st b Hq|st b Hq|st b b' evs e' Hne Hpath
                  |st b b' evs st' r Hne Hpath Hrun IH];
    cbn [emitted outcome]; intros request reason Hin.
  - by apply elem_of_nil in Hin.
  - by apply elem_of_nil in Hin.
  - inversion Hpath; subst; apply list_elem_of_singleton in Hin; by simplify_eq.
  - apply elem_of_app in Hin as [Hin|Hin].
    + inversion Hpath; subst; absent Hin.
    + destruct (IH _ _ Hin) as [Hout Hlast]. split; [done|].
      rewrite last_app, Hlast. done.
Qed.

Lemma scanLoop_rejection st b r :
  ScanLoopRun dynamodb st b r ->
  forall request reason,
    EvScan request (inl reason) ∈ emitted r ->
    outcome r = Threw (Rejected reason) /\
    last (emitted r) = Some (EvScan request (inl reason)).
Proof.
  induction 1 as [st b|st b b' evs e Hpath|st b b' evs st' Hpath Hc
                  |st b b' evs st' r Hpath Hc Hrun IH];
    cbn [emitted outcome]; intros request reason Hin.
  - by apply elem_of_nil in Hin.
  - inversion Hpath; subst; apply list_elem_of_singleton in Hin; by simplify_eq.
  - inversion Hpath; subst; absent Hin.
  - apply elem_of_app in Hin as [Hin|Hin].
    + inversion Hpath; subst; absent Hin.
    + destruct (IH _ _ Hin) as [Hout Hlast]. split; [done|].
      rewrite last_app, Hlast. done.
Qed.

Lemma batchGetAll_cases rounds cfg batchGetInput b :
  emitted (batchGetAll dynamodb rounds cfg batchGetInput b) = [] \/
  exists table entry keys,
    batchGetAll dynamodb rounds cfg batchGetInput b
    = getAnswer (getLoop dynamodb rounds cfg batchGetInput table entry
                   (getStart cfg keys) b).
Proof.
  unfold batchGetAll.
  destruct (getRequestItems batchGetInput) as [requestItems|]; [|by left].
  destruct (decide _); [by left|].
  destruct (head (objectKeys requestItems)) as [table|]; [|by left].
  destruct (requestItems !! table) as [entry|]; [|by left].
  destruct (Keys entry) as [keys|]; [|by left].
  right. exists table, entry, keys. unfold bind, getAnswer.
  fold (getStart cfg keys).
  destruct (getLoop _ _ _ _ _ _ _ _) as [b' evs [[st|st]|e|]]; simpl;
    by rewrite ?app_nil_r.
Qed.

Lemma batchScanAll_cases rounds input b :
  let loop := scanLoop dynamodb rounds
                {| scanInput := input; scanResults := []; lastEvalKey := None |}
                b in
  batchScanAll dynamodb rounds input b
  = mkRun (final loop)
      (EvConsoleLog ("getting all items for " +:+ showString (TableName input))
       :: emitted loop ++
          match outcome loop with
          | Returned (Exited st) =>
              [EvConsoleLog
                 ("total items: " +:+ pretty (length (scanResults st)))]
          | _ => []
          end)
      match outcome loop with
      | Returned (Exited st) => Returned (scanResults st)
      | Returned (Running _) => Unfinished
      | Threw e => Threw e
      | Unfinished => Unfinished
      end.
Proof.
  intros loop. unfold batchScanAll, bind, emit. cbn [outcome final emitted].
  fold loop. destruct (outcome loop) as [[st|st]|e|]; simpl;
    by rewrite ?app_nil_r.
Qed.


Lemma getLoop_unfold rounds cfg batchGetInput table entry st b :
  unprocessedKeys st <> [] ->
  getLoop dynamodb (S rounds) cfg batchGetInput table entry st b
  = bind (getRound dynamodb cfg batchGetInput table entry st)
      (getLoop dynamodb rounds cfg batchGetInput table entry) b.
Proof. intros Hne. simpl. by destruct (unprocessedKeys st). Qed.

Lemma getRound_rejected cfg batchGetInput table entry st b b' reason :
  sendBatchGet dynamodb b (getRequest batchGetInput table entry (getChunk st))
    = (b', inl reason) ->
  getRound dynamodb cfg batchGetInput table entry st b
  = mkRun b'
      [EvBatchGet (getRequest batchGetInput table entry (getChunk st))
         (inl reason)]
      (Threw (Rejected reason)).
Proof.
  intros Hsend.
  pose proof (getRound_cases cfg batchGetInput table entry st b) as Hpath.
  inversion Hpath as [b1 reason1 Hsend1 Heq|b1 output Hsend1 Hwf Heq
                      |b1 output Hsend1 Hwf Hres Heq
                      |b1 output Hsend1 Hwf Hres Heq];
    rewrite Hsend in Hsend1; by simplify_eq.
Qed.

Lemma scanRound_rejected st b b' reason :
  sendScan dynamodb b (scanRequest st) = (b', inl reason) ->
  scanRound dynamodb st b
  = mkRun b' [EvScan (scanRequest st) (inl reason)] (Threw (Rejected reason)).
Proof.
  intros Hsend. pose proof (scanRound_cases st b) as Hpath.
  inversion Hpath as [b1 reason1 Hsend1 Heq|b1 output Hsend1 Heq];
    rewrite Hsend in Hsend1; by simplify_eq.
Qed.

Lemma scanRound_answered st b b' output :
  sendScan dynamodb b (scanRequest st) = (b', inr output) ->
  scanRound dynamodb st b
  = mkRun b'
      [EvScan (scanRequest st) (inr output);
       EvStdout ("-" +:+ showLength (Items output) +:+ CR)]
      (Returned (scanNext st output)).
Proof.
  intros Hsend. pose proof (scanRound_cases st b) as Hpath.
  inversion Hpath as [b1 reason1 Hsend1 Heq|b1 output1 Hsend1 Heq];
    rewrite Hsend in Hsend1; by simplify_eq.
Qed.

(** C7: whatever the input, when the backend rejects a call of
    [batchGetAll] or of [batchScanAll], the operation throws the very
    reason of the rejection and the rejected call is the last thing it
    did; the round in which the call is rejected ends the loop at once,
    whatever had been accumulated. *)
Theorem backend_rejections_propagate rounds cfg batchGetInput scanInput0 b :
  let get := batchGetAll dynamodb rounds cfg batchGetInput b in
  let scan := batchScanAll dynamodb rounds scanInput0 b in
  (forall request reason,
     EvBatchGet request (inl reason) ∈ emitted get ->
     outcome get = Threw (Rejected reason) /\
     last (emitted get) = Some (EvBatchGet request (inl reason))) /\
  (forall request reason,
     EvScan request (inl reason) ∈ emitted scan ->
     outcome scan = Threw (Rejected reason) /\
     last (emitted scan) = Some (EvScan request (inl reason))) /\
  (forall table entry st b0 b' reason,
     unprocessedKeys st <> [] ->
     sendBatchGet dynamodb b0
       (getRequest batchGetInput table entry (getChunk st)) = (b', inl reason) ->
     getLoop dynamodb (S rounds) cfg batchGetInput table entry st b0
     = mkRun b'
         [EvBatchGet (getRequest batchGetInput table entry (getChunk st))
            (inl reason)]
         (Threw (Rejected reason))) /\
  (forall st b0 b' reason,
     sendScan dynamodb b0 (scanRequest st) = (b', inl reason) ->
     scanLoop dynamodb (S rounds) st b0
     = mkRun b' [EvScan (scanRequest st) (inl reason)]
         (Threw (Rejected reason))).
Proof.
  intros get scan. split; [|split; [|split]].
  - intros request reason Hin. subst get.
    destruct (batchGetAll_cases rounds cfg batchGetInput b)
      as [Hnone|(table & entry & keys & Heq)].
    + rewrite Hnone in Hin. by apply elem_of_nil in Hin.
    + rewrite Heq in Hin |- *. unfold getAnswer in *; cbn [emitted outcome] in *.
      destruct (getLoop_rejection _ _ _ _ _ _ _
                  (getLoop_run rounds cfg batchGetInput table entry
                     (getStart cfg keys) b) _ _ Hin) as [Hout Hlast].
      by rewrite Hout.
  - intros request reason Hin. subst scan.
    rewrite batchScanAll_cases in Hin |- *. cbn [emitted outcome] in *.
    set (loop := scanLoop dynamodb rounds _ b) in *.
    assert (Hloop : EvScan request (inl reason) ∈ emitted loop).
    { apply elem_of_cons in Hin as [Hin|Hin]; [done|].
      apply elem_of_app in Hin as [Hin|Hin]; [done|].
      destruct (outcome loop) as [[?|?]|?|]; absent Hin. }
    destruct (scanLoop_rejection _ _ _ (scanLoop_run rounds _ b) _ _ Hloop)
      as [Hout Hlast].
    fold loop in Hout, Hlast. rewrite Hout, app_nil_r. split; [done|].
    rewrite last_cons, Hlast. done.
  - intros table entry st b0 b' reason Hne Hsend.
    rewrite getLoop_unfold by done. unfold bind.
    by rewrite (getRound_rejected _ _ _ _ _ _ _ _ Hsend).
  - intros st b0 b' reason Hsend. cbn [scanLoop]. unfold bind.
    by rewrite (scanRound_rejected _ _ _ _ Hsend).
Qed.

(** ** Scanning to exhaustion *)

Lemma scanLoop_walk st b r :
  ScanLoopRun dynamodb st b r -> scanWalk (scanRequest st) (emitted r).
Proof.
  induction 1 as [st b|st b b' evs e Hpath|st b b' evs st' Hpath Hc
                  |st b b' evs st' r Hpath Hc Hrun IH]; cbn [emitted].
  - done.
  - inversion Hpath; subst. by cbn.
  - inversion Hpath as [|b1 output Hsend]; subst. cbn in *. rewrite Hc.
    split; [done|]. by repeat constructor.
  - inversion Hpath as [|b1 output Hsend]; subst. cbn in *.
    split; [done|]. destruct (LastEvaluatedKey output) as [c|] eqn:Hk; [|done].
    unfold scanRequest in IH at 1. cbn in IH. by rewrite Hk in IH.
Qed.

Lemma scanLoop_results st b r x :
  ScanLoopRun dynamodb st b r ->
  outcome r = Returned x ->
  scanResults (loopState x) = scanResults st ++ scannedBy (emitted r).
Proof.
  induction 1 as [st b|st b b' evs e Hpath|st b b' evs st' Hpath Hc
                  |st b b' evs st' r Hpath Hc Hrun IH];
    cbn [emitted outcome]; intros Hx.
  - injection Hx as <-. by rewrite app_nil_r.
  - done.
  - injection Hx as <-. inversion Hpath; subst. cbn. by rewrite app_nil_r.
  - rewrite (IH Hx). unfold scannedBy. rewrite flat_map_app.
    inversion Hpath; subst. cbn. by rewrite app_nil_r, app_assoc.
Qed.

Lemma scanLoop_cursors st b r x :
  ScanLoopRun dynamodb st b r ->
  outcome r = Returned (Exited x) ->
  exists cs, cursorsOf (emitted r) = (Some <$> cs) ++ [None].
Proof.
  induction 1 as [st b|st b b' evs e Hpath|st b b' evs st' Hpath Hc
                  |st b b' evs st' r Hpath Hc Hrun IH];
    cbn [emitted outcome]; intros Hx; try done.
  - inversion Hpath as [|b1 output Hsend]; subst. cbn in *.
    exists []. by rewrite Hc.
  - destruct (IH Hx) as [cs Hcs]. unfold cursorsOf in *.
    rewrite omap_app, Hcs.
    inversion Hpath as [|b1 output Hsend]; subst. cbn in *.
    destruct (LastEvaluatedKey output) as [c|]; [|done].
    by exists (c :: cs).
Qed.


Lemma scanLoop_more rounds st b b' output c :
  sendScan dynamodb b (scanRequest st) = (b', inr output) ->
  LastEvaluatedKey output = Some c ->
  scanLoop dynamodb (S rounds) st b
  = mkRun (final (scanLoop dynamodb rounds (scanNext st output) b'))
      ([EvScan (scanRequest st) (inr output);
        EvStdout ("-" +:+ showLength (Items output) +:+ CR)]
       ++ emitted (scanLoop dynamodb rounds (scanNext st output) b'))
      (outcome (scanLoop dynamodb rounds (scanNext st output) b')).
Proof.
  intros Hsend Hc. cbn [scanLoop]. unfold bind.
  rewrite (scanRound_answered _ _ _ _ Hsend).
  cbn [outcome final emitted scanNext lastEvalKey]. by rewrite Hc.
Qed.

Lemma scanLoop_last rounds st b b' output :
  sendScan dynamodb b (scanRequest st) = (b', inr output) ->
  LastEvaluatedKey output = None ->
  scanLoop dynamodb (S rounds) st b
  = mkRun b'
      [EvScan (scanRequest st) (inr output);
       EvStdout ("-" +:+ showLength (Items output) +:+ CR)]
      (Returned (Exited (scanNext st output))).
Proof.
  intros Hsend Hc. cbn [scanLoop]. unfold bind.
  rewrite (scanRound_answered _ _ _ _ Hsend).
  cbn [outcome final emitted scanNext lastEvalKey]. rewrite Hc.
  unfold ret; cbn. done.
Qed.

Lemma scanLoop_three_pages rounds input b b1 b2 b3 c1 c2 page1 page2 page3 :
  sendScan dynamodb b input
    = (b1, inr {| Items := Some page1; LastEvaluatedKey := Some c1 |}) ->
  sendScan dynamodb b1 (withCursor input (Some c1))
    = (b2, inr {| Items := Some page2; LastEvaluatedKey := Some c2 |}) ->
  sendScan dynamodb b2 (withCursor (withCursor input (Some c1)) (Some c2))
    = (b3, inr {| Items := Some page3; LastEvaluatedKey := None |}) ->
  scanLoop dynamodb (S (S (S rounds)))
    {| scanInput := input; scanResults := []; lastEvalKey := None |} b
  = mkRun b3
      [EvScan input
         (inr {| Items := Some page1; LastEvaluatedKey := Some c1 |});
       EvStdout ("-" +:+ pretty (length page1) +:+ CR);
       EvScan (withCursor input (Some c1))
         (inr {| Items := Some page2; LastEvaluatedKey := Some c2 |});
       EvStdout ("-" +:+ pretty (length page2) +:+ CR);
       EvScan (withCursor (withCursor input (Some c1)) (Some c2))
         (inr {| Items := Some page3; LastEvaluatedKey := None |});
       EvStdout ("-" +:+ pretty (length page3) +:+ CR)]
      (Returned
         (Exited
            {| scanInput := withCursor (withCursor input (Some c1)) (Some c2);
               scanResults := page1 ++ page2 ++ page3;
               lastEvalKey := None |})).
Proof.
  intros H1 H2 H3.
  set (st0 := {| scanInput := input; scanResults := []; lastEvalKey := None |}).
  set (o1 := {| Items := Some page1; LastEvaluatedKey := Some c1 |}).
  set (o2 := {| Items := Some page2; LastEvaluatedKey := Some c2 |}).
  set (o3 := {| Items := Some page3; LastEvaluatedKey := None |}).
  rewrite (scanLoop_more (S (S rounds)) st0 b b1 o1 c1 H1 eq_refl).
  rewrite (scanLoop_more (S rounds) (scanNext st0 o1) b1 b2 o2 c2 H2 eq_refl).
  rewrite (scanLoop_last rounds (scanNext (scanNext st0 o1) o2) b2 b3 o3 H3
             eq_refl).
  unfold scanNext, scanRequest, o1, o2, o3, st0; cbn.
  by rewrite <- app_assoc.
Qed.

(** C6: [batchScanAll] walks the pages of a scan: its first call carries
    the input as given, every later call carries the cursor the call
    before came back with, and no call follows an answer without cursor.
    When it returns, the cursors that came back were all present but the
    last, which is absent, and the list returned is the records of all the
    answers in order.  Against a backend that answers the three calls of
    such a walk with 10, 10 and 5 records and the cursors [c1], [c2] and
    none, it returns the 25 records after exactly 3 calls. *)
Theorem batchScanAll_walks_pages rounds input b :
  let call := batchScanAll dynamodb rounds input b in
  scanWalk input (emitted call) /\
  (forall records, outcome call = Returned records ->
     records = scannedBy (emitted call) /\
     exists cs, cursorsOf (emitted call) = (Some <$> cs) ++ [None]) /\
  (forall b1 b2 b3 c1 c2 page1 page2 page3,
     sendScan dynamodb b input
       = (b1, inr {| Items := Some page1; LastEvaluatedKey := Some c1 |}) ->
     sendScan dynamodb b1 (withCursor input (Some c1))
       = (b2, inr {| Items := Some page2; LastEvaluatedKey := Some c2 |}) ->
     sendScan dynamodb b2 (withCursor (withCursor input (Some c1)) (Some c2))
       = (b3, inr {| Items := Some page3; LastEvaluatedKey := None |}) ->
     length page1 = 10 -> length page2 = 10 -> length page3 = 5 ->
     3 <= rounds ->
     outcome call = Returned (page1 ++ page2 ++ page3) /\
     length (page1 ++ page2 ++ page3) = 25 /\
     backendCalls (emitted call) = 3).
Proof.
  intros call. subst call. rewrite batchScanAll_cases.
  cbn [emitted outcome].
  set (start := {| scanInput := input; scanResults := []; lastEvalKey := None |}).
  pose proof (scanLoop_run rounds start b) as Hrun.
  set (loop := scanLoop dynamodb rounds start b) in *.
  assert (Htail : forall request tr (tl : list Event),
    Forall (fun e => isSend e = false) tl ->
    scanWalk request tr -> scanWalk request (tr ++ tl)).
  { intros request tr tl Htl. revert request.
    induction tr as [|e tr IH]; intros request Hw.
    - simpl. induction Htl as [|e tl He Htl IH]; [done|].
      by destruct e; simpl in *.
    - destruct e; cbn in *; try by apply IH.
      destruct Hw as [-> Hw]. split; [done|].
      destruct response as [reason|output].
      + by apply Forall_app.
      + destruct (LastEvaluatedKey output); [by apply IH|].
        by apply Forall_app. }
  split; [|split].
  - cbn. apply Htail; [by destruct (outcome loop) as [[?|?]|?|]; repeat constructor|].
    apply (scanLoop_walk _ _ _ Hrun).
  - intros records Hret.
    destruct (outcome loop) as [[x|x]|e|] eqn:Hx; try done.
    injection Hret as <-.
    unfold scannedBy, cursorsOf. cbn [flat_map omap list_omap scannedRecords app].
    rewrite flat_map_app, omap_app. cbn. rewrite !app_nil_r. split.
    + apply (scanLoop_results _ _ _ _ Hrun Hx).
    + apply (scanLoop_cursors _ _ _ _ Hrun Hx).
  - intros b1 b2 b3 c1 c2 page1 page2 page3 H1 H2 H3 Hl1 Hl2 Hl3 Hrounds.
    destruct rounds as [|[|[|rounds]]]; try lia.
    subst loop start.
    rewrite (scanLoop_three_pages rounds input b b1 b2 b3 c1 c2
               page1 page2 page3 H1 H2 H3).
    cbn. split; [done|]. split; [|done]. rewrite !length_app. lia.
Qed.


(** * Further properties of the code *)

(** ** configure *)

(** X1: two [configure] calls in a row act as one call that is given,
    for each of the three settings, the number of the later call where it
    has one and otherwise the number of the earlier call, if any; a call
    without any number changes nothing, a call with all three numbers
    decides the settings whatever they were, and repeating a call changes
    nothing. *)
Theorem configure_composes later earlier s :
  configure later (configure earlier s)
  = configure (mergeOptions later earlier) s /\
  configure {| optBackoffInitial := None; optBackoffMax := None;
               optBackoffFactor := None |} s = s /\
  (forall i m f,
     configure {| optBackoffInitial := Some i; optBackoffMax := Some m;
                  optBackoffFactor := Some f |} s
     = {| backoffInitial := i; backoffMax := m; backoffFactor := f |}) /\
  configure later (configure later s) = configure later s.
Proof.
  destruct later as [[i2|] [m2|] [f2|]], earlier as [[i1|] [m1|] [f1|]], s;
    by repeat split.
Qed.

(** ** Inputs with nothing to do, and malformed ones *)

(** X2: with an empty key list [batchGetAll] returns the empty list, and
    with no items [batchPutAll] returns after the start line of the
    callback, in both cases without any backend call or wait and whatever
    the round budget; a table entry without [Keys] is a [TypeError] before
    any backend call; with at least one key the first thing a get call
    does is a backend call. *)
Theorem nothing_to_do rounds cfg table entry opts logCallback b :
  (Keys entry = Some [] ->
   batchGetAll dynamodb rounds cfg (singleTableGet table entry opts) b
   = mkRun b [] (Returned [])) /\
  batchPutAll dynamodb rounds cfg table [] logCallback b
  = mkRun b (if logCallback then [EvLogCallback "starting batch write"] else [])
      (Returned tt) /\
  (Keys entry = None ->
   batchGetAll dynamodb rounds cfg (singleTableGet table entry opts) b
   = mkRun b [] (Threw TypeError)) /\
  (forall k keys, Keys entry = Some (k :: keys) ->
   exists response tail,
     emitted (batchGetAll dynamodb (S rounds) cfg
                (singleTableGet table entry opts) b)
     = EvBatchGet
         (getRequest (singleTableGet table entry opts) table entry
            (take (Nat.min (length (k :: keys)) batchGetLimit) (k :: keys)))
         response :: tail).
Proof.
  split; [|split; [|split]].
  - intros Hkeys. rewrite (batchGetAll_single _ _ _ _ [] _ _ Hkeys).
    by destruct rounds.
  - rewrite batchPutAll_single. destruct rounds, logCallback; reflexivity.
  - apply batchGetAll_no_keys.
  - intros k keys Hkeys. rewrite (batchGetAll_single _ _ _ _ _ _ _ Hkeys).
    unfold getAnswer; cbn [emitted]. rewrite getLoop_unfold by done.
    unfold bind.
    destruct (getRound_first_event cfg (singleTableGet table entry opts)
                table entry (getStart cfg (k :: keys)) b)
      as (response & tail & Hev & _).
    cbn [unprocessedKeys getStart] in Hev.
    destruct (getRound _ _ _ _ _ _ _) as [b' evs [st'|e|]];
      cbn [emitted outcome] in *; subst evs; by eauto.
Qed.

Lemma getLoop_malformed cfg batchGetInput table entry st b r :
  GetLoopRun dynamodb cfg batchGetInput table entry st b r ->
  forall request output,
    EvBatchGet request (inr output) ∈ emitted r ->
    ~ wellFormedGet table output ->
    outcome r = Threw TypeError /\
    last (emitted r) = Some (EvBatchGet request (inr output)).
Proof.
  induction 1 as [st b Hq|st b Hq|st b b' evs e' Hne Hpath
                  |st b b' evs st' r Hne Hpath Hrun IH];
    cbn [emitted outcome]; intros request output Hin Hbad.
  - by apply elem_of_nil in Hin.
  - by apply elem_of_nil in Hin.
  - inversion Hpath; subst; apply list_elem_of_singleton in Hin; by simplify_eq.
  - apply elem_of_app in Hin as [Hin|Hin].
    + exfalso.
      inversion Hpath as [| |b1 out1 Hsend Hwf Hres|b1 out1 Hsend Hwf Hres];
        subst; apply elem_of_cons in Hin as [Hin|Hin]; simplify_eq;
        try done; try by apply elem_of_nil in Hin.
      apply elem_of_cons in Hin as [Hin|Hin]; [done|].
      by apply elem_of_nil in Hin.
    + destruct (IH _ _ Hin Hbad) as [Hout Hlast]. split; [done|].
      rewrite last_app, Hlast. done.
Qed.

(** X3: an answer to a get that has no record list for the table, or
    whose unprocessed entry for the table has no [Keys], makes
    [batchGetAll] throw a [TypeError] right after that call: the answer is
    the last event, and what earlier rounds returned is not returned. *)
Theorem malformed_get_answer_throws rounds cfg table entry opts b :
  let call :=
    batchGetAll dynamodb rounds cfg (singleTableGet table entry opts) b in
  forall request output,
    EvBatchGet request (inr output) ∈ emitted call ->
    (Responses output ≫= (.!! table) = None \/
     exists m ka, UnprocessedKeys output = Some m /\ m !! table = Some ka /\
                  Keys ka = None) ->
    outcome call = Threw TypeError /\
    last (emitted call) = Some (EvBatchGet request (inr output)).
Proof.
  intros call request output Hin Hbad. subst call.
  assert (Hnot : ~ wellFormedGet table output).
  { intros [Hrec Hkeys]. destruct Hbad as [Hnone|(m & ka & Hm & Hka & Hnone)].
    - rewrite Hnone in Hrec. by destruct Hrec.
    - destruct (Hkeys m ka Hm Hka) as [ks Hks]. congruence. }
  destruct (Keys entry) as [keys|] eqn:Hkeys.
  - rewrite (batchGetAll_single _ _ _ _ keys) in Hin |- * by done.
    unfold getAnswer in *; cbn [emitted outcome] in *.
    destruct (getLoop_malformed _ _ _ _ _ _ _
                (getLoop_run rounds cfg (singleTableGet table entry opts)
                   table entry (getStart cfg keys) b) _ _ Hin Hnot)
      as [Hout Hlast].
    by rewrite Hout.
  - rewrite batchGetAll_no_keys in Hin by done. by apply elem_of_nil in Hin.
Qed.


(** ** The requests the backend sees *)

Lemma getLoop_requests cfg batchGetInput table entry st b r :
  GetLoopRun dynamodb cfg batchGetInput table entry st b r ->
  Forall (fun request =>
            exists chunk,
              request = getRequest batchGetInput table entry chunk /\
              1 <= length chunk <= batchGetLimit)
    (getRequestsOf (emitted r)).
Proof.
  assert (Hchunk : forall st, unprocessedKeys st <> [] ->
            1 <= length (getChunk st) <= batchGetLimit).
  { intros st0 Hne. rewrite getChunk_length. unfold batchGetLimit.
    destruct (unprocessedKeys st0); [done|simpl; lia]. }
  induction 1 as [st b Hq|st b Hq|st b b' evs e' Hne Hpath
                  |st b b' evs st' r Hne Hpath Hrun IH]; cbn [emitted].
  - constructor.
  - constructor.
  - inversion Hpath; subst; apply Forall_singleton; eauto.
  - unfold getRequestsOf in *. rewrite omap_app, Forall_app. split; [|done].
    inversion Hpath; subst; apply Forall_singleton; eauto.
Qed.

Lemma putLoop_requests cfg table logCallback st b r :
  PutLoopRun dynamodb cfg table logCallback st b r ->
  Forall (fun request =>
            exists chunk,
              request = putRequest table chunk /\
              1 <= length chunk <= batchWriteLimit)
    (putRequestsOf (emitted r)).
Proof.
  assert (Hchunk : forall st, unprocessedItems st <> [] ->
            1 <= length (putChunk st) <= batchWriteLimit).
  { intros st0 Hne. rewrite putChunk_length. unfold batchWriteLimit.
    destruct (unprocessedItems st0); [done|simpl; lia]. }
  induction 1 as [st b Hq|st b Hq|st b b' evs st' r Hne Hpath Hrun IH];
    cbn [emitted]; [constructor|constructor|].
  unfold putRequestsOf in *. rewrite omap_app, Forall_app. split; [|done].
  assert (Hcb : omap (fun e => match e with
                               | EvBatchWrite request _ => Some request
                               | _ => None
                               end) (progressEvents logCallback st) = []).
  { unfold progressEvents. by destruct logCallback. }
  inversion Hpath; subst; rewrite omap_app, Hcb; apply Forall_singleton; eauto.
Qed.

(** X4: every request [batchGetAll] sends names the one table of the
    input, carries between 1 and 100 keys, and passes the options of the
    input and of its table entry through unchanged. *)
Theorem get_requests_shape rounds cfg table entry opts b :
  Forall (fun request =>
            getOptions request = opts /\
            exists chunk,
              getRequestItems request
              = Some {[ table := {| Keys := Some chunk;
                                    tableOptions := tableOptions entry |} ]} /\
              1 <= length chunk <= batchGetLimit)
    (getRequestsOf
       (emitted (batchGetAll dynamodb rounds cfg
                   (singleTableGet table entry opts) b))).
Proof.
  destruct (Keys entry) as [keys|] eqn:Hkeys.
  - rewrite (batchGetAll_single _ _ _ _ keys) by done.
    unfold getAnswer; cbn [emitted].
    eapply Forall_impl;
      [apply (getLoop_requests _ _ _ _ _ _ _
                (getLoop_run rounds cfg (singleTableGet table entry opts)
                   table entry (getStart cfg keys) b))|].
    intros request (chunk & -> & Hlen). split; [done|]. by exists chunk.
  - rewrite batchGetAll_no_keys by done. constructor.
Qed.

(** X5: every request [batchPutAll] sends names the one table it was
    given and carries between 1 and 25 write requests. *)
Theorem put_requests_shape rounds cfg table items logCallback b :
  Forall (fun request =>
            exists chunk,
              writeRequestItems request = Some {[ table := chunk ]} /\
              1 <= length chunk <= batchWriteLimit)
    (putRequestsOf
       (emitted (batchPutAll dynamodb rounds cfg table items logCallback b))).
Proof.
  rewrite batchPutAll_single. unfold putAnswer; cbn [emitted].
  assert (Hbanner : forall tr,
    putRequestsOf
      ((if logCallback then [EvLogCallback "starting batch write"] else []) ++ tr)
    = putRequestsOf tr).
  { intros tr. by destruct logCallback. }
  rewrite Hbanner.
  eapply Forall_impl;
    [apply (putLoop_requests _ _ _ _ _ _
              (putLoop_run rounds cfg table logCallback (putStart cfg items) b))|].
  intros request (chunk & -> & Hlen). by exists chunk.
Qed.

(** ** Rounds and calls of a put call *)

Lemma putLoop_chunks cfg table logCallback st b r :
  PutLoopRun dynamodb cfg table logCallback st b r ->
  Forall (fun n => n <= batchWriteLimit) (putChunkSizes table (emitted r)) /\
  backendCalls (emitted r) = length (putChunkSizes table (emitted r)).
Proof.
  assert (Hchunk : forall st, length (putChunk st) <= batchWriteLimit).
  { intros st0. rewrite putChunk_length. lia. }
  induction 1 as [st b Hq|st b Hq|st b b' evs st' r Hne Hpath Hrun IH];
    cbn [emitted]; [by split|by split|].
  destruct IH as [IHs IHc]. unfold backendCalls, putChunkSizes in *.
  rewrite filter_app, omap_app, !length_app, Forall_app, IHc.
  assert (Hcb : omap (fun e => match e with
                               | EvBatchWrite request _ =>
                                   Some (length (writesOf table request))
                               | _ => None
                               end) (progressEvents logCallback st) = [] /\
                filter isSend (progressEvents logCallback st) = []).
  { unfold progressEvents. by destruct logCallback. }
  destruct Hcb as [Hcb1 Hcb2].
  inversion Hpath; subst; rewrite filter_app, omap_app, Hcb1, Hcb2;
    cbn; rewrite lookup_singleton_eq; cbn;
    (split; [split; [by apply Forall_singleton|done]|done]).
Qed.

Lemma putLoop_calls_exact cfg table logCallback st b r x :
  PutLoopRun dynamodb cfg table logCallback st b r ->
  outcome r = Returned (Exited x) ->
  reportedWrites table (emitted r) = [] ->
  backendCalls (emitted r)
  = chunksNeeded (length (unprocessedItems st)) batchWriteLimit.
Proof.
  induction 1 as [st b Hq|st b Hq|st b b' evs st' r Hne Hpath Hrun IH];
    cbn [outcome emitted]; intros Hx Hno; try done.
  - by rewrite Hq.
  - unfold reportedWrites, backendCalls in *.
    rewrite flat_map_app in Hno. apply app_eq_nil in Hno as [Hno1 Hno2].
    rewrite filter_app, length_app, (IH Hx Hno2).
    rewrite (chunksNeeded_step (length (unprocessedItems st)))
      by (unfold batchWriteLimit; destruct (unprocessedItems st);
          simpl; [done|lia]).
    destruct (progress_submits_nothing table logCallback st) as (_ & Hr & Hf).
    unfold reportedWrites in Hr.
    inversion Hpath as [b1 reason Hsend|b1 output Hsend Hres|b1 output Hsend Hres];
      subst; rewrite filter_app, Hf; cbn [emitted unprocessedItems];
      unfold putRest; rewrite ?length_drop; try done.
    rewrite flat_map_app, Hr in Hno1. cbn in Hno1.
    rewrite app_nil_r in Hno1. done.
Qed.

Lemma putLoop_accepts_all cfg table logCallback :
  acceptsEveryWrite dynamodb table ->
  forall rounds st b,
    chunksNeeded (length (unprocessedItems st)) batchWriteLimit <= rounds ->
    let r := putLoop dynamodb rounds cfg table logCallback st b in
    (exists x, outcome r = Returned (Exited x)) /\
    submittedWrites table (emitted r) = unprocessedItems st /\
    reportedWrites table (emitted r) = [] /\
    waitsOf (emitted r) = [].
Proof.
  intros Hacc rounds.
  induction rounds as [|rounds IH]; intros st b Hle;
    destruct (unprocessedItems st) as [|w ws] eqn:Hq.
  - simpl. rewrite Hq. by eauto.
  - rewrite chunksNeeded_step in Hle by (unfold batchWriteLimit; simpl; lia). lia.
  - simpl. rewrite Hq. by eauto.
  - rewrite chunksNeeded_step in Hle by (unfold batchWriteLimit; simpl; lia).
    destruct (Hacc b (putRequest table (putChunk st)))
      as (b1 & out1 & Hsend1 & Hno1).
    rewrite putLoop_unfold by by rewrite Hq. unfold bind.
    pose proof (putRound_cases cfg table logCallback st b) as Hpath.
    destruct (progress_submits_nothing table logCallback st) as (Hs & Hr & _).
    assert (Hw : waitsOf (progressEvents logCallback st) = []).
    { unfold progressEvents. by destruct logCallback. }
    assert (Hlen : length (putRest st)
                   = length (w :: ws) - Nat.min (length (w :: ws)) batchWriteLimit).
    { unfold putRest. by rewrite length_drop, Hq. }
    inversion Hpath as [b2 reason Hsend Heq|b2 output Hsend Hres Heq
                        |b2 output Hsend Hres Heq];
      rewrite Hsend1 in Hsend; simplify_eq.
    cbn [outcome final emitted].
    set (st' := {| unprocessedItems := putRest st;
                   putBackoff := backoffInitial cfg |}).
    destruct (IH st' b2) as ((x & Hx) & Hsub & Hrep & Hwaits);
      [cbn [st' unprocessedItems]; rewrite Hlen; lia|].
    unfold submittedWrites, reportedWrites, waitsOf in *.
    rewrite !flat_map_app, !omap_app, Hs, Hr, Hw, Hsub, Hrep, Hwaits.
    cbn [flat_map sentWrites residualWritesOf app omap list_omap].
    rewrite writesOf_putRequest, Hres, !app_nil_r.
    split; [by eauto|]. split; [|done].
    rewrite <- Hq. apply putChunk_putRest.
Qed.

(** X6: a [batchPutAll] call on [n] items that returns has made at least
    [ceil(n / 25)] backend calls, and exactly that many when no answer
    reported a residual.  Against a backend that writes everything it is
    given the call returns within [ceil(n / 25)] rounds, after exactly
    that many calls, having submitted every item once, in the order given,
    and without waiting. *)
Theorem batchPutAll_calls rounds cfg table items logCallback b :
  let call := batchPutAll dynamodb rounds cfg table items logCallback b in
  (outcome call = Returned tt ->
   chunksNeeded (length items) batchWriteLimit <= backendCalls (emitted call) /\
   (reportedWrites table (emitted call) = [] ->
    backendCalls (emitted call) = chunksNeeded (length items) batchWriteLimit)) /\
  (acceptsEveryWrite dynamodb table ->
   chunksNeeded (length items) batchWriteLimit <= rounds ->
   outcome call = Returned tt /\
   submittedWrites table (emitted call) = map PutRequest items /\
   backendCalls (emitted call) = chunksNeeded (length items) batchWriteLimit /\
   waitsOf (emitted call) = []).
Proof.
  intros call. subst call. rewrite batchPutAll_single.
  pose proof (putLoop_run rounds cfg table logCallback (putStart cfg items) b)
    as Hrun.
  set (loop := putLoop dynamodb rounds cfg table logCallback
                 (putStart cfg items) b) in *.
  assert (Hbanner : forall tr,
    submittedWrites table
      ((if logCallback then [EvLogCallback "starting batch write"] else []) ++ tr)
    = submittedWrites table tr /\
    reportedWrites table
      ((if logCallback then [EvLogCallback "starting batch write"] else []) ++ tr)
    = reportedWrites table tr /\
    backendCalls
      ((if logCallback then [EvLogCallback "starting batch write"] else []) ++ tr)
    = backendCalls tr /\
    waitsOf
      ((if logCallback then [EvLogCallback "starting batch write"] else []) ++ tr)
    = waitsOf tr).
  { intros tr. by destruct logCallback. }
  unfold putAnswer; cbn [outcome emitted].
  destruct (Hbanner (emitted loop)) as (-> & -> & -> & ->).
  assert (Hdone : forall x, outcome loop = Returned (Exited x) ->
    chunksNeeded (length items) batchWriteLimit <= backendCalls (emitted loop) /\
    (reportedWrites table (emitted loop) = [] ->
     backendCalls (emitted loop) = chunksNeeded (length items) batchWriteLimit)).
  { intros x Hx. split.
    - destruct (putLoop_chunks _ _ _ _ _ _ Hrun) as [Hsizes ->].
      destruct (putLoop_accounting _ _ _ _ _ _ Hrun) as (x' & Hx' & Hperm).
      rewrite Hx in Hx'. injection Hx' as <-.
      apply Permutation_length in Hperm. rewrite !length_app in Hperm.
      cbn [loopState] in Hperm.
      rewrite (putLoop_exited _ _ _ _ _ _ _ Hrun Hx) in Hperm.
      rewrite <- putChunkSizes_sum in Hperm.
      apply list_sum_bound in Hsizes. cbn in Hperm.
      rewrite length_map in Hperm.
      apply chunksNeeded_le; [unfold batchWriteLimit|]; lia.
    - intros Hno.
      rewrite (putLoop_calls_exact _ _ _ _ _ _ _ Hrun Hx Hno).
      cbn. by rewrite length_map. }
  split.
  - destruct (outcome loop) as [[x|x]|e|] eqn:Hx; try done.
    intros _. by apply (Hdone x).
  - intros Hacc Hrounds.
    destruct (putLoop_accepts_all cfg table logCallback Hacc rounds
                (putStart cfg items) b) as ((x & Hx) & Hsub & Hrep & Hwaits).
    { cbn. by rewrite length_map. }
    fold loop in Hx, Hsub, Hrep, Hwaits. rewrite Hx.
    destruct (Hdone x Hx) as [_ Hexact].
    split; [done|]. split; [done|]. split; [by apply Hexact|done].
Qed.


(** ** What the settings cannot change *)

Lemma getRound_settings cfg1 cfg2 batchGetInput table entry st1 st2 b :
  unprocessedKeys st1 = unprocessedKeys st2 ->
  results st1 = results st2 ->
  final (getRound dynamodb cfg1 batchGetInput table entry st1 b)
  = final (getRound dynamodb cfg2 batchGetInput table entry st2 b) /\
  eraseWaits (emitted (getRound dynamodb cfg1 batchGetInput table entry st1 b))
  = eraseWaits (emitted (getRound dynamodb cfg2 batchGetInput table entry st2 b)) /\
  match outcome (getRound dynamodb cfg1 batchGetInput table entry st1 b),
        outcome (getRound dynamodb cfg2 batchGetInput table entry st2 b) with
  | Returned a1, Returned a2 =>
      unprocessedKeys a1 = unprocessedKeys a2 /\ results a1 = results a2
  | Threw e1, Threw e2 => e1 = e2
  | _, _ => False
  end.
Proof.
  intros Hq Hr. unfold getRound, bind, awaitBatchGet, wait, emit, ret.
  rewrite Hq, Hr. cbn [final outcome emitted].
  destruct (sendBatchGet dynamodb b _) as [b' [reason|output]];
    cbn [final outcome emitted]; [done|].
  unfold responseObjects, residualKeys, ret, throw.
  destruct (Responses output) as [m|]; cbn [final outcome emitted]; [|done].
  destruct (m !! table) as [objs|]; cbn [final outcome emitted]; [|done].
  destruct (UnprocessedKeys output) as [u|]; cbn [final outcome emitted];
    [|done].
  destruct (u !! table) as [ka|]; cbn [final outcome emitted]; [|done].
  by destruct (Keys ka) as [[|k ks]|]; cbn.
Qed.

Lemma getLoop_settings cfg1 cfg2 batchGetInput table entry rounds :
  forall st1 st2 b,
    unprocessedKeys st1 = unprocessedKeys st2 ->
    results st1 = results st2 ->
    final (getLoop dynamodb rounds cfg1 batchGetInput table entry st1 b)
    = final (getLoop dynamodb rounds cfg2 batchGetInput table entry st2 b) /\
    eraseWaits
      (emitted (getLoop dynamodb rounds cfg1 batchGetInput table entry st1 b))
    = eraseWaits
        (emitted (getLoop dynamodb rounds cfg2 batchGetInput table entry st2 b)) /\
    outcome
      (getAnswer (getLoop dynamodb rounds cfg1 batchGetInput table entry st1 b))
    = outcome
        (getAnswer (getLoop dynamodb rounds cfg2 batchGetInput table entry st2 b)).
Proof.
  induction rounds as [|rounds IH]; intros st1 st2 b Hq Hr.
  - simpl. rewrite Hq. destruct (unprocessedKeys st2); cbn; by rewrite ?Hr.
  - destruct (unprocessedKeys st2) as [|k ks] eqn:Hq2.
    + simpl. rewrite ?Hq, ?Hq2. cbn. by rewrite Hr.
    + rewrite !getLoop_unfold by (rewrite ?Hq, ?Hq2; done). unfold bind.
      assert (Hqq : unprocessedKeys st1 = unprocessedKeys st2) by congruence.
      destruct (getRound_settings cfg1 cfg2 batchGetInput table entry
                  st1 st2 b Hqq Hr) as (Hf & He & Ho).
      destruct (getRound dynamodb cfg1 batchGetInput table entry st1 b)
        as [b1 e1 o1],
        (getRound dynamodb cfg2 batchGetInput table entry st2 b)
        as [b2 e2 o2].
      cbn [final outcome emitted] in *. subst b2.
      destruct o1 as [a1|x1|], o2 as [a2|x2|]; try done;
        cbn [final outcome emitted getAnswer].
      * destruct Ho as [Hq' Hr'].
        destruct (IH a1 a2 b1 Hq' Hr') as (Hf' & He' & Ho').
        unfold eraseWaits in *. rewrite !filter_app, He, He'.
        by unfold getAnswer in Ho'; cbn in Ho'.
      * by subst.
Qed.

Lemma putRound_settings cfg1 cfg2 table logCallback st1 st2 b :
  unprocessedItems st1 = unprocessedItems st2 ->
  final (putRound dynamodb cfg1 table logCallback st1 b)
  = final (putRound dynamodb cfg2 table logCallback st2 b) /\
  eraseWaits (emitted (putRound dynamodb cfg1 table logCallback st1 b))
  = eraseWaits (emitted (putRound dynamodb cfg2 table logCallback st2 b)) /\
  match outcome (putRound dynamodb cfg1 table logCallback st1 b),
        outcome (putRound dynamodb cfg2 table logCallback st2 b) with
  | Returned a1, Returned a2 => unprocessedItems a1 = unprocessedItems a2
  | _, _ => False
  end.
Proof.
  intros Hq. unfold putRound, bind, callLog, emit, ret, wait,
    awaitBatchWriteCatch.
  rewrite Hq. cbn [final outcome emitted].
  destruct logCallback; cbn [final outcome emitted];
    (destruct (sendBatchWrite dynamodb b _) as [b' [reason|output]];
     cbn [final outcome emitted residualItems]; [done|];
     by destruct (match UnprocessedItems output with
                  | Some m => default [] (m !! table)
                  | None => []
                  end); cbn).
Qed.

Lemma putLoop_settings cfg1 cfg2 table logCallback rounds :
  forall st1 st2 b,
    unprocessedItems st1 = unprocessedItems st2 ->
    final (putLoop dynamodb rounds cfg1 table logCallback st1 b)
    = final (putLoop dynamodb rounds cfg2 table logCallback st2 b) /\
    eraseWaits (emitted (putLoop dynamodb rounds cfg1 table logCallback st1 b))
    = eraseWaits (emitted (putLoop dynamodb rounds cfg2 table logCallback st2 b)) /\
    outcome (putAnswer logCallback
               (putLoop dynamodb rounds cfg1 table logCallback st1 b))
    = outcome (putAnswer logCallback
                 (putLoop dynamodb rounds cfg2 table logCallback st2 b)).
Proof.
  induction rounds as [|rounds IH]; intros st1 st2 b Hq.
  - simpl. rewrite Hq. by destruct (unprocessedItems st2).
  - destruct (unprocessedItems st2) as [|k ks] eqn:Hq2.
    + simpl. by rewrite ?Hq, ?Hq2.
    + rewrite !putLoop_unfold by (rewrite ?Hq, ?Hq2; done). unfold bind.
      assert (Hqq : unprocessedItems st1 = unprocessedItems st2) by congruence.
      destruct (putRound_settings cfg1 cfg2 table logCallback st1 st2 b Hqq)
        as (Hf & He & Ho).
      destruct (putRound dynamodb cfg1 table logCallback st1 b) as [b1 e1 o1],
               (putRound dynamodb cfg2 table logCallback st2 b) as [b2 e2 o2].
      cbn [final outcome emitted] in *. subst b2.
      destruct o1 as [a1|x1|], o2 as [a2|x2|]; try done.
      cbn [final outcome emitted].
      destruct (IH a1 a2 b1 Ho) as (Hf' & He' & Ho').
      unfold eraseWaits in *. rewrite !filter_app, He, He'.
      by unfold putAnswer in *; cbn in *.
Qed.

(** X8: the backoff settings decide how long a call waits and nothing
    else.  Under any two settings [batchGetAll], and likewise
    [batchPutAll], send the same requests in the same order, leave the
    backend in the same state and end the same way; the traces differ in
    the lengths of their waits at most. *)
Theorem settings_only_change_waits rounds cfg1 cfg2 batchGetInput table items
    logCallback b :
  let get1 := batchGetAll dynamodb rounds cfg1 batchGetInput b in
  let get2 := batchGetAll dynamodb rounds cfg2 batchGetInput b in
  let put1 := batchPutAll dynamodb rounds cfg1 table items logCallback b in
  let put2 := batchPutAll dynamodb rounds cfg2 table items logCallback b in
  (final get1 = final get2 /\ outcome get1 = outcome get2 /\
   eraseWaits (emitted get1) = eraseWaits (emitted get2)) /\
  (final put1 = final put2 /\ outcome put1 = outcome put2 /\
   eraseWaits (emitted put1) = eraseWaits (emitted put2)).
Proof.
  intros get1 get2 put1 put2. split.
  - subst get1 get2. unfold batchGetAll.
    destruct (getRequestItems batchGetInput) as [requestItems|]; [|done].
    destruct (decide _); [done|].
    destruct (head (objectKeys requestItems)) as [t|]; [|done].
    destruct (requestItems !! t) as [entry|]; [|done].
    destruct (Keys entry) as [keys|]; [|done].
    destruct (getLoop_settings cfg1 cfg2 batchGetInput t entry rounds
                {| unprocessedKeys := keys; results := [];
                   backoff := backoffInitial cfg1 |}
                {| unprocessedKeys := keys; results := [];
                   backoff := backoffInitial cfg2 |} b eq_refl eq_refl)
      as (Hf & He & Ho).
    unfold bind, getAnswer in *. cbn [outcome] in Ho.
    destruct (getLoop dynamodb rounds cfg1 _ _ _ _ _) as [b1 e1 [[x1|x1]|y1|]],
             (getLoop dynamodb rounds cfg2 _ _ _ _ _) as [b2 e2 [[x2|x2]|y2|]];
      cbn in *; rewrite ?app_nil_r; try done.
  - subst put1 put2. rewrite !batchPutAll_single.
    destruct (putLoop_settings cfg1 cfg2 table logCallback rounds
                (putStart cfg1 items) (putStart cfg2 items) b eq_refl)
      as (Hf & He & Ho).
    unfold putAnswer in *; cbn [final outcome emitted] in *.
    split; [done|]. split; [done|].
    unfold eraseWaits in *. by rewrite !filter_app, He.
Qed.


(** ** Whether a get call ends *)

Lemma getRound_residual cfg batchGetInput table entry st b b' output :
  sendBatchGet dynamodb b (getRequest batchGetInput table entry (getChunk st))
    = (b', inr output) ->
  wellFormedGet table output ->
  getRound dynamodb cfg batchGetInput table entry st b
  = match unprocessedOf table output with
    | [] =>
        mkRun b'
          [EvBatchGet (getRequest batchGetInput table entry (getChunk st))
             (inr output)]
          (Returned {| unprocessedKeys := getRest st;
                       results := results st ++ recordsOf table output;
                       backoff := backoffInitial cfg |})
    | _ :: _ =>
        mkRun b'
          [EvBatchGet (getRequest batchGetInput table entry (getChunk st))
             (inr output);
           EvWait (backoff st)]
          (Returned {| unprocessedKeys := unprocessedOf table output ++ getRest st;
                       results := results st ++ recordsOf table output;
                       backoff := Z.min (backoff st * backoffFactor cfg)
                                        (backoffMax cfg) |})
    end.
Proof.
  intros Hsend Hwf.
  pose proof (getRound_cases cfg batchGetInput table entry st b) as Hpath.
  inversion Hpath as [b1 reason1 Hsend1 Heq|b1 output1 Hsend1 Hbad Heq
                      |b1 output1 Hsend1 Hwf1 Hres Heq
                      |b1 output1 Hsend1 Hwf1 Hres Heq];
    rewrite Hsend in Hsend1; simplify_eq.
  - done.
  - by rewrite Hres.
  - by destruct (unprocessedOf table output1).
Qed.

Lemma getLoop_stuck cfg batchGetInput table entry :
  alwaysThrottles dynamodb table ->
  forall rounds st b,
    unprocessedKeys st <> [] ->
    let r := getLoop dynamodb rounds cfg batchGetInput table entry st b in
    (exists st', outcome r = Returned (Running st') /\
                 unprocessedKeys st' = unprocessedKeys st) /\
    backendCalls (emitted r) = rounds /\
    length (waitsOf (emitted r)) = rounds /\
    Forall (fun request =>
              request = getRequest batchGetInput table entry (getChunk st))
      (getRequestsOf (emitted r)).
Proof.
  intros Hstuck rounds.
  induction rounds as [|rounds IH]; intros st b Hne.
  - simpl. destruct (unprocessedKeys st) eqn:Hq; [done|].
    cbn. split; [by eauto|]. by repeat split.
  - cbn zeta. rewrite getLoop_unfold by done. unfold bind.
    destruct (Hstuck b (getRequest batchGetInput table entry (getChunk st)))
      as (b' & output & Hsend & Hwf & Hres).
    rewrite keysOf_getRequest in Hres.
    rewrite (getRound_residual _ _ _ _ _ _ _ _ Hsend Hwf), Hres.
    assert (Hchunk : getChunk st <> []).
    { intros Hnil. apply (f_equal length) in Hnil.
      rewrite getChunk_length in Hnil. unfold batchGetLimit in Hnil.
      destruct (unprocessedKeys st); [done|simpl in Hnil; lia]. }
    destruct (getChunk st) as [|k ks] eqn:Hc; [done|].
    cbn [outcome final emitted].
    set (st' := {| unprocessedKeys := (k :: ks) ++ getRest st;
                   results := results st ++ recordsOf table output;
                   backoff := Z.min (backoff st * backoffFactor cfg)
                                    (backoffMax cfg) |}).
    assert (Hsame : unprocessedKeys st' = unprocessedKeys st).
    { cbn [st' unprocessedKeys]. rewrite <- Hc. apply getChunk_getRest. }
    assert (Hchunk' : getChunk st' = k :: ks).
    { unfold getChunk. rewrite Hsame. exact Hc. }
    destruct (IH st' b') as ((st'' & Hout & Hq) & Hcalls & Hwaits & Hreqs).
    { rewrite Hsame. done. }
    rewrite Hchunk' in Hreqs.
    split; [exists st''; split; [done|congruence]|].
    unfold backendCalls, waitsOf, getRequestsOf in *.
    rewrite filter_app, !omap_app, !length_app, Hcalls, Hwaits, Forall_app.
    split; [done|]. split; [done|]. split; [|done].
    by apply Forall_singleton.
Qed.

(** X9: there is no limit on the number of rounds of a get call.  Against
    a backend that returns every key it is asked for as unprocessed, a
    call with at least one key is still running after any number of
    rounds: each round sends the same first chunk again and waits. *)
Theorem batchGetAll_no_retry_limit rounds cfg table entry opts k keys b :
  alwaysThrottles dynamodb table ->
  Keys entry = Some (k :: keys) ->
  let call :=
    batchGetAll dynamodb rounds cfg (singleTableGet table entry opts) b in
  outcome call = Unfinished /\
  backendCalls (emitted call) = rounds /\
  length (waitsOf (emitted call)) = rounds /\
  Forall (fun request =>
            request = getRequest (singleTableGet table entry opts) table entry
                        (take (Nat.min (length (k :: keys)) batchGetLimit)
                           (k :: keys)))
    (getRequestsOf (emitted call)).
Proof.
  intros Hstuck Hkeys call. subst call.
  rewrite (batchGetAll_single _ _ _ _ _ _ _ Hkeys).
  destruct (getLoop_stuck cfg (singleTableGet table entry opts) table entry
              Hstuck rounds (getStart cfg (k :: keys)) b)
    as ((st' & Hout & _) & Hcalls & Hwaits & Hreqs); [done|].
  unfold getAnswer; cbn [outcome emitted]. by rewrite Hout.
Qed.

Lemma chunksNeeded_mono n m limit :
  n <= m -> chunksNeeded n limit <= chunksNeeded m limit.
Proof. intros Hle. unfold chunksNeeded. apply Nat.Div0.div_le_mono. lia. Qed.

Lemma getLoop_calls_le_rounds cfg batchGetInput table entry rounds :
  forall st b,
    backendCalls
      (emitted (getLoop dynamodb rounds cfg batchGetInput table entry st b))
    <= rounds.
Proof.
  induction rounds as [|rounds IH]; intros st b.
  - simpl. by destruct (unprocessedKeys st).
  - destruct (unprocessedKeys st) as [|k ks] eqn:Hq.
    + simpl. rewrite Hq. cbn. lia.
    + rewrite getLoop_unfold by by rewrite Hq. unfold bind.
      pose proof (getRound_cases cfg batchGetInput table entry st b) as Hpath.
      destruct (getRound dynamodb cfg batchGetInput table entry st b)
        as [b1 evs [st'|e|]]; cbn [outcome final emitted];
        unfold backendCalls in *; rewrite ?filter_app, ?length_app.
      * specialize (IH st' b1). inversion Hpath; subst; simpl in *; lia.
      * inversion Hpath; subst; simpl; lia.
      * inversion Hpath.
Qed.

Lemma getLoop_terminates_fairly cfg batchGetInput table entry credit :
  throttlesFairly dynamodb table credit ->
  forall rounds st b,
    credit b + chunksNeeded (length (unprocessedKeys st)) batchGetLimit <= rounds ->
    exists x, outcome (getLoop dynamodb rounds cfg batchGetInput table entry st b)
              = Returned (Exited x).
Proof.
  intros Hfair rounds.
  induction rounds as [|rounds IH]; intros st b Hle.
  - simpl. destruct (unprocessedKeys st) as [|k ks] eqn:Hq; [by eexists|].
    rewrite chunksNeeded_step in Hle by (unfold batchGetLimit; simpl; lia). lia.
  - destruct (unprocessedKeys st) as [|k ks] eqn:Hq.
    + simpl. rewrite Hq. by eexists.
    + rewrite chunksNeeded_step in Hle by (unfold batchGetLimit; simpl; lia).
      destruct (Hfair b (getRequest batchGetInput table entry (getChunk st)))
        as (b' & output & Hsend & Hwf & Hcases).
      rewrite keysOf_getRequest in Hcases.
      rewrite getLoop_unfold by by rewrite Hq. unfold bind.
      rewrite (getRound_residual _ _ _ _ _ _ _ _ Hsend Hwf).
      assert (Hrest : length (getRest st)
                      = length (k :: ks) - Nat.min (length (k :: ks)) batchGetLimit).
      { unfold getRest. by rewrite length_drop, Hq. }
      destruct (unprocessedOf table output) as [|u us] eqn:Hu;
        cbn [outcome final emitted]; apply IH; cbn [unprocessedKeys].
      * rewrite Hrest. destruct Hcases as [[_ Hc]|[_ Hc]]; lia.
      * destruct Hcases as [[? _]|[Hlen Hc]]; [done|].
        assert (Hmono :
          chunksNeeded (length ((u :: us) ++ getRest st)) batchGetLimit
          <= chunksNeeded (length (k :: ks)) batchGetLimit).
        { apply chunksNeeded_mono. rewrite length_app.
          pose proof (f_equal length (getChunk_getRest st)) as Hsum.
          rewrite length_app, Hq in Hsum. lia. }
        rewrite (chunksNeeded_step (length (k :: ks))) in Hmono
          by (unfold batchGetLimit; simpl; lia).
        lia.
Qed.

(** X10: a get call ends when the backend stops throttling.  Against
    a backend that always answers, whose residuals are no longer than the
    chunk they answer and which has at most [credit] answers with residual
    left to give, a call on [n] keys returns within
    [credit + ceil(n / 100)] rounds, with the records of all answers. *)
Theorem batchGetAll_ends_when_throttling_ends rounds cfg table entry opts keys
    credit b :
  throttlesFairly dynamodb table credit ->
  Keys entry = Some keys ->
  credit b + chunksNeeded (length keys) batchGetLimit <= rounds ->
  let call :=
    batchGetAll dynamodb rounds cfg (singleTableGet table entry opts) b in
  outcome call = Returned (returnedBy table (emitted call)) /\
  backendCalls (emitted call) <= rounds.
Proof.
  intros Hfair Hkeys Hrounds call. subst call.
  rewrite (batchGetAll_single _ _ _ _ _ _ _ Hkeys).
  pose proof (getLoop_run rounds cfg (singleTableGet table entry opts)
                table entry (getStart cfg keys) b) as Hrun.
  destruct (getLoop_terminates_fairly cfg (singleTableGet table entry opts)
              table entry credit Hfair rounds (getStart cfg keys) b Hrounds)
    as [x Hx].
  unfold getAnswer; cbn [outcome emitted]. rewrite Hx. split.
  - f_equal. apply (getLoop_results _ _ _ _ _ _ _ _ Hrun Hx).
  - apply getLoop_calls_le_rounds.
Qed.


(** ** When a call waits *)

Lemma residualRounds_cons table e tr :
  residualRounds table (e :: tr)
  = (if bool_decide (reportsResidual table e = Some true) then 1 else 0)
    + residualRounds table tr.
Proof.
  unfold residualRounds. rewrite filter_cons.
  destruct (decide _) as [Hd|Hd];
    destruct (bool_decide (reportsResidual table e = Some true));
    cbn in *; tauto.
Qed.

Lemma residualRounds_app table tr1 tr2 :
  residualRounds table (tr1 ++ tr2)
  = residualRounds table tr1 + residualRounds table tr2.
Proof. unfold residualRounds. by rewrite filter_app, length_app. Qed.

Lemma getLoop_waits cfg batchGetInput table entry st b r :
  GetLoopRun dynamodb cfg batchGetInput table entry st b r ->
  length (waitsOf (completedRounds r)) = residualRounds table (completedRounds r).
Proof.
  induction 1 as [st b Hq|st b Hq|st b b' evs e' Hne Hpath
                  |st b b' evs st' r Hne Hpath Hrun IH].
  - done.
  - done.
  - inversion Hpath; subst; done.
  - rewrite completedRounds_app
      by (intros e; by apply (getLoop_throw_emits _ _ _ _ _ _ _ _ Hrun)).
    unfold waitsOf in *. rewrite omap_app, length_app, residualRounds_app, IH.
    f_equal.
    inversion Hpath as [| |b1 output Hsend Hwf Hres|b1 output Hsend Hwf Hres];
      subst; rewrite !residualRounds_cons; cbn.
    + by rewrite Hres.
    + by destruct (unprocessedOf table output).
Qed.

Lemma putLoop_waits cfg table logCallback st b r :
  PutLoopRun dynamodb cfg table logCallback st b r ->
  length (waitsOf (emitted r)) = residualRounds table (emitted r).
Proof.
  induction 1 as [st b Hq|st b Hq|st b b' evs st' r Hne Hpath Hrun IH];
    [done|done|].
  cbn [emitted]. unfold waitsOf in *.
  rewrite omap_app, length_app, residualRounds_app, IH. f_equal.
  assert (Hcb : omap (fun e => match e with EvWait w => Some w | _ => None end)
                  (progressEvents logCallback st) = [] /\
                residualRounds table (progressEvents logCallback st) = 0).
  { unfold progressEvents. by destruct logCallback. }
  destruct Hcb as [Hcb1 Hcb2].
  inversion Hpath as [b1 reason Hsend|b1 output Hsend Hres|b1 output Hsend Hres];
    subst; rewrite omap_app, length_app, residualRounds_app, Hcb1, Hcb2,
             !residualRounds_cons;
    cbn [omap list_omap length reportsResidual residualWritesOf].
  - done.
  - by rewrite Hres.
  - by destruct (residualItems table (Some output)).
Qed.

Lemma getLoop_exit_emits cfg batchGetInput table entry st b r x :
  GetLoopRun dynamodb cfg batchGetInput table entry st b r ->
  unprocessedKeys st <> [] ->
  outcome r = Returned (Exited x) -> emitted r <> [].
Proof.
  intros Hrun Hne. inversion Hrun as [| | |st0 b0 b' evs st' r' _ Hpath _];
    subst; cbn [outcome emitted]; try done.
  intros _. inversion Hpath; subst; done.
Qed.

Lemma getLoop_last_not_wait cfg batchGetInput table entry st b r x :
  GetLoopRun dynamodb cfg batchGetInput table entry st b r ->
  outcome r = Returned (Exited x) ->
  forall w, last (emitted r) <> Some (EvWait w).
Proof.
  induction 1 as [st b Hq|st b Hq|st b b' evs e' Hne Hpath
                  |st b b' evs st' r Hne Hpath Hrun IH];
    cbn [outcome emitted]; intros Hx w; try done.
  destruct (emitted r) as [|e tr] eqn:Hem.
  - rewrite app_nil_r.
    inversion Hpath as [| |b1 output Hsend Hwf Hres|b1 output Hsend Hwf Hres];
      subst; [done|].
    exfalso. apply (getLoop_exit_emits _ _ _ _ _ _ _ x Hrun); [|done|done].
    cbn. by destruct (unprocessedOf table output).
  - rewrite last_app. cbn in IH. specialize (IH Hx w).
    destruct (last (e :: tr)) eqn:Hl; [done|]. by apply last_None in Hl.
Qed.

Lemma putLoop_exit_emits cfg table logCallback st b r x :
  PutLoopRun dynamodb cfg table logCallback st b r ->
  unprocessedItems st <> [] ->
  outcome r = Returned (Exited x) -> emitted r <> [].
Proof.
  intros Hrun Hne. inversion Hrun as [| |st0 b0 b' evs st' r' _ Hpath _];
    subst; cbn [outcome emitted]; try done.
  intros _. inversion Hpath; subst; by destruct logCallback.
Qed.

Lemma putLoop_last_not_wait cfg table logCallback st b r x :
  PutLoopRun dynamodb cfg table logCallback st b r ->
  outcome r = Returned (Exited x) ->
  forall w, last (emitted r) <> Some (EvWait w).
Proof.
  induction 1 as [st b Hq|st b Hq|st b b' evs st' r Hne Hpath Hrun IH];
    cbn [outcome emitted]; intros Hx w; try done.
  destruct (emitted r) as [|e tr] eqn:Hem.
  - rewrite app_nil_r.
    inversion Hpath as [b1 reason Hsend|b1 output Hsend Hres|b1 output Hsend Hres];
      subst; rewrite last_app; cbn; [done|done|].
    exfalso. apply (putLoop_exit_emits _ _ _ _ _ _ x Hrun); [|done|done].
    cbn [unprocessedItems]. intros Happ. by apply app_eq_nil in Happ as [? _].
  - rewrite last_app. cbn in IH. specialize (IH Hx w).
    destruct (last (e :: tr)) eqn:Hl; [done|]. by apply last_None in Hl.
Qed.

Lemma getLoop_waitsInPlace cfg batchGetInput table entry st b r :
  GetLoopRun dynamodb cfg batchGetInput table entry st b r ->
  waitsInPlace table false (completedRounds r) = true.
Proof.
  induction 1 as [st b Hq|st b Hq|st b b' evs e' Hne Hpath
                  |st b b' evs st' r Hne Hpath Hrun IH].
  - done.
  - done.
  - inversion Hpath; subst; done.
  - rewrite completedRounds_app
      by (intros e; by apply (getLoop_throw_emits _ _ _ _ _ _ _ _ Hrun)).
    inversion Hpath as [| |b1 output Hsend Hwf Hres|b1 output Hsend Hwf Hres]; subst.
    + simpl. by rewrite Hres.
    + simpl. by destruct (unprocessedOf table output) eqn:Hu.
Qed.

Lemma putLoop_waitsInPlace cfg table logCallback st b r :
  PutLoopRun dynamodb cfg table logCallback st b r ->
  waitsInPlace table false (emitted r) = true.
Proof.
  induction 1 as [st b Hq|st b Hq|st b b' evs st' r Hne Hpath Hrun IH];
    [done|done|].
  assert (Hskip : forall tr,
    waitsInPlace table false (progressEvents logCallback st ++ tr)
    = waitsInPlace table false tr).
  { intros tr. unfold progressEvents. by destruct logCallback. }
  inversion Hpath as [b1 reason Hsend|b1 output Hsend Hres|b1 output Hsend Hres];
    subst; cbn [emitted]; rewrite <- app_assoc, Hskip.
  - done.
  - cbn [app waitsInPlace reportsResidual residualWritesOf].
    by rewrite Hres.
  - cbn [app waitsInPlace reportsResidual residualWritesOf].
    by destruct (residualItems table (Some output)) eqn:Hu.
Qed.

(** X11: under any settings, in a get call and in a put call every round
    that reports a residual is followed at once by a wait and no wait
    occurs anywhere else; so there are as many waits as rounds with
    residual, and a call that returns does not end on a wait: its last
    round reported no residual. *)
Theorem waits_follow_residual_rounds rounds cfg table entry opts items
    logCallback b :
  let get :=
    batchGetAll dynamodb rounds cfg (singleTableGet table entry opts) b in
  let put := batchPutAll dynamodb rounds cfg table items logCallback b in
  waitsInPlace table false (completedRounds get) = true /\
  waitsInPlace table false (emitted put) = true /\
  length (waitsOf (completedRounds get))
  = residualRounds table (completedRounds get) /\
  length (waitsOf (emitted put)) = residualRounds table (emitted put) /\
  (forall records w,
     outcome get = Returned records -> last (emitted get) <> Some (EvWait w)) /\
  (forall w, outcome put = Returned tt -> last (emitted put) <> Some (EvWait w)).
Proof.
  intros get put. subst get put.
  pose proof (putLoop_run rounds cfg table logCallback (putStart cfg items) b)
    as Hput.
  rewrite batchPutAll_single.
  set (ploop := putLoop dynamodb rounds cfg table logCallback
                  (putStart cfg items) b) in *.
  assert (Hputs :
    waitsInPlace table false (emitted (putAnswer logCallback ploop)) = true /\
    length (waitsOf (emitted (putAnswer logCallback ploop)))
    = residualRounds table (emitted (putAnswer logCallback ploop)) /\
    (forall w, outcome (putAnswer logCallback ploop) = Returned tt ->
               last (emitted (putAnswer logCallback ploop)) <> Some (EvWait w))).
  { unfold putAnswer; cbn [outcome emitted]. split; [|split].
    - pose proof (putLoop_waitsInPlace _ _ _ _ _ _ Hput) as Hw.
      by destruct logCallback.
    - pose proof (putLoop_waits _ _ _ _ _ _ Hput) as Hw.
      destruct logCallback; cbn [app]; [|done].
      rewrite residualRounds_cons. cbn. exact Hw.
    - intros w. destruct (outcome ploop) as [[x|x]|e|] eqn:Hx; try done.
      intros _. pose proof (putLoop_last_not_wait _ _ _ _ _ _ _ Hput Hx w) as Hl.
      destruct logCallback; cbn [app]; [|done].
      rewrite last_cons. by destruct (last (emitted ploop)). }
  destruct Hputs as (Hp0 & Hp1 & Hp2).
  destruct (Keys entry) as [keys|] eqn:Hkeys.
  - rewrite (batchGetAll_single _ _ _ _ keys) by done.
    pose proof (getLoop_run rounds cfg (singleTableGet table entry opts)
                  table entry (getStart cfg keys) b) as Hget.
    set (gloop := getLoop dynamodb rounds cfg (singleTableGet table entry opts)
                    table entry (getStart cfg keys) b) in *.
    split; [|split; [done|split; [|split; [done|split; [|done]]]]].
    + pose proof (getLoop_waitsInPlace _ _ _ _ _ _ _ Hget) as Hw.
      unfold completedRounds, getAnswer in *; cbn [outcome emitted].
      by destruct (outcome gloop) as [[?|?]|?|].
    + pose proof (getLoop_waits _ _ _ _ _ _ _ Hget) as Hw.
      unfold completedRounds, getAnswer in *; cbn [outcome emitted].
      by destruct (outcome gloop) as [[?|?]|?|].
    + intros records w. unfold getAnswer; cbn [outcome emitted].
      destruct (outcome gloop) as [[x|x]|e|] eqn:Hx; try done.
      intros _. by apply (getLoop_last_not_wait _ _ _ _ _ _ _ _ Hget Hx).
  - rewrite batchGetAll_no_keys by done. by repeat split.
Qed.


(** ** More on scanning *)

Lemma scanLoop_no_waits st b r :
  ScanLoopRun dynamodb st b r ->
  waitsOf (emitted r) = [] /\
  length (filter isStdout (emitted r)) = length (cursorsOf (emitted r)).
Proof.
  induction 1 as [st b|st b b' evs e Hpath|st b b' evs st' Hpath Hc
                  |st b b' evs st' r Hpath Hc Hrun IH]; cbn [emitted].
  - done.
  - inversion Hpath; subst; done.
  - inversion Hpath; subst; done.
  - destruct IH as [IHw IHl]. unfold waitsOf, cursorsOf in *.
    rewrite !omap_app, filter_app, !length_app, IHw, IHl.
    inversion Hpath; subst; done.
Qed.

Lemma scanLoop_first_call rounds st b :
  1 <= backendCalls (emitted (scanLoop dynamodb (S rounds) st b)).
Proof.
  cbn [scanLoop]. unfold bind.
  pose proof (scanRound_cases st b) as Hpath.
  destruct (scanRound dynamodb st b) as [b1 evs [st'|e|]];
    cbn [outcome final emitted]; unfold backendCalls;
    rewrite ?filter_app, ?length_app;
    inversion Hpath; subst; simpl; lia.
Qed.

(** X12: [batchScanAll] never waits and never sends a request twice over a
    rejection: it has no backoff.  It calls the backend at least once,
    whatever the table holds; it prints one progress line per answered
    call between its first and its last line; and the count its last line
    prints is the length of the list it returns. *)
Theorem batchScanAll_no_backoff rounds input b :
  let call := batchScanAll dynamodb rounds input b in
  waitsOf (emitted call) = [] /\
  (1 <= rounds -> 1 <= backendCalls (emitted call)) /\
  length (filter isStdout (emitted call))
  = length (cursorsOf (emitted call)) /\
  (forall records,
     outcome call = Returned records ->
     last (emitted call)
     = Some (EvConsoleLog ("total items: " +:+ pretty (length records)))).
Proof.
  intros call. subst call. rewrite batchScanAll_cases.
  cbn [emitted outcome].
  set (start := {| scanInput := input; scanResults := []; lastEvalKey := None |}).
  pose proof (scanLoop_run rounds start b) as Hrun.
  set (loop := scanLoop dynamodb rounds start b) in *.
  destruct (scanLoop_no_waits _ _ _ Hrun) as [Hw Hstd].
  split; [|split; [|split]].
  - unfold waitsOf in *. cbn. rewrite omap_app, Hw.
    by destruct (outcome loop) as [[?|?]|?|].
  - intros Hrounds. destruct rounds as [|rounds]; [lia|].
    pose proof (scanLoop_first_call rounds start b) as Hfirst.
    fold loop in Hfirst. unfold backendCalls in *.
    rewrite filter_cons. destruct (decide _) as [Hd|_]; [by cbn in Hd|].
    rewrite filter_app, length_app. lia.
  - unfold cursorsOf in *.
    rewrite filter_cons. destruct (decide _) as [Hd|_]; [by cbn in Hd|].
    cbn [omap list_omap]. rewrite filter_app, omap_app, !length_app, Hstd.
    by destruct (outcome loop) as [[?|?]|?|].
  - intros records Hret.
    destruct (outcome loop) as [[x|x]|e|]; try done.
    injection Hret as <-. rewrite last_cons, last_snoc. done.
Qed.

Lemma scanLoop_endless :
  alwaysMorePages dynamodb ->
  forall rounds st b,
    (exists st', outcome (scanLoop dynamodb rounds st b) = Returned (Running st')) /\
    backendCalls (emitted (scanLoop dynamodb rounds st b)) = rounds.
Proof.
  intros Hmore rounds.
  induction rounds as [|rounds IH]; intros st b.
  - cbn. by eauto.
  - destruct (Hmore b (scanRequest st)) as (b' & output & c & Hsend & Hc).
    rewrite (scanLoop_more rounds st b b' output c Hsend Hc).
    cbn [outcome emitted].
    destruct (IH (scanNext st output) b') as [Hout Hcalls].
    split; [done|]. unfold backendCalls in *.
    rewrite filter_app, length_app, Hcalls. done.
Qed.

(** X13: there is no limit on the number of pages of a scan.  Against a
    backend whose every answer carries a cursor, [batchScanAll] is still
    running after any number of rounds, one backend call in each. *)
Theorem batchScanAll_no_page_limit rounds input b :
  alwaysMorePages dynamodb ->
  let call := batchScanAll dynamodb rounds input b in
  outcome call = Unfinished /\ backendCalls (emitted call) = rounds.
Proof.
  intros Hmore call. subst call. rewrite batchScanAll_cases.
  cbn [emitted outcome].
  destruct (scanLoop_endless Hmore rounds
              {| scanInput := input; scanResults := []; lastEvalKey := None |} b)
    as [(st' & Hout) Hcalls].
  rewrite Hout. split; [done|].
  unfold backendCalls in *. cbn. by rewrite app_nil_r.
Qed.

(** ** The shipped build *)

Lemma dist_scanRound_same st b :
  final (dist_scanRound dynamodb st b) = final (scanRound dynamodb st b) /\
  outcome (dist_scanRound dynamodb st b) = outcome (scanRound dynamodb st b) /\
  eraseLogLines (emitted (dist_scanRound dynamodb st b))
  = eraseLogLines (emitted (scanRound dynamodb st b)).
Proof.
  unfold dist_scanRound, scanRound, bind, awaitScan, emit, ret.
  by destruct (sendScan dynamodb b _) as [b' [reason|output]].
Qed.

Lemma dist_scanLoop_same rounds :
  forall st b,
    final (dist_scanLoop dynamodb rounds st b)
    = final (scanLoop dynamodb rounds st b) /\
    outcome (dist_scanLoop dynamodb rounds st b)
    = outcome (scanLoop dynamodb rounds st b) /\
    eraseLogLines (emitted (dist_scanLoop dynamodb rounds st b))
    = eraseLogLines (emitted (scanLoop dynamodb rounds st b)).
Proof.
  induction rounds as [|rounds IH]; intros st b; [done|].
  cbn [dist_scanLoop scanLoop]. unfold bind.
  destruct (dist_scanRound_same st b) as (Hf & Ho & He).
  destruct (dist_scanRound dynamodb st b) as [b1 e1 o1],
           (scanRound dynamodb st b) as [b2 e2 o2].
  cbn [final outcome emitted] in *. subst b2 o2.
  destruct o1 as [st'|e|]; cbn [final outcome emitted]; try done.
  destruct (lastEvalKey st') as [c|].
  - destruct (IH st' b1) as (Hf' & Ho' & He').
    unfold eraseLogLines in *. by rewrite !filter_app, He, He', Hf', Ho'.
  - unfold ret; cbn. by rewrite !app_nil_r.
Qed.

Lemma dist_batchScanAll_cases rounds input b :
  let loop := dist_scanLoop dynamodb rounds
                {| scanInput := input; scanResults := []; lastEvalKey := None |}
                b in
  dist_batchScanAll dynamodb rounds input b
  = mkRun (final loop)
      (EvConsoleLog ("getting all items for " +:+ showString (TableName input))
       :: emitted loop ++
          match outcome loop with
          | Returned (Exited st) =>
              [EvConsoleLog
                 ("total items: " +:+ pretty (length (scanResults st)))]
          | _ => []
          end)
      match outcome loop with
      | Returned (Exited st) => Returned (scanResults st)
      | Returned (Running _) => Unfinished
      | Threw e => Threw e
      | Unfinished => Unfinished
      end.
Proof.
  intros loop. unfold dist_batchScanAll, bind, emit.
  cbn [outcome final emitted].
  fold loop. destruct (outcome loop) as [[st|st]|e|]; simpl;
    by rewrite ?app_nil_r.
Qed.



(** ** Whether a put call ends, and a get call answered in full *)

Lemma putRound_answered cfg table logCallback st b b' output :
  sendBatchWrite dynamodb b (putRequest table (putChunk st)) = (b', inr output) ->
  putRound dynamodb cfg table logCallback st b
  = match residualItems table (Some output) with
    | [] =>
        mkRun b'
          (progressEvents logCallback st ++
           [EvBatchWrite (putRequest table (putChunk st)) (inr output)])
          (Returned {| unprocessedItems := putRest st;
                       putBackoff := backoffInitial cfg |})
    | _ :: _ =>
        mkRun b'
          (progressEvents logCallback st ++
           [EvBatchWrite (putRequest table (putChunk st)) (inr output);
            EvWait (putBackoff st)])
          (Returned {| unprocessedItems :=
                         residualItems table (Some output) ++ putRest st;
                       putBackoff :=
                         Z.min (putBackoff st * backoffFactor cfg)
                               (backoffMax cfg) |})
    end.
Proof.
  intros Hsend.
  pose proof (putRound_cases cfg table logCallback st b) as Hpath.
  inversion Hpath as [b1 reason1 Hsend1 Heq|b1 output1 Hsend1 Hres Heq
                      |b1 output1 Hsend1 Hres Heq];
    rewrite Hsend in Hsend1; simplify_eq.
  - by rewrite Hres.
  - fold (residualItems table (Some output1)).
    by destruct (residualItems table (Some output1)).
Qed.

Lemma putLoop_stuck cfg table logCallback :
  neverWrites dynamodb table ->
  forall rounds st b,
    unprocessedItems st <> [] ->
    let r := putLoop dynamodb rounds cfg table logCallback st b in
    (exists st', outcome r = Returned (Running st') /\
                 unprocessedItems st' = unprocessedItems st) /\
    backendCalls (emitted r) = rounds /\
    length (waitsOf (emitted r)) = rounds /\
    Forall (fun request => request = putRequest table (putChunk st))
      (putRequestsOf (emitted r)).
Proof.
  intros Hstuck rounds.
  induction rounds as [|rounds IH]; intros st b Hne.
  - simpl. destruct (unprocessedItems st) eqn:Hq; [done|].
    cbn. split; [by eauto|]. by repeat split.
  - cbn zeta. rewrite putLoop_unfold by done. unfold bind.
    destruct (Hstuck b (putRequest table (putChunk st)))
      as (b' & output & Hsend & Hres).
    rewrite writesOf_putRequest in Hres.
    rewrite (putRound_answered _ _ _ _ _ _ _ Hsend), Hres.
    assert (Hchunk : putChunk st <> []).
    { intros Hnil. apply (f_equal length) in Hnil.
      rewrite putChunk_length in Hnil. unfold batchWriteLimit in Hnil.
      destruct (unprocessedItems st); [done|simpl in Hnil; lia]. }
    destruct (putChunk st) as [|k ks] eqn:Hc; [done|].
    cbn [outcome final emitted].
    set (st' := {| unprocessedItems := (k :: ks) ++ putRest st;
                   putBackoff := Z.min (putBackoff st * backoffFactor cfg)
                                       (backoffMax cfg) |}).
    assert (Hsame : unprocessedItems st' = unprocessedItems st).
    { cbn [st' unprocessedItems]. rewrite <- Hc. apply putChunk_putRest. }
    assert (Hchunk' : putChunk st' = k :: ks).
    { unfold putChunk. rewrite Hsame. exact Hc. }
    destruct (IH st' b') as ((st'' & Hout & Hq) & Hcalls & Hwaits & Hreqs).
    { rewrite Hsame. done. }
    rewrite Hchunk' in Hreqs.
    split; [exists st''; split; [done|congruence]|].
    assert (Hcb : filter isSend (progressEvents logCallback st) = [] /\
                  waitsOf (progressEvents logCallback st) = [] /\
                  putRequestsOf (progressEvents logCallback st) = []).
    { unfold progressEvents. by destruct logCallback. }
    destruct Hcb as (Hcb1 & Hcb2 & Hcb3).
    unfold backendCalls, waitsOf, putRequestsOf in *.
    rewrite !filter_app, !omap_app, !length_app, Hcb1, Hcb2, Hcb3,
      Hcalls, Hwaits, !Forall_app.
    split; [done|]. split; [done|]. split; [|done]. split; [done|].
    by apply Forall_singleton.
Qed.

(** X15: there is no limit on the number of rounds of a put call either.
    Against a backend that returns every write request it is given as
    unprocessed, a call with at least one item is still running after any
    number of rounds: each round sends the same first chunk again and
    waits. *)
Theorem batchPutAll_no_retry_limit rounds cfg table item items logCallback b :
  neverWrites dynamodb table ->
  let call :=
    batchPutAll dynamodb rounds cfg table (item :: items) logCallback b in
  outcome call = Unfinished /\
  backendCalls (emitted call) = rounds /\
  length (waitsOf (emitted call)) = rounds /\
  Forall (fun request =>
            request = putRequest table
                        (take (Nat.min (length (item :: items)) batchWriteLimit)
                           (map PutRequest (item :: items))))
    (putRequestsOf (emitted call)).
Proof.
  intros Hstuck call. subst call. rewrite batchPutAll_single.
  destruct (putLoop_stuck cfg table logCallback Hstuck rounds
              (putStart cfg (item :: items)) b)
    as ((st' & Hout & _) & Hcalls & Hwaits & Hreqs); [done|].
  unfold putAnswer; cbn [outcome emitted]. rewrite Hout.
  assert (Hbanner : forall tr,
    backendCalls
      ((if logCallback then [EvLogCallback "starting batch write"] else []) ++ tr)
    = backendCalls tr /\
    waitsOf
      ((if logCallback then [EvLogCallback "starting batch write"] else []) ++ tr)
    = waitsOf tr /\
    putRequestsOf
      ((if logCallback then [EvLogCallback "starting batch write"] else []) ++ tr)
    = putRequestsOf tr).
  { intros tr. by destruct logCallback. }
  destruct (Hbanner (emitted (putLoop dynamodb rounds cfg table logCallback
                                (putStart cfg (item :: items)) b)))
    as (-> & -> & ->).
  split; [done|]. split; [done|]. split; [done|].
  unfold putChunk, putStart in Hreqs. cbn [unprocessedItems] in Hreqs.
  by rewrite length_map in Hreqs.
Qed.

Lemma getLoop_in_full cfg batchGetInput table entry :
  answersInFull dynamodb table ->
  forall rounds st b,
    chunksNeeded (length (unprocessedKeys st)) batchGetLimit <= rounds ->
    let r := getLoop dynamodb rounds cfg batchGetInput table entry st b in
    submittedKeys table (emitted r) = unprocessedKeys st /\
    waitsOf (emitted r) = [].
Proof.
  intros Hfull rounds.
  induction rounds as [|rounds IH]; intros st b Hle;
    destruct (unprocessedKeys st) as [|k ks] eqn:Hq.
  - simpl. by rewrite Hq.
  - rewrite chunksNeeded_step in Hle by (unfold batchGetLimit; simpl; lia). lia.
  - simpl. by rewrite Hq.
  - rewrite chunksNeeded_step in Hle by (unfold batchGetLimit; simpl; lia).
    destruct (Hfull b (getRequest batchGetInput table entry (getChunk st)))
      as (b' & output & Hsend & Hwf & Hno).
    cbn zeta. rewrite getLoop_unfold by by rewrite Hq. unfold bind.
    rewrite (getRound_residual _ _ _ _ _ _ _ _ Hsend Hwf), Hno.
    cbn [outcome final emitted].
    set (st' := {| unprocessedKeys := getRest st;
                   results := results st ++ recordsOf table output;
                   backoff := backoffInitial cfg |}).
    destruct (IH st' b') as [Hsub Hwaits].
    { cbn [st' unprocessedKeys]. unfold getRest. rewrite length_drop, Hq. lia. }
    unfold submittedKeys, waitsOf in *.
    rewrite flat_map_app, omap_app, Hsub, Hwaits.
    cbn [flat_map sentKeys app omap list_omap].
    rewrite keysOf_getRequest, app_nil_r. split; [|done].
    rewrite <- Hq. apply getChunk_getRest.
Qed.

(** X16: against a backend that answers every get in full, [batchGetAll]
    asks for every key of the input exactly once, in the order of the
    input, and never waits. *)
Theorem batchGetAll_in_full rounds cfg table entry opts keys b :
  answersInFull dynamodb table ->
  Keys entry = Some keys ->
  chunksNeeded (length keys) batchGetLimit <= rounds ->
  let call :=
    batchGetAll dynamodb rounds cfg (singleTableGet table entry opts) b in
  submittedKeys table (emitted call) = keys /\ waitsOf (emitted call) = [].
Proof.
  intros Hfull Hkeys Hrounds call. subst call.
  rewrite (batchGetAll_single _ _ _ _ _ _ _ Hkeys).
  unfold getAnswer; cbn [emitted].
  by apply (getLoop_in_full cfg (singleTableGet table entry opts) table entry
              Hfull rounds (getStart cfg keys) b).
Qed.

End Properties.

(** * The calls among caller code and other tasks *)

Section LiveProperties.

Context `{Schema} `{!Stringify}.
Context (dynamodb : DynamoDBDocumentClient) (env : Live.Surroundings).

Lemma live_callLog_run logCallback log cfg b :
  Live.callLog logCallback log cfg b
  = mkRun b
      (match logCallback with Some _ => [EvLogCallback log] | None => [] end)
      (match Live.thrownBy logCallback log cfg b with
       | Some e => Threw e
       | None => Returned (Live.configuredBy logCallback log cfg b)
       end).
Proof. by destruct logCallback. Qed.

Lemma live_putRound_cases table logCallback cfg st b :
  Live.PutRoundPath dynamodb env table logCallback cfg st b
    (Live.putRound dynamodb env table logCallback cfg st b).
Proof.
  unfold Live.putRound, bind. rewrite live_callLog_run.
  fold (putChunk st). fold (putRest st). cbn [outcome final emitted].
  fold (Live.progressEvents logCallback st).
  destruct (Live.thrownBy logCallback _ cfg b) as [e|] eqn:Hthrown.
  { by apply Live.PutCallbackThrew. }
  cbn [outcome final emitted]. unfold Live.awaitBatchWriteCatch.
  destruct (sendBatchWrite dynamodb b _) as [b' [reason|output]] eqn:Hsend;
    cbn [outcome final emitted writeRequestItems putRequest].
  - rewrite lookup_singleton_eq. cbn [from_option id].
    destruct (Live.notWritingLine env (putChunk st) reason) as [e|line] eqn:Hline;
      cbn [outcome final emitted].
    + by apply Live.PutHandlerThrew.
    + simpl. by apply Live.PutRejected.
  - pose proof (Live.PutClean dynamodb env table logCallback cfg st b b' output
                  Hthrown Hsend) as Hclean.
    pose proof (Live.PutResidual dynamodb env table logCallback cfg st b b' output
                  Hthrown Hsend) as Hres.
    unfold Live.resume at 1. cbn [outcome final emitted].
    destruct (residualItems table (Some output)) as [|w ws]; simpl.
    + by apply Hclean.
    + by apply Hres.
Qed.

Lemma live_getRound_cases batchGetInput table entry cfg st b :
  Live.GetRoundPath dynamodb env batchGetInput table entry cfg st b
    (Live.getRound dynamodb env batchGetInput table entry cfg st b).
Proof.
  unfold Live.getRound, bind, awaitBatchGet.
  fold (getChunk st). fold (getRest st).
  destruct (sendBatchGet dynamodb b _) as [b' [reason|output]] eqn:Hsend; simpl.
  - by apply Live.GetRejected.
  - unfold responseObjects, residualKeys, recordsOf.
    pose proof (Live.GetMalformed dynamodb env batchGetInput table entry cfg st
                  b b' output Hsend) as Hbad.
    pose proof (Live.GetClean dynamodb env batchGetInput table entry cfg st
                  b b' output Hsend) as Hclean.
    pose proof (Live.GetResidual dynamodb env batchGetInput table entry cfg st
                  b b' output Hsend) as Hres.
    unfold wellFormedGet, unprocessedOf, recordsOf in Hbad, Hclean, Hres.
    destruct (Responses output) as [m|]; simpl in *;
      [|apply Hbad; by intros [[? [=]] _]].
    destruct (m !! table) as [objs|]; simpl;
      [|apply Hbad; by intros [[? [=]] _]].
    destruct (UnprocessedKeys output) as [u|]; simpl; [|by apply Hclean].
    destruct (u !! table) as [ka|] eqn:Hka; simpl;
      [|apply Hclean; [split; [by eauto|]|done]; by intros ? ? [= <-] ?; simplify_eq].
    destruct (Keys ka) as [[|k ks]|] eqn:Hks; simpl.
    + apply Hclean; [|done]. split; [by eauto|].
      intros ? ? [= <-] ?; simplify_eq. by rewrite Hks.
    + apply Hres; [|done]. split; [by eauto|].
      intros ? ? [= <-] ?; simplify_eq. by rewrite Hks.
    + apply Hbad. intros [_ Hwf].
      destruct (Hwf u ka eq_refl Hka) as [? ?]. congruence.
Qed.

Lemma live_putLoop_unfold rounds table logCallback cfg st b :
  unprocessedItems st <> [] ->
  Live.putLoop dynamodb env (S rounds) table logCallback cfg st b
  = bind (Live.putRound dynamodb env table logCallback cfg st)
      (fun next => Live.putLoop dynamodb env rounds table logCallback
                     next.1 next.2) b.
Proof. intros Hne. simpl. by destruct (unprocessedItems st). Qed.

Lemma live_getLoop_unfold rounds batchGetInput table entry cfg st b :
  unprocessedKeys st <> [] ->
  Live.getLoop dynamodb env (S rounds) batchGetInput table entry cfg st b
  = bind (Live.getRound dynamodb env batchGetInput table entry cfg st)
      (fun next => Live.getLoop dynamodb env rounds batchGetInput table entry
                     next.1 next.2) b.
Proof. intros Hne. simpl. by destruct (unprocessedKeys st). Qed.

Lemma live_putLoop_run rounds table logCallback cfg st b :
  Live.PutLoopRun dynamodb env table logCallback cfg st b
    (Live.putLoop dynamodb env rounds table logCallback cfg st b).
Proof.
  revert cfg st b. induction rounds as [|rounds IH]; intros cfg st b.
  - simpl. destruct (unprocessedItems st) eqn:Hq.
    + by apply Live.PutExited.
    + apply Live.PutPaused. by rewrite Hq.
  - destruct (unprocessedItems st) eqn:Hq.
    { simpl. rewrite Hq. by apply Live.PutExited. }
    assert (Hne : unprocessedItems st <> []) by by rewrite Hq.
    rewrite live_putLoop_unfold by done.
    pose proof (live_putRound_cases table logCallback cfg st b) as Hpath.
    unfold bind.
    destruct (Live.putRound dynamodb env table logCallback cfg st b)
      as [b' evs [[cfg' st']|e|]]; simpl.
    + by apply (Live.PutContinued dynamodb env _ _ cfg st b b' evs cfg' st').
    + by apply Live.PutAborted.
    + inversion Hpath.
Qed.

Lemma live_getLoop_run rounds batchGetInput table entry cfg st b :
  Live.GetLoopRun dynamodb env batchGetInput table entry cfg st b
    (Live.getLoop dynamodb env rounds batchGetInput table entry cfg st b).
Proof.
  revert cfg st b. induction rounds as [|rounds IH]; intros cfg st b.
  - simpl. destruct (unprocessedKeys st) eqn:Hq.
    + by apply Live.GetExited.
    + apply Live.GetPaused. by rewrite Hq.
  - destruct (unprocessedKeys st) eqn:Hq.
    { simpl. rewrite Hq. by apply Live.GetExited. }
    assert (Hne : unprocessedKeys st <> []) by by rewrite Hq.
    rewrite live_getLoop_unfold by done.
    pose proof (live_getRound_cases batchGetInput table entry cfg st b) as Hpath.
    unfold bind.
    destruct (Live.getRound dynamodb env batchGetInput table entry cfg st b)
      as [b' evs [[cfg' st']|e|]]; simpl.
    + by apply (Live.GetContinued dynamodb env _ _ _ cfg st b b' evs cfg' st').
    + by apply Live.GetAborted.
    + inversion Hpath.
Qed.

(** [batchPutAll] as its first callback invocation followed by its loop. *)
Lemma live_batchPutAll_cases rounds cfg table items logCallback b :
  Live.batchPutAll dynamodb env rounds cfg table items logCallback b
  = match Live.thrownBy logCallback "starting batch write" cfg b with
    | Some e =>
        mkRun b
          (match logCallback with
           | Some _ => [EvLogCallback "starting batch write"]
           | None => []
           end)
          (Threw e)
    | None =>
        let cfg0 :=
          Live.configuredBy logCallback "starting batch write" cfg b in
        let loop :=
          Live.putLoop dynamodb env rounds table logCallback cfg0
            (putStart cfg0 items) b in
        mkRun (final loop)
          (match logCallback with
           | Some _ => [EvLogCallback "starting batch write"]
           | None => []
           end ++ emitted loop)
          match outcome loop with
          | Returned (Exited _) => Returned tt
          | Returned (Running _) => Unfinished
          | Threw e => Threw e
          | Unfinished => Unfinished
          end
    end.
Proof.
  unfold Live.batchPutAll, bind at 1. rewrite live_callLog_run.
  cbn [outcome final emitted].
  destruct (Live.thrownBy logCallback _ cfg b) as [e|]; [done|].
  cbn [outcome final emitted]. unfold Live.batchWriteInput; simpl.
  assert (Hk : objectKeys ({[table := map PutRequest items]}
                 : gmap string (list WriteRequest)) = [table]).
  { unfold objectKeys. by rewrite map_to_list_singleton. }
  rewrite Hk; simpl. rewrite lookup_singleton_eq.
  fold (putStart (Live.configuredBy logCallback "starting batch write" cfg b)
          items).
  unfold bind.
  destruct (Live.putLoop _ _ _ _ _ _ _ _) as [b' evs [[st|st]|e|]]; simpl;
    by rewrite ?app_nil_r.
Qed.

Lemma live_progress_silent table logCallback st :
  submittedWrites table (Live.progressEvents logCallback st) = [] /\
  reportedWrites table (Live.progressEvents logCallback st) = [] /\
  filter isSend (Live.progressEvents logCallback st) = [] /\
  waitsOf (Live.progressEvents logCallback st) = [].
Proof. unfold Live.progressEvents. by destruct logCallback. Qed.

(** ** Rejected writes *)

Lemma live_notWritingLine_printable failedItems reason :
  Live.printable env ->
  exists line, Live.notWritingLine env failedItems reason = inr line.
Proof.
  intros [Hitems Hreason]. unfold Live.notWritingLine.
  assert (Hpre : exists previews,
            Live.failedItemPreviews env failedItems = inr previews).
  { induction failedItems as [|w ws IH]; simpl; [by eauto|].
    destruct (Hitems w) as [s ->]. destruct IH as [previews ->]. by eauto. }
  destruct Hpre as [previews ->]. destruct (Hreason reason) as [s ->].
  by eauto.
Qed.

Lemma live_putRound_returns table logCallback cfg st b r :
  Live.printable env -> Live.returns logCallback ->
  Live.PutRoundPath dynamodb env table logCallback cfg st b r ->
  exists next, outcome r = Returned next.
Proof.
  intros Hprint Hcb Hpath.
  inversion Hpath as [e Hthrown|b' reason e Hthrown Hsend Hline| | |]; subst;
    simpl; eauto.
  - by rewrite Hcb in Hthrown.
  - destruct (live_notWritingLine_printable (putChunk st) reason Hprint)
      as [line Hok].
    by rewrite Hok in Hline.
Qed.

Lemma live_putLoop_returns table logCallback cfg st b r :
  Live.printable env -> Live.returns logCallback ->
  Live.PutLoopRun dynamodb env table logCallback cfg st b r ->
  exists x, outcome r = Returned x.
Proof.
  intros Hprint Hcb.
  induction 1 as [cfg st b Hq|cfg st b Hq|cfg st b b' evs e Hne Hpath
                  |cfg st b b' evs cfg' st' r Hne Hpath Hrun IH]; simpl;
    [by eauto|by eauto| |done].
  by destruct (live_putRound_returns _ _ _ _ _ _ Hprint Hcb Hpath).
Qed.

Lemma live_putLoop_accounting table logCallback cfg st b r :
  Live.PutLoopRun dynamodb env table logCallback cfg st b r ->
  forall x, outcome r = Returned x ->
  submittedWrites table (emitted r) ++ unprocessedItems (loopState x).2
  ≡ₚ unprocessedItems st ++ reportedWrites table (emitted r).
Proof.
  induction 1 as [cfg st b Hq|cfg st b Hq|cfg st b b' evs e Hne Hpath
                  |cfg st b b' evs cfg' st' r Hne Hpath Hrun IH]; simpl;
    intros x Hx.
  - injection Hx as <-. simpl. by rewrite app_nil_r.
  - injection Hx as <-. simpl. by rewrite app_nil_r.
  - done.
  - specialize (IH x Hx).
    destruct (live_progress_silent table logCallback st) as (Hs & Hr & _).
    unfold submittedWrites, reportedWrites in *.
    rewrite !flat_map_app, <- (putChunk_putRest st).
    inversion Hpath as [|
                        |b1 reason line Hthrown Hsend Hline
                        |b1 output Hthrown Hsend Hres
                        |b1 output Hthrown Hsend Hres];
      subst; simpl in *;
      rewrite !flat_map_app, Hs, Hr; simpl;
      rewrite writesOf_putRequest, ?app_nil_r, <- !app_assoc.
    + by rewrite IH.
    + rewrite Hres. simpl. by rewrite IH.
    + rewrite IH, <- !app_assoc. f_equiv.
      by rewrite !app_assoc,
        (Permutation_app_comm (residualItems table (Some output))).
Qed.

Lemma live_putLoop_exited table logCallback cfg st b r x :
  Live.PutLoopRun dynamodb env table logCallback cfg st b r ->
  outcome r = Returned (Exited x) -> unprocessedItems x.2 = [].
Proof.
  induction 1 as [cfg st b Hq|cfg st b Hq|cfg st b b' evs e Hne Hpath
                  |cfg st b b' evs cfg' st' r Hne Hpath Hrun IH]; simpl;
    intros Hx; try done.
  - by injection Hx as <-.
  - by apply IH.
Qed.

Lemma live_putRound_rejected table logCallback cfg st b b' reason :
  Live.printable env -> Live.returns logCallback ->
  sendBatchWrite dynamodb b (putRequest table (putChunk st)) = (b', inl reason) ->
  exists line,
    Live.notWritingLine env (putChunk st) reason = inr line /\
    Live.putRound dynamodb env table logCallback cfg st b
    = mkRun b'
        (Live.progressEvents logCallback st ++
         [EvBatchWrite (putRequest table (putChunk st)) (inl reason);
          EvConsoleLog line])
        (Returned
           (Live.afterSend env logCallback cfg st b b',
            {| unprocessedItems := putRest st;
               putBackoff :=
                 backoffInitial
                   (Live.afterSend env logCallback cfg st b b') |})).
Proof.
  intros Hprint Hcb Hsend.
  pose proof (live_putRound_cases table logCallback cfg st b) as Hpath.
  destruct (live_putRound_returns _ _ _ _ _ _ Hprint Hcb Hpath) as [next Hnext].
  inversion Hpath as [e Hthrown Heq|b1 reason1 e Hthrown Hsend1 Hline Heq
                      |b1 reason1 line Hthrown Hsend1 Hline Heq
                      |b1 output Hthrown Hsend1 Hres Heq
                      |b1 output Hthrown Hsend1 Hres Heq];
    rewrite <- Heq in Hnext; try done;
    rewrite Hsend in Hsend1; simplify_eq.
  by exists line.
Qed.

Lemma live_putLoop_rejects_all table logCallback :
  Live.printable env -> Live.returns logCallback ->
  rejectsEveryWrite dynamodb ->
  forall rounds cfg st b,
    chunksNeeded (length (unprocessedItems st)) batchWriteLimit <= rounds ->
    let r := Live.putLoop dynamodb env rounds table logCallback cfg st b in
    (exists x, outcome r = Returned (Exited x)) /\
    submittedWrites table (emitted r) = unprocessedItems st /\
    backendCalls (emitted r)
    = chunksNeeded (length (unprocessedItems st)) batchWriteLimit /\
    waitsOf (emitted r) = [].
Proof.
  intros Hprint Hcb Hrej rounds.
  induction rounds as [|rounds IH]; intros cfg st b Hle;
    destruct (unprocessedItems st) as [|w ws] eqn:Hq.
  - simpl. rewrite Hq. by eauto.
  - rewrite chunksNeeded_step in Hle by (unfold batchWriteLimit; simpl; lia). lia.
  - simpl. rewrite Hq. by eauto.
  - rewrite chunksNeeded_step in Hle |- *
      by (unfold batchWriteLimit; simpl; lia).
    destruct (Hrej b (putRequest table (putChunk st))) as (b' & reason & Hsend).
    destruct (live_putRound_rejected table logCallback cfg st b b' reason
                Hprint Hcb Hsend) as (line & _ & Hround).
    cbn zeta. rewrite live_putLoop_unfold by by rewrite Hq. unfold bind.
    rewrite Hround. cbn [outcome final emitted fst snd].
    set (cfg' := Live.afterSend env logCallback cfg st b b').
    set (st' := {| unprocessedItems := putRest st;
                   putBackoff := backoffInitial cfg' |}).
    assert (Hlen : length (unprocessedItems st')
                   = length (w :: ws) - Nat.min (length (w :: ws)) batchWriteLimit).
    { simpl. unfold putRest. by rewrite length_drop, Hq. }
    destruct (IH cfg' st' b') as ((x & Hx) & Hsub & Hcalls & Hwaits);
      [rewrite Hlen; lia|].
    destruct (live_progress_silent table logCallback st) as (Hs & _ & Hf & Hw).
    unfold submittedWrites, backendCalls, waitsOf in *.
    rewrite !flat_map_app, !filter_app, !omap_app, !length_app,
      Hs, Hf, Hw, Hsub, Hcalls, Hwaits, Hlen.
    cbn [flat_map sentWrites app]. rewrite writesOf_putRequest, app_nil_r.
    split; [by eauto|]. split; [by rewrite <- Hq; apply putChunk_putRest|].
    by split.
Qed.


(** ** The backoff variable and the settings *)

Lemma live_afterSend_undisturbed logCallback cfg st b b' :
  Live.undisturbed env logCallback ->
  Live.afterSend env logCallback cfg st b b' = cfg.
Proof. intros [Hm Hc]. unfold Live.afterSend. by rewrite Hm, Hc. Qed.

Lemma live_getLoop_backoff_range batchGetInput table entry cfg st b r :
  (forall b cfg, Live.meanwhile env b cfg = cfg) ->
  Live.GetLoopRun dynamodb env batchGetInput table entry cfg st b r ->
  saneSettings cfg ->
  backoffInRange cfg (backoff st) ->
  Forall (backoffInRange cfg) (waitsOf (emitted r)) /\
  forall x, outcome r = Returned x ->
            (loopState x).1 = cfg /\
            backoffInRange cfg (backoff (loopState x).2).
Proof.
  intros Hquiet.
  induction 1 as [cfg st b Hq|cfg st b Hq|cfg st b b' evs e Hne Hpath
                  |cfg st b b' evs cfg' st' r Hne Hpath Hrun IH];
    intros Hsane Hin; simpl.
  - split; [constructor|]. by intros x [= <-].
  - split; [constructor|]. by intros x [= <-].
  - split; [|done]. inversion Hpath; subst; constructor.
  - destruct (backoff_next_in_range cfg _ Hsane Hin) as [Hgrow Hreset].
    unfold waitsOf in *. rewrite omap_app, Forall_app.
    inversion Hpath; subst; rewrite ?Hquiet in *; simpl in *.
    + destruct (IH Hsane Hreset) as [Hw Hx]. by repeat (split; [|done]).
    + destruct (IH Hsane Hgrow) as [Hw Hx]. repeat (split; [|done]).
      by apply Forall_singleton.
Qed.

Lemma live_putLoop_backoff_range table logCallback cfg st b r :
  Live.undisturbed env logCallback ->
  Live.PutLoopRun dynamodb env table logCallback cfg st b r ->
  saneSettings cfg ->
  backoffInRange cfg (putBackoff st) ->
  Forall (backoffInRange cfg) (waitsOf (emitted r)) /\
  forall x, outcome r = Returned x ->
            (loopState x).1 = cfg /\
            backoffInRange cfg (putBackoff (loopState x).2).
Proof.
  intros Hquiet.
  induction 1 as [cfg st b Hq|cfg st b Hq|cfg st b b' evs e Hne Hpath
                  |cfg st b b' evs cfg' st' r Hne Hpath Hrun IH];
    intros Hsane Hin; simpl.
  - split; [constructor|]. by intros x [= <-].
  - split; [constructor|]. by intros x [= <-].
  - split; [|done].
    destruct (live_progress_silent table logCallback st) as (_ & _ & _ & Hw).
    unfold waitsOf in *.
    inversion Hpath; subst; rewrite ?omap_app, ?Hw; constructor.
  - destruct (backoff_next_in_range cfg _ Hsane Hin) as [Hgrow Hreset].
    destruct (live_progress_silent table logCallback st) as (_ & _ & _ & Hcb).
    pose proof (live_afterSend_undisturbed logCallback cfg st b b' Hquiet)
      as Hcfg.
    destruct Hquiet as [Hm Hc].
    unfold waitsOf in *. rewrite omap_app, Forall_app.
    inversion Hpath; subst; rewrite ?Hm, ?Hcfg in *; simpl in *;
      rewrite omap_app, Hcb; simpl.
    + destruct (IH Hsane Hreset) as [Hw Hx]. by repeat (split; [|done]).
    + destruct (IH Hsane Hreset) as [Hw Hx]. by repeat (split; [|done]).
    + destruct (IH Hsane Hgrow) as [Hw Hx]. repeat (split; [|done]).
      by apply Forall_singleton.
Qed.

Lemma live_getRound_reset batchGetInput table entry cfg st b next :
  outcome (Live.getRound dynamodb env batchGetInput table entry cfg st b)
    = Returned next ->
  Forall (fun e => residualKeysOf table e = [])
    (emitted (Live.getRound dynamodb env batchGetInput table entry cfg st b)) ->
  backoff next.2 = backoffInitial next.1.
Proof.
  destruct (live_getRound_cases batchGetInput table entry cfg st b)
    as [b' reason Hsend|b' output Hsend Hwf|b' output Hsend Hwf Hres
        |b' output Hsend Hwf Hres]; simpl; try done.
  - by intros [= <-].
  - intros _ Hall. by inversion Hall; subst.
Qed.

Lemma live_putRound_reset table logCallback cfg st b next :
  outcome (Live.putRound dynamodb env table logCallback cfg st b)
    = Returned next ->
  Forall (fun e => residualWritesOf table e = [])
    (emitted (Live.putRound dynamodb env table logCallback cfg st b)) ->
  putBackoff next.2 = backoffInitial next.1.
Proof.
  destruct (live_putRound_cases table logCallback cfg st b)
    as [e Hthrown|b' reason e Hthrown Hsend Hline
        |b' reason line Hthrown Hsend Hline
        |b' output Hthrown Hsend Hres|b' output Hthrown Hsend Hres]; simpl;
    try done.
  - by intros [= <-].
  - by intros [= <-].
  - intros _ Hall. apply Forall_app in Hall as [_ Hall].
    by inversion Hall; subst.
Qed.

(** C8, as amended: whatever the settings and whoever changes them, a
    round that reports no residual leaves the backoff variable at the
    initial backoff it reads.  When the settings satisfy
    [0 <= initial <= max] and [1 <= factor], as the initial ones do, and
    nobody calls [configure] while the call runs, the backoff variable of
    a get call and of a put call lies between [initial] and [max] at every
    turn of the loop, and so does every wait. *)
Theorem backoff_in_range_when_sane_and_undisturbed rounds cfg table entry opts
    keys items logCallback b :
  let get := Live.getLoop dynamodb env rounds (singleTableGet table entry opts)
               table entry cfg (getStart cfg keys) b in
  let put := Live.putLoop dynamodb env rounds table logCallback cfg
               (putStart cfg items) b in
  (forall cfg0 st b0 next,
     outcome (Live.getRound dynamodb env (singleTableGet table entry opts)
                table entry cfg0 st b0) = Returned next ->
     Forall (fun e => residualKeysOf table e = [])
       (emitted (Live.getRound dynamodb env (singleTableGet table entry opts)
                   table entry cfg0 st b0)) ->
     backoff next.2 = backoffInitial next.1) /\
  (forall cfg0 st b0 next,
     outcome (Live.putRound dynamodb env table logCallback cfg0 st b0)
       = Returned next ->
     Forall (fun e => residualWritesOf table e = [])
       (emitted (Live.putRound dynamodb env table logCallback cfg0 st b0)) ->
     putBackoff next.2 = backoffInitial next.1) /\
  (saneSettings cfg ->
   Live.undisturbed env logCallback ->
   (forall x, outcome get = Returned x ->
              (loopState x).1 = cfg /\
              backoffInRange cfg (backoff (loopState x).2)) /\
   Forall (backoffInRange cfg) (waitsOf (emitted get)) /\
   (forall x, outcome put = Returned x ->
              (loopState x).1 = cfg /\
              backoffInRange cfg (putBackoff (loopState x).2)) /\
   Forall (backoffInRange cfg) (waitsOf (emitted put))).
Proof.
  intros get put. split; [|split].
  - intros cfg0 st b0 next. apply live_getRound_reset.
  - intros cfg0 st b0 next. apply live_putRound_reset.
  - intros Hsane Hquiet.
    assert (Hstart : backoffInRange cfg (backoffInitial cfg)).
    { destruct Hsane as [? ?]. unfold backoffInRange. lia. }
    destruct (live_getLoop_backoff_range _ _ _ _ _ _ _ (proj1 Hquiet)
                (live_getLoop_run rounds (singleTableGet table entry opts)
                   table entry cfg (getStart cfg keys) b) Hsane Hstart)
      as [Hgw Hgx].
    destruct (live_putLoop_backoff_range _ _ _ _ _ _ Hquiet
                (live_putLoop_run rounds table logCallback cfg
                   (putStart cfg items) b) Hsane Hstart) as [Hpw Hpx].
    done.
Qed.

(** ** The progress callback as caller code *)

Lemma live_putRound_callback_erased table (callback : Live.Callback) cfg st b :
  (forall b log cfg, callback b log cfg = (cfg, None)) ->
  final (Live.putRound dynamodb env table (Some callback) cfg st b)
  = final (Live.putRound dynamodb env table None cfg st b) /\
  outcome (Live.putRound dynamodb env table (Some callback) cfg st b)
  = outcome (Live.putRound dynamodb env table None cfg st b) /\
  eraseCallbacks (emitted (Live.putRound dynamodb env table (Some callback) cfg st b))
  = emitted (Live.putRound dynamodb env table None cfg st b).
Proof.
  intros Hcb.
  unfold Live.putRound, bind, Live.callLog, Live.resume, emit, ret, wait,
    Live.awaitBatchWriteCatch.
  rewrite Hcb. cbn [final outcome emitted fst snd].
  destruct (sendBatchWrite dynamodb b _) as [b' [reason|output]];
    cbn [final outcome emitted residualItems].
  - by destruct (Live.notWritingLine env _ reason).
  - by destruct (match UnprocessedItems output with
                 | Some m => default [] (m !! table)
                 | None => []
                 end).
Qed.

Lemma live_putLoop_callback_erased table (callback : Live.Callback) rounds :
  (forall b log cfg, callback b log cfg = (cfg, None)) ->
  forall cfg st b,
    final (Live.putLoop dynamodb env rounds table (Some callback) cfg st b)
    = final (Live.putLoop dynamodb env rounds table None cfg st b) /\
    outcome (Live.putLoop dynamodb env rounds table (Some callback) cfg st b)
    = outcome (Live.putLoop dynamodb env rounds table None cfg st b) /\
    eraseCallbacks
      (emitted (Live.putLoop dynamodb env rounds table (Some callback) cfg st b))
    = emitted (Live.putLoop dynamodb env rounds table None cfg st b).
Proof.
  intros Hcb. induction rounds as [|rounds IH]; intros cfg st b.
  - simpl. by destruct (unprocessedItems st).
  - destruct (unprocessedItems st) as [|w ws] eqn:Hq.
    + simpl. by rewrite Hq.
    + rewrite !live_putLoop_unfold by by rewrite Hq. unfold bind.
      destruct (live_putRound_callback_erased table callback cfg st b Hcb)
        as (Hf & Ho & He).
      destruct (Live.putRound dynamodb env table (Some callback) cfg st b)
        as [b1 e1 o1],
        (Live.putRound dynamodb env table None cfg st b) as [b0 e0 o0].
      cbn [final outcome emitted] in *. subst b1 o1 e0.
      destruct o0 as [[cfg' st']|e|]; cbn [final outcome emitted]; [|done|done].
      destruct (IH cfg' st' b0) as (Hf' & Ho' & He').
      cbn [fst snd]. unfold eraseCallbacks in *.
      by rewrite filter_app, Hf', Ho', He'.
Qed.

Lemma live_putLoop_silent rounds table :
  forall cfg st b,
    filter isLogCallback
      (emitted (Live.putLoop dynamodb env rounds table None cfg st b)) = [].
Proof.
  induction rounds as [|rounds IH]; intros cfg st b.
  - simpl. by destruct (unprocessedItems st).
  - destruct (unprocessedItems st) as [|w ws] eqn:Hq.
    + simpl. by rewrite Hq.
    + rewrite live_putLoop_unfold by by rewrite Hq. unfold bind.
      pose proof (live_putRound_cases table None cfg st b) as Hpath.
      destruct (Live.putRound dynamodb env table None cfg st b)
        as [b' evs [[cfg' st']|e|]]; cbn [final outcome emitted fst snd];
        [rewrite filter_app, IH, app_nil_r| |];
        inversion Hpath; by subst.
Qed.


(** ** The model with fixed settings as a case of the live one *)

Lemma live_notWritingLine_tame failedItems reason :
  (forall w, Live.JSON_stringify env w = inr (JSON_stringify w)) ->
  (forall e, Live.reasonString env e = inr (reasonString e)) ->
  Live.notWritingLine env failedItems reason
  = inr (notWritingLine failedItems reason).
Proof.
  intros Hitems Hreason. unfold Live.notWritingLine, notWritingLine.
  assert (Hpre : Live.failedItemPreviews env failedItems
                 = inr (map (fun it => String.substring 0 20 (JSON_stringify it))
                          failedItems)).
  { induction failedItems as [|w ws IH]; simpl; [done|].
    by rewrite Hitems, IH. }
  by rewrite Hpre, Hreason.
Qed.

Lemma live_putRound_tame table logCallback cfg st b :
  tame env logCallback ->
  Live.putRound dynamodb env table logCallback cfg st b
  = let r := putRound dynamodb cfg table (supplied logCallback) st b in
    mkRun (final r) (emitted r)
      match outcome r with
      | Returned st' => Returned (cfg, st')
      | Threw e => Threw e
      | Unfinished => Unfinished
      end.
Proof.
  intros (Hitems & Hreason & Hcb & Hm & Hc).
  unfold Live.putRound, putRound, bind, callLog, Live.resume, emit, ret, wait,
    Live.awaitBatchWriteCatch, awaitBatchWriteCatch.
  rewrite live_callLog_run, Hcb, Hc. cbn [final outcome emitted].
  assert (Hev : match logCallback with
                | Some _ =>
                    [EvLogCallback
                       (pretty (length
                          (drop (Nat.min (length (unprocessedItems st))
                                   batchWriteLimit) (unprocessedItems st))))]
                | None => []
                end
                = emitted ((if supplied logCallback
                            then (fun b => mkRun b
                                    [EvLogCallback
                                       (pretty (length
                                          (drop (Nat.min (length (unprocessedItems st))
                                                   batchWriteLimit)
                                             (unprocessedItems st))))]
                                    (Returned tt))
                            else (fun b => mkRun b [] (Returned tt))) b)).
  { by destruct logCallback. }
  destruct logCallback as [callback|]; cbn [supplied final outcome emitted];
    (destruct (sendBatchWrite dynamodb b _) as [b' [reason|output]];
     cbn [final outcome emitted writeRequestItems putRequest];
     [rewrite lookup_singleton_eq; cbn [from_option id];
      rewrite (live_notWritingLine_tame _ _ Hitems Hreason);
      cbn [final outcome emitted residualItems]; by rewrite !Hm
     |cbn [residualItems];
      destruct (match UnprocessedItems output with
                | Some m => default [] (m !! table)
                | None => []
                end); cbn [final outcome emitted]; by rewrite !Hm]).
Qed.

Lemma live_putLoop_tame table logCallback rounds :
  tame env logCallback ->
  forall cfg st b,
    Live.putLoop dynamodb env rounds table logCallback cfg st b
    = runUnderSettings cfg
        (putLoop dynamodb rounds cfg table (supplied logCallback) st b).
Proof.
  intros Htame. induction rounds as [|rounds IH]; intros cfg st b.
  - simpl. by destruct (unprocessedItems st).
  - destruct (unprocessedItems st) as [|w ws] eqn:Hq.
    + simpl. by rewrite Hq.
    + rewrite live_putLoop_unfold, putLoop_unfold by by rewrite Hq.
      unfold bind. rewrite (live_putRound_tame _ _ _ _ _ Htame).
      cbn zeta. cbn [final outcome emitted].
      destruct (putRound dynamodb cfg table (supplied logCallback) st b)
        as [b' evs [st'|e|]]; cbn [final outcome emitted fst snd]; [|done|done].
      rewrite IH. unfold runUnderSettings; cbn [final outcome emitted].
      by destruct (outcome (putLoop dynamodb rounds cfg table
                              (supplied logCallback) st' b')).
Qed.

Lemma live_getRound_quiet batchGetInput table entry cfg st b :
  (forall b cfg, Live.meanwhile env b cfg = cfg) ->
  Live.getRound dynamodb env batchGetInput table entry cfg st b
  = let r := getRound dynamodb cfg batchGetInput table entry st b in
    mkRun (final r) (emitted r)
      match outcome r with
      | Returned st' => Returned (cfg, st')
      | Threw e => Threw e
      | Unfinished => Unfinished
      end.
Proof.
  intros Hm.
  unfold Live.getRound, getRound, bind, Live.resume, awaitBatchGet, wait, emit,
    ret.
  destruct (sendBatchGet dynamodb b _) as [b' [reason|output]];
    cbn [final outcome emitted]; [done|].
  unfold responseObjects, residualKeys, ret, throw.
  destruct (Responses output) as [m|]; cbn [final outcome emitted]; [|done].
  destruct (m !! table) as [objs|]; cbn [final outcome emitted]; [|done].
  destruct (UnprocessedKeys output) as [u|]; cbn [final outcome emitted];
    [|by rewrite !Hm].
  destruct (u !! table) as [ka|]; cbn [final outcome emitted];
    [|by rewrite !Hm].
  destruct (Keys ka) as [[|k ks]|]; cbn [final outcome emitted];
    by rewrite ?Hm.
Qed.

Lemma live_getLoop_quiet batchGetInput table entry rounds :
  (forall b cfg, Live.meanwhile env b cfg = cfg) ->
  forall cfg st b,
    Live.getLoop dynamodb env rounds batchGetInput table entry cfg st b
    = runUnderSettings cfg
        (getLoop dynamodb rounds cfg batchGetInput table entry st b).
Proof.
  intros Hm. induction rounds as [|rounds IH]; intros cfg st b.
  - simpl. by destruct (unprocessedKeys st).
  - destruct (unprocessedKeys st) as [|k ks] eqn:Hq.
    + simpl. by rewrite Hq.
    + rewrite live_getLoop_unfold, getLoop_unfold by by rewrite Hq.
      unfold bind. rewrite (live_getRound_quiet _ _ _ _ _ _ Hm).
      cbn zeta. cbn [final outcome emitted].
      destruct (getRound dynamodb cfg batchGetInput table entry st b)
        as [b' evs [st'|e|]]; cbn [final outcome emitted fst snd]; [|done|done].
      rewrite IH. unfold runUnderSettings; cbn [final outcome emitted].
      by destruct (outcome (getLoop dynamodb rounds cfg batchGetInput table
                              entry st' b')).
Qed.


End LiveProperties.


(** * The statements at work on the scenarios *)

Import Scenario.

Lemma batchGetAll_exactly_one_table_witness :
  batchGetAll (throttling []) 5 defaultSettings
    (getInput [("a"%string, [1]); ("b"%string, [2])]) 0
  = mkRun 0 [] (Threw (Error getSingleTableMessage)).
Proof.
  destruct (batchGetAll_exactly_one_table (throttling []) 5
              defaultSettings tt 0) as (_ & Hmany & _ & _).
  apply Hmany. vm_compute. lia.
Defined.


(** Seven throttled rounds in a row wait 1000, 2000, 4000, 8000, 16000,
    30000 and 30000 ms. *)
Example backoff_waits_on_throttled_get :
  waitsOf (emitted (batchGetAll (throttling (replicate 7 true)) 8 defaultSettings
                      (singleTableGet "t" (entryOf [1; 2; 3]) tt) 0))
  = [1000; 2000; 4000; 8000; 16000; 30000; 30000]%Z.
Proof. vm_compute. reflexivity. Qed.

(** A clean round between throttled ones brings the wait back to 1000. *)
Example backoff_waits_reset_on_put :
  waitsOf (emitted (batchPutAll (throttling [true; true; false; true]) 9
                      defaultSettings "t" (seq 0 30) true 0))
  = [1000; 2000; 1000]%Z.
Proof. vm_compute. reflexivity. Qed.

Lemma batchGetAll_calls_and_results_witness :
  let input := singleTableGet "t" (entryOf (seq 0 250)) tt in
  let throttled := batchGetAll (throttling [true; true]) 10 defaultSettings
                     input 0 in
  let served := batchGetAll (throttling []) 3 defaultSettings input 0 in
  (chunksNeeded 250 batchGetLimit <= backendCalls (emitted throttled) /\
   (reportedKeys "t" (emitted throttled) = [] ->
    backendCalls (emitted throttled) = chunksNeeded 250 batchGetLimit) /\
   seq 0 250 = returnedBy "t" (emitted throttled)) /\
  (outcome served = Returned (returnedBy "t" (emitted served)) /\
   backendCalls (emitted served) = chunksNeeded 250 batchGetLimit).
Proof.
  intros input throttled served. split.
  - destruct (batchGetAll_calls_and_results (throttling [true; true]) 10
                defaultSettings "t" (entryOf (seq 0 250)) tt (seq 0 250) 0
                eq_refl) as (Hret & _ & _).
    apply (Hret (seq 0 250)). vm_compute. reflexivity.
  - destruct (batchGetAll_calls_and_results (throttling []) 3
                defaultSettings "t" (entryOf (seq 0 250)) tt (seq 0 250) 0
                eq_refl) as (_ & _ & Hfull).
    apply Hfull.
    + intros b request. do 2 eexists. split; [|split].
      * simpl. unfold throttlingGet. by destruct b.
      * split; [|done]. simpl. rewrite lookup_singleton_eq. by eexists.
      * done.
    + vm_compute. lia.
Defined.




Lemma batchScanAll_walks_pages_witness :
  let call := batchScanAll (throttling []) 3 scanTable 0 in
  outcome call = Returned (seq 0 10 ++ seq 10 10 ++ seq 20 5) /\
  length (seq 0 10 ++ seq 10 10 ++ seq 20 5) = 25 /\
  backendCalls (emitted call) = 3.
Proof.
  intros call.
  destruct (batchScanAll_walks_pages (throttling []) 3 scanTable 0)
    as (_ & _ & Hpages).
  apply (Hpages 1 2 3 1 2); reflexivity.
Defined.

Lemma backend_rejections_propagate_witness :
  let get := batchGetAll (failing 1) 5 defaultSettings
               (singleTableGet "t" (entryOf (seq 0 150)) tt) 0 in
  let scan := batchScanAll (failing 1) 5 scanTable 0 in
  outcome get = Threw (Rejected "ProvisionedThroughputExceededException"%string) /\
  backendCalls (emitted get) = 2 /\
  outcome scan = Threw (Rejected "InternalServerError"%string) /\
  backendCalls (emitted scan) = 2.
Proof.
  intros get scan.
  destruct (backend_rejections_propagate (failing 1) 5 defaultSettings
              (singleTableGet "t" (entryOf (seq 0 150)) tt) scanTable 0)
    as (Hget & Hscan & _ & _).
  split; [|split; [vm_compute; reflexivity|split; [|vm_compute; reflexivity]]].
  - eapply (Hget (getRequest (singleTableGet "t" (entryOf (seq 0 150)) tt) "t"
                    (entryOf (seq 0 150)) (seq 100 50))).
    vm_compute. do 1 apply list_elem_of_further. apply list_elem_of_here.
  - eapply (Hscan (withCursor scanTable (Some 1))).
    vm_compute. do 3 apply list_elem_of_further. apply list_elem_of_here.
Defined.

Lemma backoff_in_range_when_sane_and_undisturbed_witness :
  Forall (backoffInRange defaultSettings)
    (waitsOf (emitted (Live.getLoop (throttling (replicate 7 true)) calm 8
                         (singleTableGet "t" (entryOf [1; 2; 3]) tt) "t"
                         (entryOf [1; 2; 3]) defaultSettings
                         (getStart defaultSettings [1; 2; 3]) 0))).
Proof.
  destruct (backoff_in_range_when_sane_and_undisturbed
              (throttling (replicate 7 true)) calm 8 defaultSettings "t"
              (entryOf [1; 2; 3]) tt [1; 2; 3] [] (Some watching) 0)
    as (_ & _ & Hrange).
  destruct Hrange as (_ & Hwaits & _).
  - unfold saneSettings; simpl. lia.
  - by split.
  - exact Hwaits.
Defined.

(** C8 as written fails: [configure] accepts an initial backoff above the
    maximum; the backoff variable then starts above [max] and the first
    wait is longer than [max]. *)
Lemma backoff_range_counterexample :
  let cfg := configure {| optBackoffInitial := Some 60000%Z;
                          optBackoffMax := None;
                          optBackoffFactor := None |} defaultSettings in
  let input := singleTableGet "t" (entryOf [1; 2]) tt in
  (exists st,
     outcome (getLoop (throttling [true]) 0 cfg input "t" (entryOf [1; 2])
                (getStart cfg [1; 2]) 0) = Returned (Running st) /\
     ~ backoffInRange cfg (backoff st)) /\
  outcome (batchGetAll (throttling [true]) 5 cfg input 0) = Returned [1; 2] /\
  waitsOf (emitted (batchGetAll (throttling [true]) 5 cfg input 0)) = [60000%Z] /\
  ~ backoffInRange cfg 60000.
Proof.
  assert (Hout : ~ backoffInRange
                     (configure {| optBackoffInitial := Some 60000%Z;
                                   optBackoffMax := None;
                                   optBackoffFactor := None |} defaultSettings)
                     60000).
  { unfold backoffInRange; simpl. lia. }
  split; [|split; [|split]].
  - eexists. split; [reflexivity|]. exact Hout.
  - vm_compute. reflexivity.
  - vm_compute. reflexivity.
  - exact Hout.
Qed.

(** Settings that satisfy the relation at every moment do not keep the
    backoff variable in range when they change while a call runs: after a
    first round with residual the variable is [min(1000 * 2, 30000)], and
    a [configure({ backoffInitial: 5000 })] made during that round leaves
    it below the initial backoff. *)
Example backoff_below_initial_after_configure :
  let run := Live.getLoop (throttling [true]) reconfiguring 1
               (singleTableGet "t" (entryOf [1; 2]) tt) "t" (entryOf [1; 2])
               defaultSettings (getStart defaultSettings [1; 2]) 0 in
  exists cfg st,
    outcome run = Returned (Running (cfg, st)) /\
    saneSettings defaultSettings /\ saneSettings cfg /\
    backoff st = 2000%Z /\ backoffInitial cfg = 5000%Z /\
    ~ backoffInRange cfg (backoff st).
Proof.
  do 2 eexists. split; [vm_compute; reflexivity|].
  unfold saneSettings, backoffInRange; simpl. lia.
Qed.

(** A put call of 30 items with the callback supplied: the fixed text,
    then one count before each of the two calls. *)
Example progress_callback_on_thirty_items :
  omap (fun e => match e with EvLogCallback s => Some s | _ => None end)
    (emitted (batchPutAll (throttling []) 5 defaultSettings "t" (seq 0 30) true 0))
  = ["starting batch write"; "5"; "0"]%string.
Proof. vm_compute. reflexivity. Qed.

(** * The further properties at work on the scenarios *)

Lemma nothing_to_do_witness :
  batchGetAll (failing 0) 5 defaultSettings
    (singleTableGet "t" (entryOf []) tt) 0
  = mkRun 0 [] (Returned []) /\
  batchGetAll (failing 0) 5 defaultSettings
    (singleTableGet "t" noKeys tt) 0
  = mkRun 0 [] (Threw TypeError).
Proof.
  split.
  - destruct (nothing_to_do (failing 0) 5 defaultSettings "t" (entryOf []) tt
                true 0) as (Hempty & _ & _ & _).
    by apply Hempty.
  - destruct (nothing_to_do (failing 0) 5 defaultSettings "t" noKeys tt true 0)
      as (_ & _ & Hnone & _).
    by apply Hnone.
Defined.

Lemma malformed_get_answer_throws_witness :
  let call := batchGetAll bare 5 defaultSettings
                (singleTableGet "t" (entryOf (seq 0 150)) tt) 0 in
  outcome call = Threw TypeError /\ backendCalls (emitted call) = 1.
Proof.
  intros call. split; [|vm_compute; reflexivity].
  eapply (malformed_get_answer_throws bare 5 defaultSettings "t"
            (entryOf (seq 0 150)) tt 0
            (getRequest (singleTableGet "t" (entryOf (seq 0 150)) tt) "t"
               (entryOf (seq 0 150)) (seq 0 100))
            {| Responses := None; UnprocessedKeys := None |}).
  - vm_compute. apply list_elem_of_here.
  - by left.
Defined.

Lemma batchPutAll_calls_witness :
  let call := batchPutAll (throttling []) 2 defaultSettings "t" (seq 0 30)
                false 0 in
  outcome call = Returned tt /\
  submittedWrites "t" (emitted call) = map PutRequest (seq 0 30) /\
  backendCalls (emitted call) = chunksNeeded 30 batchWriteLimit /\
  waitsOf (emitted call) = [].
Proof.
  intros call.
  destruct (batchPutAll_calls (throttling []) 2 defaultSettings "t" (seq 0 30)
              false 0) as (_ & Hall).
  apply Hall.
  - intros b request. do 2 eexists. split; [reflexivity|]. by destruct b.
  - vm_compute. lia.
Defined.

Lemma batchGetAll_no_retry_limit_witness :
  let call := batchGetAll stuck 40 defaultSettings
                (singleTableGet "t" (entryOf [1; 2; 3]) tt) 0 in
  outcome call = Unfinished /\
  backendCalls (emitted call) = 40 /\
  length (waitsOf (emitted call)) = 40.
Proof.
  intros call.
  destruct (batchGetAll_no_retry_limit stuck 40 defaultSettings "t"
              (entryOf [1; 2; 3]) tt 1 [2; 3] 0) as (Hout & Hcalls & Hwaits & _).
  - intros b request. do 2 eexists. split; [reflexivity|]. split.
    + split; [|intros m ka [= <-] Hka]; cbn.
      * rewrite lookup_singleton_eq. by eexists.
      * rewrite lookup_singleton_eq in Hka. injection Hka as <-. by eexists.
    + unfold unprocessedOf; cbn. by rewrite lookup_singleton_eq.
  - reflexivity.
  - subst call. split; [exact Hout|]. split; [exact Hcalls|exact Hwaits].
Defined.

Lemma batchGetAll_ends_when_throttling_ends_witness :
  let call := batchGetAll (throttling [true; true]) 5 defaultSettings
                (singleTableGet "t" (entryOf (seq 0 250)) tt) 0 in
  outcome call = Returned (returnedBy "t" (emitted call)) /\
  backendCalls (emitted call) <= 5.
Proof.
  intros call.
  apply (batchGetAll_ends_when_throttling_ends (throttling [true; true]) 5
           defaultSettings "t" (entryOf (seq 0 250)) tt (seq 0 250)
           (fun calls => 2 - calls) 0).
  - intros b request. cbn [sendBatchGet throttling]. unfold throttlingGet.
    assert (Hlate : forall n, nth (S (S n)) [true; true] false = false)
      by (by intros []).
    destruct b as [|[|b]]; rewrite ?Hlate; cbn [nth]; do 2 eexists;
      (split; [reflexivity|]); (split; [split|]).
    + cbn. rewrite lookup_singleton_eq. by eexists.
    + intros m ka [= <-] Hka. rewrite lookup_singleton_eq in Hka.
      injection Hka as <-. by eexists.
    + right. unfold unprocessedOf; cbn. rewrite lookup_singleton_eq; cbn.
      rewrite length_drop. lia.
    + cbn. rewrite lookup_singleton_eq. by eexists.
    + intros m ka [= <-] Hka. rewrite lookup_singleton_eq in Hka.
      injection Hka as <-. by eexists.
    + right. unfold unprocessedOf; cbn. rewrite lookup_singleton_eq; cbn.
      rewrite length_drop. lia.
    + cbn. rewrite lookup_singleton_eq. by eexists.
    + by intros m ka [=].
    + left. split; [done|]. lia.
  - reflexivity.
  - vm_compute. lia.
Defined.

Lemma waits_follow_residual_rounds_witness :
  let get := batchGetAll (throttling [true; false; true]) 9 defaultSettings
               (singleTableGet "t" (entryOf (seq 0 250)) tt) 0 in
  length (waitsOf (emitted get)) = 2 /\
  residualRounds "t" (emitted get) = 2 /\
  forall w, last (emitted get) <> Some (EvWait w).
Proof.
  intros get.
  destruct (waits_follow_residual_rounds (throttling [true; false; true]) 9
              defaultSettings "t" (entryOf (seq 0 250)) tt [] false 0)
    as (_ & _ & _ & _ & Hlast & _).
  split; [vm_compute; reflexivity|]. split; [vm_compute; reflexivity|].
  intros w. apply (Hlast (seq 0 250)). vm_compute. reflexivity.
Defined.

Lemma batchScanAll_no_backoff_witness :
  let call := batchScanAll (throttling []) 5 scanTable 0 in
  1 <= backendCalls (emitted call) /\
  last (emitted call) = Some (EvConsoleLog "total items: 25").
Proof.
  intros call.
  destruct (batchScanAll_no_backoff (throttling []) 5 scanTable 0)
    as (_ & Hfirst & _ & Hlast).
  split; [apply Hfirst; lia|].
  apply (Hlast (seq 0 25)). vm_compute. reflexivity.
Defined.

Lemma batchScanAll_no_page_limit_witness :
  let call := batchScanAll stuck 40 scanTable 0 in
  outcome call = Unfinished /\ backendCalls (emitted call) = 40.
Proof.
  apply (batchScanAll_no_page_limit stuck 40 scanTable 0).
  intros b request. do 3 eexists. by split.
Defined.

Lemma batchPutAll_no_retry_limit_witness :
  let call := batchPutAll stuck 12 defaultSettings "t" (seq 0 30) true 0 in
  outcome call = Unfinished /\
  backendCalls (emitted call) = 12 /\
  length (waitsOf (emitted call)) = 12.
Proof.
  intros call.
  destruct (batchPutAll_no_retry_limit stuck 12 defaultSettings "t" 0 (seq 1 29)
              true 0) as (Hout & Hcalls & Hwaits & _).
  - intros b request. do 2 eexists. split; [reflexivity|].
    cbn. by rewrite lookup_singleton_eq.
  - subst call. split; [exact Hout|]. split; [exact Hcalls|exact Hwaits].
Defined.

Lemma batchGetAll_in_full_witness :
  let call := batchGetAll (throttling []) 3 defaultSettings
                (singleTableGet "t" (entryOf (seq 0 250)) tt) 0 in
  submittedKeys "t" (emitted call) = seq 0 250 /\ waitsOf (emitted call) = [].
Proof.
  intros call.
  apply (batchGetAll_in_full (throttling []) 3 defaultSettings "t"
           (entryOf (seq 0 250)) tt (seq 0 250) 0).
  - intros b request. do 2 eexists. split; [|split].
    + simpl. unfold throttlingGet. by destruct b.
    + split; [|done]. simpl. rewrite lookup_singleton_eq. by eexists.
    + done.
  - reflexivity.
  - vm_compute. lia.
Defined.


(** A callback that throws in the second round: the first chunk of 25 has
    been written, the 5 items left over are never submitted, and the
    caller gets the exception of the callback. *)
Example callback_exception_in_second_round :
  let call := Live.batchPutAll (throttling []) calm 5 defaultSettings "t"
                (seq 0 30) (Some tiring) 0 in
  outcome call = Threw (Error "enough") /\
  submittedWrites "t" (emitted call) = map PutRequest (seq 0 25) /\
  backendCalls (emitted call) = 1.
Proof. vm_compute. done. Qed.

